(** * puzzle-analytics: the extraction and transformation core, in Rocq

    A shallow embedding of the Python package [puzzle_swap_etl]:
    - [extractors/blockchain.py]  the invocation-tree walk, the paging loop
      with its spill files and the routine that reads them back;
    - [transformers/swaps.py], [transformers/staking.py]  the two event
      transformers, the USD pass and the staking aggregator;
    - [mappings/assets.py], [mappings/functions.py], [mappings/classes.py],
      [mappings/addresses.py]  the static registries they consult.

    Conventions of the embedding.
    - A JSON object read by the code is a record whose fields are [option]s:
      [None] is an absent key, so that [d["k"]] can raise [KeyError] and
      [d.get("k", v)] can fall back to [v].  List-valued keys that the code
      only ever reads through [.get(k, [])] are plain lists, the absent key
      being the empty list.
    - A Python exception is a value of [exn] carried by the [res] monad;
      [try ... except] is a [match] on the result.
    - [decimal.Decimal] is a sign, a coefficient and an exponent, with the
      arithmetic of the default context (28 significant digits, round half
      to even).
    - Dictionaries read by key only are [gmap]s; the one dictionary whose
      iteration order is observable ([staker_balances]) is an association
      list in insertion order. *)

From Stdlib Require Import ZArith NArith List String Ascii Lia Bool.
From Stdlib Require Import DecimalString DecimalZ DecimalPos.
From stdpp Require Import gmap strings list fin_maps.

Open Scope Z_scope.

(* ===================================================================== *)
(** ** Python exceptions and results *)
(* ===================================================================== *)

Inductive exn : Type :=
| KeyError
| TypeError
| InvalidOperation
| DivisionByZero
| IndexError
| SourceError.   (* any failure of the HTTP collaborator *)

Inductive res (A : Type) : Type :=
| Ok (a : A)
| Raise (e : exn).
Arguments Ok {A} a.
Arguments Raise {A} e.

Definition bind {A B} (m : res A) (k : A -> res B) : res B :=
  match m with
  | Ok a => k a
  | Raise e => Raise e
  end.

Notation "x <- m ;; k" := (bind m (fun x => k))
  (at level 100, m at next level, right associativity).

(** [d[k]]: subscripting a dictionary raises [KeyError] on an absent key. *)
Definition subscript {A} (field : option A) : res A :=
  match field with
  | Some a => Ok a
  | None => Raise KeyError
  end.

(** [d.get(k, dflt)]. *)
Definition get {A} (field : option A) (dflt : A) : A :=
  match field with
  | Some a => a
  | None => dflt
  end.

(** [len(l)] as a Python integer. *)
Definition len {A} (l : list A) : Z := Z.of_nat (length l).

(** [s or dflt] for an optional string: [None] and the empty string are both falsy. *)
Definition str_or (s : option string) (dflt : string) : string :=
  match s with
  | Some x => if String.eqb x EmptyString then dflt else x
  | None => dflt
  end.

(** Truthiness of an optional string ([if s:]). *)
Definition str_truthy (s : option string) : bool :=
  match s with
  | Some x => negb (String.eqb x EmptyString)
  | None => false
  end.

(** [x in l] for a list of strings. *)
Definition str_in (x : string) (l : list string) : bool :=
  existsb (String.eqb x) l.

(** [sub in s] for strings. *)
Definition contains (sub s : string) : bool :=
  match String.index 0 sub s with
  | Some _ => true
  | None => false
  end.

(** [s.split(sep)[0]]: the part of [s] before the first [sep]. *)
Definition split_first (sep s : string) : string :=
  match String.index 0 sep s with
  | Some n => String.substring 0 n s
  | None => s
  end.

(** [str(n)] for a Python integer. *)
Definition str_int (n : Z) : string := NilZero.string_of_int (Z.to_int n).

(* ===================================================================== *)
(** ** decimal.Decimal in the default context *)
(* ===================================================================== *)

Module Dec.

(** A finite [Decimal]: [(-1)^dsign * dint * 10^dexp], as CPython stores it
    ([_sign], [_int], [_exp]).  NaN and the infinities do not arise: the
    code builds decimals from integers only and the default context traps
    InvalidOperation, DivisionByZero and Overflow.  The exponent bounds
    [Emin = -999999] and [Emax = 999999] are not modelled. *)
Record Decimal : Type := mkDecimal {
  dsign : bool;      (* true: negative *)
  dint : N;          (* coefficient *)
  dexp : Z           (* exponent *)
}.

(** [getcontext().prec] *)
Definition prec : Z := 28.

(** [Decimal(n)] for a Python integer: exact, exponent 0. *)
Definition of_int (n : Z) : Decimal :=
  mkDecimal (n <? 0) (Z.to_N (Z.abs n)) 0.

(** The decimal [n * 10^e], used to state values. *)
Definition scaled (n : Z) (e : Z) : Decimal :=
  mkDecimal (n <? 0) (Z.to_N (Z.abs n)) e.

(** [10**k] on coefficients, for [k >= 0]. *)
Definition pow10 (k : Z) : N := Z.to_N (10 ^ k).

Fixpoint ndigits_fuel (fuel : nat) (n : N) : Z :=
  match fuel with
  | O => 1
  | S f => if (n <? 10)%N then 1 else 1 + ndigits_fuel f (n / 10)%N
  end.

(** [len(str(n))]: the number of decimal digits, 1 for 0. *)
Definition ndigits (n : N) : Z := ndigits_fuel (N.size_nat n) n.

(** [Decimal._fix]: round to [prec] significant digits, ROUND_HALF_EVEN.
    With [k] digits too many the coefficient is cut to its leading [prec]
    digits [q]; the cut-off part [r] decides: up when it is more than half
    a unit, or exactly half with [q] odd.  A carry out of the top digit
    ([q + 1 = 10^prec]) drops one more digit. *)
Definition fix_ (d : Decimal) : Decimal :=
  let n := ndigits (dint d) in
  if n <=? prec then d
  else
    let k := n - prec in
    let q := (dint d / pow10 k)%N in
    let r := (dint d mod pow10 k)%N in
    let half := (5 * pow10 (k - 1))%N in
    let up := (half <? r)%N || ((r =? half)%N && N.odd q) in
    let q' := if up then (q + 1)%N else q in
    if (q' =? pow10 prec)%N
    then mkDecimal (dsign d) (q' / 10)%N (dexp d + k + 1)
    else mkDecimal (dsign d) q' (dexp d + k).

(** [Decimal.__bool__] *)
Definition truthy (d : Decimal) : bool := negb (dint d =? 0)%N.

(** [Decimal.__neg__]-free negation used by [__sub__] ([copy_negate]). *)
Definition copy_negate (d : Decimal) : Decimal :=
  mkDecimal (negb (dsign d)) (dint d) (dexp d).

(** [Decimal.__mul__] *)
Definition mul (a b : Decimal) : Decimal :=
  fix_ (mkDecimal (xorb (dsign a) (dsign b)) (dint a * dint b)%N (dexp a + dexp b)).

(** The loop of [__truediv__] on an exact quotient: drop trailing zeros
    while the exponent is below the ideal one. *)
Fixpoint strip_zeros (fuel : nat) (coeff : N) (exp ideal : Z) : N * Z :=
  match fuel with
  | O => (coeff, exp)
  | S f =>
      if (exp <? ideal) && (coeff mod 10 =? 0)%N
      then strip_zeros f (coeff / 10)%N (exp + 1) ideal
      else (coeff, exp)
  end.

(** [Decimal.__truediv__] *)
Definition div (a b : Decimal) : res Decimal :=
  let sign := xorb (dsign a) (dsign b) in
  if (dint b =? 0)%N then
    if (dint a =? 0)%N then Raise InvalidOperation else Raise DivisionByZero
  else if (dint a =? 0)%N then
    Ok (fix_ (mkDecimal sign 0 (dexp a - dexp b)))
  else
    let shift := ndigits (dint b) - ndigits (dint a) + prec + 1 in
    let exp := dexp a - dexp b - shift in
    let num := if 0 <=? shift then (dint a * pow10 shift)%N else dint a in
    let den := if 0 <=? shift then dint b else (dint b * pow10 (- shift))%N in
    let coeff := (num / den)%N in
    let remainder := (num mod den)%N in
    if negb (remainder =? 0)%N then
      let coeff := if (coeff mod 5 =? 0)%N then (coeff + 1)%N else coeff in
      Ok (fix_ (mkDecimal sign coeff exp))
    else
      let ideal_exp := dexp a - dexp b in
      let '(coeff, exp) := strip_zeros (Z.to_nat (ideal_exp - exp)) coeff exp ideal_exp in
      Ok (fix_ (mkDecimal sign coeff exp)).

(** [Decimal.__add__], with its helper [_normalize] inlined: the operand
    of larger exponent is [tmp]; an [other] that is negligible at the
    working precision is replaced by one unit at exponent [e]. *)
Definition add (a b : Decimal) : Decimal :=
  let exp := Z.min (dexp a) (dexp b) in
  if (dint a =? 0)%N && (dint b =? 0)%N then
    fix_ (mkDecimal (dsign a && dsign b) 0 exp)
  else if (dint a =? 0)%N then
    let exp := Z.max exp (dexp b - prec - 1) in
    fix_ (mkDecimal (dsign b) (dint b * pow10 (dexp b - exp))%N exp)
  else if (dint b =? 0)%N then
    let exp := Z.max exp (dexp a - prec - 1) in
    fix_ (mkDecimal (dsign a) (dint a * pow10 (dexp a - exp))%N exp)
  else
    let swap := dexp a <? dexp b in
    let tmp := if swap then b else a in
    let other := if swap then a else b in
    let e := dexp tmp + Z.min (-1) (ndigits (dint tmp) - prec - 2) in
    let negligible := ndigits (dint other) + dexp other - 1 <? e in
    let other_int := if negligible then 1%N else dint other in
    let other_exp := if negligible then e else dexp other in
    let tmp_int := (dint tmp * pow10 (dexp tmp - other_exp))%N in
    let op1_int := if swap then other_int else tmp_int in
    let op2_int := if swap then tmp_int else other_int in
    if negb (Bool.eqb (dsign a) (dsign b)) then
      if (op1_int =? op2_int)%N then
        fix_ (mkDecimal false 0 exp)
      else if (op1_int <? op2_int)%N then
        fix_ (mkDecimal (dsign b) (op2_int - op1_int)%N other_exp)
      else
        fix_ (mkDecimal (dsign a) (op1_int - op2_int)%N other_exp)
    else
      fix_ (mkDecimal (dsign a) (op1_int + op2_int)%N other_exp).

(** [Decimal.__sub__] *)
Definition sub (a b : Decimal) : Decimal := add a (copy_negate b).

(** The signed coefficient of [d] once its exponent is lowered to [e]. *)
Definition at_exp (d : Decimal) (e : Z) : Z :=
  let m := Z.of_N (dint d) * 10 ^ (dexp d - e) in
  if dsign d then - m else m.

(** [Decimal._cmp]: comparison of the exact values. *)
Definition cmp (a b : Decimal) : comparison :=
  let e := Z.min (dexp a) (dexp b) in
  Z.compare (at_exp a e) (at_exp b e).

(** [a == b] *)
Definition eqb (a b : Decimal) : bool :=
  match cmp a b with Eq => true | _ => false end.

(** [a > b] *)
Definition gtb (a b : Decimal) : bool :=
  match cmp a b with Gt => true | _ => false end.

(** [Decimal.__int__]: truncation towards zero. *)
Definition to_int (d : Decimal) : Z :=
  let m :=
    if 0 <=? dexp d then Z.of_N (dint d) * 10 ^ dexp d
    else Z.of_N (dint d / pow10 (- dexp d))%N in
  if dsign d then - m else m.

(** [10**k] for a Python integer [k] is an [int] when [k >= 0] and a
    [float] otherwise; [Decimal / float] raises [TypeError]. *)
Definition div_pow10 (a : Decimal) (k : Z) : res Decimal :=
  if k <? 0 then Raise TypeError else div a (of_int (10 ^ k)).

(** ["0" * k] *)
Definition zeros (k : Z) : string :=
  String.concat EmptyString (repeat "0"%string (Z.to_nat k)).

(** [Decimal.__str__] (which is also what an f-string renders): plain
    notation when the exponent is at most 0 and the number is not too
    small, scientific notation with one leading digit otherwise. *)
Definition to_str (d : Decimal) : string :=
  let digits := NilZero.string_of_uint (N.to_uint (dint d)) in
  let n := ndigits (dint d) in
  let leftdigits := dexp d + n in
  let dotplace :=
    if (dexp d <=? 0) && (-6 <? leftdigits) then leftdigits else 1 in
  let intpart :=
    if dotplace <=? 0 then "0"%string
    else if n <=? dotplace then (digits ++ zeros (dotplace - n))%string
    else String.substring 0 (Z.to_nat dotplace) digits in
  let fracpart :=
    if dotplace <=? 0 then ("." ++ zeros (- dotplace) ++ digits)%string
    else if n <=? dotplace then EmptyString
    else ("." ++ String.substring (Z.to_nat dotplace) (Z.to_nat (n - dotplace)) digits)%string in
  let exp :=
    if leftdigits =? dotplace then EmptyString
    else
      let e := leftdigits - dotplace in
      let plus := if e <? 0 then EmptyString else "+"%string in
      ("E" ++ plus ++ str_int e)%string in
  ((if dsign d then "-" else EmptyString) ++ intpart ++ fracpart ++ exp)%string.

End Dec.

Abbreviation Decimal := Dec.Decimal.

(* ===================================================================== *)
(** ** Raw transactions (the JSON objects of the node API) *)
(* ===================================================================== *)

(** An element of [payment]: [{assetId, amount}]. *)
Record Payment : Type := mkPayment {
  p_assetId : option string;
  p_amount : option Z
}.

(** An element of [stateChanges.transfers]: [{address, asset, amount}]. *)
Record Transfer : Type := mkTransfer {
  t_address : option string;
  t_asset : option string;
  t_amount : option Z
}.

(** The value of a data entry: an integer, a boolean, or a string (binary
    entries arrive as strings). *)
Inductive DataValue : Type :=
| VInt (n : Z)
| VBool (b : bool)
| VStr (s : string).

(** An element of [stateChanges.data]: [{key, value}]. *)
Record DataEntry : Type := mkDataEntry {
  e_key : option string;
  e_value : option DataValue
}.

(** The value under ["type"]: an integer for transactions, a string for
    the payload of a type 18 transaction. *)
Inductive TxType : Type :=
| TInt (n : Z)
| TStr (s : string).

(** The object under ["call"]. *)
Record Call : Type := mkCall {
  function : option string
}.

(** A transaction dictionary.  [sc_transfers], [sc_data] and [sc_invokes]
    are [stateChanges.transfers], [stateChanges.data] and
    [stateChanges.invokes]; the code reads them with
    [.get("stateChanges", {}).get(k, [])] only, so an absent key is the
    empty list.  [payment] is read with [.get("payment", [])].
    [sc_invokes] makes the dictionary a tree of nested invocations. *)
#[local] Unset Elimination Schemes.
Inductive Tx : Type := mkTx {
  tx_id : option string;
  height : option Z;
  timestamp : option Z;
  sender : option string;
  type : option TxType;
  applicationStatus : option string;
  dApp : option string;
  call : option Call;
  payment : list Payment;
  sc_transfers : list Transfer;
  sc_data : list DataEntry;
  sc_invokes : list Tx;
  payload : option Tx
}.
#[local] Set Elimination Schemes.

(** [invoke["sender"] = s; invoke["height"] = h; invoke["timestamp"] = ts;
    invoke["type"] = 16; invoke["id"] = i]: the five assignments at the top
    of the loop body of [_extract_invokes]. *)
Definition set_context (invoke : Tx) (s : string) (h ts : Z) (i : string) : Tx :=
  mkTx (Some i) (Some h) (Some ts) (Some s) (Some (TInt 16))
       (applicationStatus invoke) (dApp invoke) (call invoke)
       (payment invoke) (sc_transfers invoke) (sc_data invoke)
       (sc_invokes invoke) (payload invoke).

(** The nested invocations of a dictionary after the walk has gone through
    them: the list object is the same, its elements have been assigned to. *)
Definition set_invokes (t : Tx) (l : list Tx) : Tx :=
  mkTx (tx_id t) (height t) (timestamp t) (sender t) (type t)
       (applicationStatus t) (dApp t) (call t)
       (payment t) (sc_transfers t) (sc_data t) l (payload t).

(** [payload.update({id, timestamp, height, sender, applicationStatus, type})] *)
Definition update_payload (p : Tx) (i : string) (ts h : Z) (s : string)
    (status : string) (ty : Z) : Tx :=
  mkTx (Some i) (Some h) (Some ts) (Some s) (Some (TInt ty)) (Some status)
       (dApp p) (call p) (payment p) (sc_transfers p) (sc_data p)
       (sc_invokes p) (payload p).

(** [invoke["call"]["function"]] *)
Definition call_function (t : Tx) : res string :=
  c <- subscript (call t) ;; subscript (function c).

(** The pydantic model [WavesTransaction] the transformers receive; the
    pipeline fills [raw_data] with the dictionary the object was built
    from. *)
Record WavesTransaction : Type := mkWavesTransaction {
  w_id : string;
  w_height : Z;
  w_timestamp : Z;
  w_sender : string;
  w_type : Z;
  raw_data : option Tx
}.

(* ===================================================================== *)
(** ** mappings/assets.py *)
(* ===================================================================== *)

Module AssetMapping.

(** The dataclass [AssetInfo]; the descriptive fields (description,
    issuer, verified, tags, coingecko_id) play no part in the arithmetic
    and are left out. *)
Record AssetInfo : Type := mkAssetInfo {
  id : string;
  symbol : string;
  name : string;
  decimals : Z;
  asset_type : string
}.

Definition WAVES_ID : string := "WAVES".
Definition PUZZLE_TOKEN_ID : string := "HEB8Qaw9xrWpWs8tHsiATYGBWDBtP2S7kcPALrMu43AS".
Definition USDN_ID : string := "DG2xFkPdDwKUoBkzGAhQtLpSGzfXLiCYPEzeKH2Ad24p".
Definition USDT_ID : string := "34N9YcEETLWn93qYQ64EsP1x89tSruJU44RrEMSXXEPJ".
Definition USDC_ID : string := "6nSpVyNH7yM69eg446wrQR94ipbbcmZMU1ENPwanC97g".

Definition entry (i sym nm : string) (d : Z) (ty : string) : string * AssetInfo :=
  (i, mkAssetInfo i sym nm d ty).

Definition MAJOR_ASSETS : gmap string AssetInfo :=
  list_to_map [
    entry WAVES_ID "WAVES" "Waves" 8 "token";
    entry PUZZLE_TOKEN_ID "PUZZLE" "Puzzle" 8 "token";
    entry USDN_ID "USDN" "Neutrino USD" 6 "stable";
    entry USDT_ID "USDT" "Tether USD" 6 "stable";
    entry "8LQW8f7P5d5PZM7GtZEBgaqRPGSzS3DfPuiXrURJ4AJS" "BTC" "Bitcoin" 8 "wrapped";
    entry "474jTeYx2r2Va35794tCScAXWJG9hU2HcgxzMowaZUnu" "ETH" "Ethereum" 8 "wrapped";
    entry USDC_ID "USDC" "USD Coin" 6 "stable"
  ].

Definition DEFI_TOKENS : gmap string AssetInfo :=
  list_to_map [
    entry "Ehie5xYpeN8op1Cctc6aGUrqx8jq3jtf1DSjXDbfm7aT" "SWOP" "Swop" 8 "token";
    entry "6XtHjpXbs9RRJP2Sr9GUyVqzACcby9TkThHXnjVC5CDJ" "EGG" "Waves Ducks" 8 "token";
    entry "AAHG5gzQeWfqhR9K4rptpyDDoo9SgAEiEsQEP1Rge2zG" "SIGN" "SignatureChain" 8 "token"
  ].

Definition LP_TOKENS : gmap string AssetInfo :=
  list_to_map [
    entry "3P2uzAzX9XTu1t32GkWw68YFFLwtapWvDds_LP" "PUZZLE-USDN-LP" "Puzzle-USDN LP Token" 8 "token";
    entry "3PJaBXZu5rNjKJhZLYnHjhKdDhqUGdZgLzs_LP" "PUZZLE-WAVES-LP" "Puzzle-Waves LP Token" 8 "token"
  ].

(** [all_assets = {}; all_assets.update(MAJOR_ASSETS); .update(DEFI_TOKENS);
    .update(LP_TOKENS)]: a later update wins, and the union of stdpp is
    left-biased. *)
Definition get_all_assets : gmap string AssetInfo :=
  LP_TOKENS ∪ (DEFI_TOKENS ∪ (MAJOR_ASSETS ∪ ∅)).

Definition get_asset_info (asset_id : string) : option AssetInfo :=
  get_all_assets !! asset_id.

(** [asset_info.decimals if asset_info else 8] *)
Definition get_asset_decimals (asset_id : string) : Z :=
  match get_asset_info asset_id with
  | Some asset_info => decimals asset_info
  | None => 8
  end.

(** [Decimal(raw_amount) / Decimal(10**decimals)] *)
Definition normalize_amount (asset_id : string) (raw_amount : Z) : res Decimal :=
  let decimals := get_asset_decimals asset_id in
  Dec.div (Dec.of_int raw_amount) (Dec.of_int (10 ^ decimals)).

(** [int(decimal_amount * Decimal(10**decimals))] *)
Definition denormalize_amount (asset_id : string) (decimal_amount : Decimal) : Z :=
  let decimals := get_asset_decimals asset_id in
  Dec.to_int (Dec.mul decimal_amount (Dec.of_int (10 ^ decimals))).

(** The set [STABLECOINS]; it is only ever tested for membership. *)
Definition STABLECOINS : list string := [USDN_ID; USDT_ID; USDC_ID].

(** [asset_id in cls.STABLECOINS] *)
Definition is_stablecoin (asset_id : string) : bool :=
  str_in asset_id STABLECOINS.

(** [{asset_id: info for asset_id, info in all_assets.items()
      if info.asset_type == asset_type}] *)
Definition get_assets_by_type (asset_type_ : string) : gmap string AssetInfo :=
  filter (fun kv => asset_type (snd kv) = asset_type_) get_all_assets.

Definition get_stablecoins : gmap string AssetInfo :=
  get_assets_by_type "stable".

End AssetMapping.

(* ===================================================================== *)
(** ** mappings/functions.py and the FunctionMapping class *)
(* ===================================================================== *)

Module FunctionMapping.

Definition SWAP_FUNCTIONS : list string :=
  ["swap"; "swapWithReferral"; "swapToExactAmount"; "swapFromExactAmount"]%string.

Definition STAKING_FUNCTIONS : list string :=
  ["stake"; "unstake"; "claim"; "claimReward"; "claimIndexRewards";
   "unstakeIndex"; "stakeIndex"]%string.

Definition LENDING_FUNCTIONS : list string :=
  ["supply"; "withdraw"; "borrow"; "repay"; "liquidate"; "updateInterest"]%string.

Definition is_swap_function (function_name : string) : bool :=
  str_in function_name SWAP_FUNCTIONS.

Definition is_staking_function (function_name : string) : bool :=
  str_in function_name STAKING_FUNCTIONS.

Definition is_lending_function (function_name : string) : bool :=
  str_in function_name LENDING_FUNCTIONS.

Definition POOL_FUNCTIONS : list string :=
  ["init"; "preInit"; "addLiquidity"; "removeLiquidity"; "setRebalancingPlan";
   "rebalance"; "updateWeights"]%string.

Definition ORACLE_FUNCTIONS : list string :=
  ["updatePrice"; "getPrice"; "setPriceData"]%string.

Definition GOVERNANCE_FUNCTIONS : list string :=
  ["vote"; "propose"; "execute"; "delegate"]%string.

Definition FEE_FUNCTIONS : list string :=
  ["topUpReward"; "collectFees"; "distributeFees"]%string.

Definition FUNCTION_CATEGORIES : gmap string string :=
  list_to_map [
    ("swap", "swap");
    ("swapWithReferral", "swap");
    ("swapToExactAmount", "swap");
    ("swapFromExactAmount", "swap");
    ("stake", "staking");
    ("unstake", "staking");
    ("claim", "staking");
    ("claimReward", "staking");
    ("claimIndexRewards", "staking");
    ("unstakeIndex", "staking");
    ("stakeIndex", "staking");
    ("supply", "lending");
    ("withdraw", "lending");
    ("borrow", "lending");
    ("repay", "lending");
    ("liquidate", "lending");
    ("updateInterest", "lending");
    ("init", "pool");
    ("preInit", "pool");
    ("addLiquidity", "pool");
    ("removeLiquidity", "pool");
    ("setRebalancingPlan", "pool");
    ("rebalance", "pool");
    ("updateWeights", "pool");
    ("updatePrice", "oracle");
    ("getPrice", "oracle");
    ("setPriceData", "oracle");
    ("vote", "governance");
    ("propose", "governance");
    ("execute", "governance");
    ("delegate", "governance");
    ("topUpReward", "fee");
    ("collectFees", "fee");
    ("distributeFees", "fee")
  ]%string.

(** [FUNCTION_CATEGORIES.get(function_name, "unknown")] *)
Definition get_function_category (function_name : string) : string :=
  get (FUNCTION_CATEGORIES !! function_name) "unknown"%string.

Definition is_pool_function (function_name : string) : bool :=
  str_in function_name POOL_FUNCTIONS.

(** Modelled from the spec: [FunctionMapping.extract_function_from_invoke]
    is called by both transformers but is not defined in the source tree.
    The spec calls its result the "invoked function name" ([call.function]);
    tests/test_mappings.py fixes it on three inputs: [{"call": {"function":
    "swap"}}] gives ["swap"], and [{}] and [None] give [None]. *)
Definition extract_function_from_invoke (invoke_data : Tx) : option string :=
  match call invoke_data with
  | Some c => function c
  | None => None
  end.

End FunctionMapping.

(* ===================================================================== *)
(** ** mappings/addresses.py and the AddressMapping class *)
(* ===================================================================== *)

Module AddressMapping.

Definition PUZZLE_STAKING_ADDRESS : string := "3PFTbywqxtFfukX3HyT881g4iW5K4QL3FAS".
Definition PUZZLE_ORACLE_ADDRESS : string := "3P8d1E1BLKoD52y3bQJ1bDTd2TD1gpaLn9t".
Definition PUZZLE_BOOSTER_ADDRESS : string := "3P8eeDzUnoDNbQjW617pAe76cEUDQsP1m1V".
Definition PUZZLE_ARTEFACTS_ADDRESS : string := "3PFkgvC9y6zHy64zEAscKKgaNY3yipiLqbW".
Definition REX_AGGREGATOR_ADDRESS : string := "3PGFHzVGT4NTigwCKP1NcwoXkodVZwvBuuU".
Definition PUZZLE_LIMITS_ADDRESS : string := "3PFB6LJyShsCKEA1AU1U1WLbDazqyj6ZL9b".
Definition EAGLES_STAKING_ADDRESS : string := "3PKUxbZaSYfsR7wu2HaAgiirHYwAMupDrYW".
Definition ARKIMALS_EAGLES_ADDRESS : string := "3PGrthrFFZVfvZeCyrZmEXJ1P29ViPbcy5g".
Definition POWER_DAO_ADDRESS : string := "3PEwRcYNAUtoFvKpBhKoiwajnZfdoDR6h4h".
Definition PL_MAIN : string := "3P4uA5etnZi4AmBabKinq2bMiWU8KcnHZdH".
Definition PL_ROME : string := "3P8Df2b7ywHtLBHBe8PBVQYd3A5MdEEJAou".
Definition PL_DEFI : string := "3P4DK5VzDwL3vfc5ahUEhtoe5ByZNyacJ3X".
Definition PL_LOWCAP : string := "3PHpuQUPVUoR3AYzFeJzeWJfYLsLTmWssVH".
Definition PL_COLD_STORAGE : string := "3P4QjKNNVnEJdmcvPezmoTvsqpmhtxX2SaA".

Definition PROTOCOL_FEES_COLLECTORS : list string :=
  ["3P4kBiU4wr2yV1S5gMfu3MdkVvy7kxXHsKe"%string;
   "3PFWAVKmXjfHXyzJb12jCbhP4Uhi9t4uWiD"%string;
   "3PFTbywqxtFfukX3HyT881g4iW5K4QL3FAS"%string].

Definition STAKING_ADDRESSES : list string :=
  [PUZZLE_STAKING_ADDRESS; EAGLES_STAKING_ADDRESS; ARKIMALS_EAGLES_ADDRESS;
   POWER_DAO_ADDRESS].

Definition LENDING_ADDRESSES : list string :=
  [PL_MAIN; PL_ROME; PL_DEFI; PL_LOWCAP; PL_COLD_STORAGE].

Definition CORE_PROTOCOL_ADDRESSES : list string :=
  [PUZZLE_ORACLE_ADDRESS; PUZZLE_BOOSTER_ADDRESS; PUZZLE_ARTEFACTS_ADDRESS;
   REX_AGGREGATOR_ADDRESS; PUZZLE_LIMITS_ADDRESS].

Definition ALL_IMPORTANT_ADDRESSES : list string :=
  STAKING_ADDRESSES ++ LENDING_ADDRESSES ++ CORE_PROTOCOL_ADDRESSES
  ++ PROTOCOL_FEES_COLLECTORS.

Definition ADDRESS_TYPES : gmap string string :=
  list_to_map [
    (PUZZLE_STAKING_ADDRESS, "staking"%string);
    (EAGLES_STAKING_ADDRESS, "staking"%string);
    (ARKIMALS_EAGLES_ADDRESS, "staking"%string);
    (POWER_DAO_ADDRESS, "staking"%string);
    (PL_MAIN, "lending"%string);
    (PL_ROME, "lending"%string);
    (PL_DEFI, "lending"%string);
    (PL_LOWCAP, "lending"%string);
    (PL_COLD_STORAGE, "lending"%string);
    (PUZZLE_ORACLE_ADDRESS, "oracle"%string);
    (PUZZLE_BOOSTER_ADDRESS, "booster"%string);
    (PUZZLE_ARTEFACTS_ADDRESS, "nft"%string);
    (REX_AGGREGATOR_ADDRESS, "aggregator"%string);
    (PUZZLE_LIMITS_ADDRESS, "trading"%string)
  ].

(** [ADDRESS_TYPES.get(address, "unknown")] *)
Definition get_address_type (address : string) : string :=
  get (ADDRESS_TYPES !! address) "unknown"%string.

(** [address in STAKING_ADDRESSES] *)
Definition is_staking_address (address : string) : bool :=
  str_in address STAKING_ADDRESSES.

(** [address in LENDING_ADDRESSES] *)
Definition is_lending_address (address : string) : bool :=
  str_in address LENDING_ADDRESSES.

(** [address in PROTOCOL_FEES_COLLECTORS] *)
Definition is_fee_collector (address : string) : bool :=
  str_in address PROTOCOL_FEES_COLLECTORS.

Definition get_staking_addresses : list string := STAKING_ADDRESSES.

(** The addresses of [get_all_addresses()] whose type is ["pool"].  The
    result is only ever tested for membership, so the repetition of an
    address in [ALL_IMPORTANT_ADDRESSES] is immaterial. *)
Definition get_pool_addresses : list string :=
  List.filter (fun address => String.eqb (get_address_type address) "pool")
    ALL_IMPORTANT_ADDRESSES.

End AddressMapping.

(* ===================================================================== *)
(** ** extractors/blockchain.py *)
(* ===================================================================== *)

Module BlockchainExtractor.

(** [node["dApp"] == target_address or node["call"]["function"] in
    vip_functions].  The only exception it can raise is [KeyError]; the
    second operand is evaluated only when the first is false. *)
Definition is_relevant (node : Tx) (target_address : string)
    (vip_functions : list string) : res bool :=
  d <- subscript (dApp node) ;;
  if String.eqb d target_address then Ok true
  else
    f <- call_function node ;;
    Ok (str_in f vip_functions).

(** One turn of the [for invoke in invokes] loop of [_extract_invokes].

    The Python dictionaries are assigned to in place and [collector] holds
    references to them: what a caller finds in [collector] is each
    dictionary as the whole walk left it.  The model therefore returns the
    dictionary after the walk (its own five keys set, its nested
    invocations walked in turn) together with the dictionaries this turn
    appends to [collector], in the order of the appends.

    On [KeyError] the turn ends at [continue]: nothing is appended and the
    nested invocations are not visited. *)
Fixpoint extract_invoke (target_address : string) (vip_functions : list string)
    (sender : string) (height timestamp : Z) (tx_id : string)
    (invoke : Tx) {struct invoke} : Tx * list Tx :=
  let invoke1 := set_context invoke sender height timestamp tx_id in
  match is_relevant invoke1 target_address vip_functions, dApp invoke1 with
  | Ok relevant, Some d =>
      let fix for_each (invokes : list Tx) : list Tx * list Tx :=
        match invokes with
        | [] => ([], [])
        | i :: rest =>
            let '(i', found) :=
              extract_invoke target_address vip_functions d height timestamp tx_id i in
            let '(rest', found_rest) := for_each rest in
            (i' :: rest', found ++ found_rest)
        end in
      let '(nested, found) := for_each (sc_invokes invoke) in
      let invoke2 := set_invokes invoke1 nested in
      (invoke2, (if relevant then [invoke2] else []) ++ found)
  | _, _ => (invoke1, [])
  end.

(** The loop itself: the invocations after the walk and what was appended. *)
Fixpoint for_each_invoke (target_address : string) (vip_functions : list string)
    (sender : string) (height timestamp : Z) (tx_id : string)
    (invokes : list Tx) : list Tx * list Tx :=
  match invokes with
  | [] => ([], [])
  | i :: rest =>
      let '(i', found) :=
        extract_invoke target_address vip_functions sender height timestamp tx_id i in
      let '(rest', found_rest) :=
        for_each_invoke target_address vip_functions sender height timestamp tx_id rest in
      (i' :: rest', found ++ found_rest)
  end.

(** [_extract_invokes(invokes, target_address, sender, height, timestamp,
    tx_id, collector, vip_functions)]: returns the invocations as the walk
    left them and the collector after the walk. *)
Definition _extract_invokes (invokes : list Tx) (target_address sender : string)
    (height timestamp : Z) (tx_id : string) (collector : list Tx)
    (vip_functions : list string) : list Tx * list Tx :=
  let '(invokes', found) :=
    for_each_invoke target_address vip_functions sender height timestamp tx_id invokes in
  (invokes', collector ++ found).

Definition is_type (t : TxType) (n : Z) : bool :=
  match t with
  | TInt m => m =? n
  | TStr _ => false
  end.

Definition is_type_str (t : TxType) (s : string) : bool :=
  match t with
  | TInt _ => false
  | TStr x => String.eqb x s
  end.

Definition is_succeeded (status : option string) : bool :=
  match status with
  | Some s => String.eqb s "succeeded"
  | None => false
  end.

(** The unwrapping of a type 18 transaction into its payload. *)
Definition unwrap (transaction : Tx) : res Tx :=
  ty <- subscript (type transaction) ;;
  if is_type ty 18 then
    payload <- subscript (payload transaction) ;;
    i <- subscript (tx_id transaction) ;;
    ts <- subscript (timestamp transaction) ;;
    h <- subscript (height transaction) ;;
    s <- subscript (sender transaction) ;;
    let status := get (applicationStatus transaction) EmptyString in
    pty <- subscript (type payload) ;;
    Ok (update_payload payload i ts h s status
          (if is_type_str pty "invocation" then 16 else 4))
  else Ok transaction.

(** [_find_relevant_transactions(transaction, target_address, vip_functions)].
    When the root is relevant it is appended before its nested invocations
    are walked; being a reference, it shows them as the walk left them. *)
Definition _find_relevant_transactions (transaction : Tx) (target_address : string)
    (vip_functions : list string) : res (list Tx) :=
  if negb (is_succeeded (applicationStatus transaction)) then Ok []
  else
    transaction <- unwrap transaction ;;
    ty <- subscript (type transaction) ;;
    if is_type ty 16 then
      relevant <- is_relevant transaction target_address vip_functions ;;
      match sc_invokes transaction with
      | [] => Ok (if relevant then [transaction] else [])
      | nested_invokes =>
          d <- subscript (dApp transaction) ;;
          h <- subscript (height transaction) ;;
          ts <- subscript (timestamp transaction) ;;
          i <- subscript (tx_id transaction) ;;
          let '(nested, found) :=
            _extract_invokes nested_invokes target_address d h ts i []
              vip_functions in
          let transaction := set_invokes transaction nested in
          Ok ((if relevant then [transaction] else []) ++ found)
      end
    else Ok [].

(** The spill files: file name to the JSON array stored in it. *)
Abbreviation Files := (gmap string (list Tx)).

(** [f"tmp/{address}_{file_index}"] *)
Definition filename (address : string) (file_index : Z) : string :=
  ("tmp/" ++ address ++ "_" ++ str_int file_index)%string.

(** [_save_transactions_to_file]: the file receives a copy of the list. *)
Definition _save_transactions_to_file (transactions : list Tx) (address : string)
    (file_index : Z) (fs : Files) : Files :=
  <[filename address file_index := transactions]> fs.

(** The loop of [load_transactions_from_files] over
    [range(file_count - 1, -1, -1)], with [n] files left to read.  A file
    that cannot be opened is logged and skipped. *)
Fixpoint load_from (address : string) (n : nat) (all_transactions : list Tx)
    (fs : Files) : list Tx * Files :=
  match n with
  | O => (all_transactions, fs)
  | S i =>
      let filename := filename address (Z.of_nat i) in
      match fs !! filename with
      | Some transactions =>
          load_from address i (all_transactions ++ rev transactions)
            (delete filename fs)
      | None => load_from address i all_transactions fs
      end
  end.

(** [load_transactions_from_files(address, file_count)] *)
Definition load_transactions_from_files (address : string) (file_count : Z)
    (fs : Files) : list Tx * Files :=
  load_from address (Z.to_nat file_count) [] fs.

(** The filter of [fetch_transactions_batch]: keep the transactions before
    the one whose id is [last_processed_id]. *)
Fixpoint before_processed (last_processed_id : string) (transactions : list Tx)
    : res (list Tx) :=
  match transactions with
  | [] => Ok []
  | tx :: rest =>
      i <- subscript (tx_id tx) ;;
      if String.eqb i last_processed_id then Ok []
      else
        filtered <- before_processed last_processed_id rest ;;
        Ok (tx :: filtered)
  end.

(** [batch[-1]["id"]] *)
Definition last_id (batch : list Tx) : res string :=
  match last batch with
  | Some tx => subscript (tx_id tx)
  | None => Raise IndexError
  end.

(** The state of one run of [fetch_all_transactions]: its local variables
    and the spill files. *)
Record Run : Type := mkRun {
  all_transactions : list Tx;
  last_tx_id : string;
  file_count : Z;
  total_count : Z;
  files : Files
}.

Section Paging.

(** The transaction source, [HTTPClient.get_waves_transactions(address,
    limit, after)], an external collaborator. *)
Variable get_waves_transactions : string -> Z -> string -> res (list Tx).

(** [settings.max_transactions_in_memory] *)
Variable max_transactions_in_memory : Z.

(** [fetch_transactions_batch(address, limit, after, last_processed_id)] *)
Definition fetch_transactions_batch (address : string) (limit : Z) (after : string)
    (last_processed_id : string) : res (list Tx * bool) :=
  transactions <- get_waves_transactions address limit after ;;
  transactions <-
    (if negb (String.eqb last_processed_id EmptyString)
     then before_processed last_processed_id transactions
     else Ok transactions) ;;
  let has_more := len transactions =? limit in
  Ok (transactions, has_more).

(** [for tx in batch: relevant_txs.extend(self._find_relevant_transactions(
    tx, address, vip_functions))] *)
Fixpoint find_in_batch (address : string) (vip_functions : list string)
    (batch : list Tx) : res (list Tx) :=
  match batch with
  | [] => Ok []
  | tx :: rest =>
      found_txs <- _find_relevant_transactions tx address vip_functions ;;
      relevant_txs <- find_in_batch address vip_functions rest ;;
      Ok (found_txs ++ relevant_txs)
  end.

(** The body of the [while has_more] loop after a non-empty batch. *)
Definition process_batch (address : string) (vip_functions : list string)
    (batch : list Tx) (st : Run) : res Run :=
  relevant_txs <- find_in_batch address vip_functions batch ;;
  let all_transactions := all_transactions st ++ relevant_txs in
  let total_count := total_count st + len relevant_txs in
  last_tx_id <- last_id batch ;;
  if max_transactions_in_memory <? len all_transactions then
    Ok (mkRun [] last_tx_id (file_count st + 1) total_count
          (_save_transactions_to_file all_transactions address (file_count st) (files st)))
  else
    Ok (mkRun all_transactions last_tx_id (file_count st) total_count (files st)).

(** The [while has_more] loop.  [fuel] bounds the number of pages; [None]
    means the bound was reached with the source still announcing more. *)
Fixpoint fetch_loop (fuel : nat) (address last_processed_id : string)
    (vip_functions : list string) (st : Run) : option (res Run) :=
  match fuel with
  | O => None
  | S fuel =>
      match fetch_transactions_batch address 1000 (last_tx_id st) last_processed_id with
      | Raise e => Some (Raise e)
      | Ok ([], _) => Some (Ok st)
      | Ok (batch, has_more) =>
          match process_batch address vip_functions batch st with
          | Raise e => Some (Raise e)
          | Ok st' =>
              if has_more
              then fetch_loop fuel address last_processed_id vip_functions st'
              else Some (Ok st')
          end
      end
  end.

(** What follows the loop: the remainder of the buffer goes to one more
    file when files are in use; otherwise the buffer is reversed. *)
Definition finish (address : string) (st : Run) : list Tx * Z * Files :=
  let st :=
    if (0 <? file_count st) && negb (len (all_transactions st) =? 0) then
      mkRun [] (last_tx_id st) (file_count st + 1) (total_count st)
        (_save_transactions_to_file (all_transactions st) address (file_count st) (files st))
    else st in
  let all_transactions :=
    if file_count st =? 0 then rev (all_transactions st) else all_transactions st in
  (all_transactions, file_count st, files st).

(** [fetch_all_transactions(address, function_name, last_processed_id,
    vip_functions)], run on the spill files [fs]: the returned pair and
    the files afterwards.  An exception leaves the files written so far in
    place; the model does not report them. *)
Definition fetch_all_transactions (fuel : nat) (address last_processed_id : string)
    (vip_functions : list string) (fs : Files)
    : option (res (list Tx * Z * Files)) :=
  match fetch_loop fuel address last_processed_id vip_functions
          (mkRun [] EmptyString 0 0 fs) with
  | None => None
  | Some (Raise e) => Some (Raise e)
  | Some (Ok st) => Some (Ok (finish address st))
  end.

End Paging.

End BlockchainExtractor.

(* ===================================================================== *)
(** ** models/blockchain.py: the events *)
(* ===================================================================== *)

(** The pydantic model [SwapData].  [pool_fee] and [protocol_fee] are left
    out: [_parse_swap_details] computes them from the [stateChanges] object
    passed where a transaction is expected, which has no [stateChanges] key
    of its own, so both are [None] and neither computation can raise. *)
Module SwapData.
Record t : Type := mk {
  id : string;
  transaction_id : string;
  height : Z;
  timestamp : Z;
  pool_address : string;
  trader_address : string;
  asset_in_id : string;
  asset_out_id : string;
  amount_in : Decimal;
  amount_out : Decimal;
  amount_in_usd : option Decimal;
  amount_out_usd : option Decimal;
  volume_usd : option Decimal
}.

(** [swap.amount_in_usd = a; swap.amount_out_usd = b; swap.volume_usd = v] *)
Definition set_usd (swap : t) (a b v : option Decimal) : t :=
  mk (id swap) (transaction_id swap) (height swap) (timestamp swap)
     (pool_address swap) (trader_address swap) (asset_in_id swap)
     (asset_out_id swap) (amount_in swap) (amount_out swap) a b v.
End SwapData.

(** The pydantic model [StakingEventData].  [timestamp] stands for the
    [datetime] of that many milliseconds. *)
Module StakingEventData.
Record t : Type := mk {
  id : string;
  transaction_id : string;
  height : Z;
  timestamp : Z;
  staker_address : string;
  event_type : string;
  amount : Decimal;
  amount_usd : option Decimal
}.

(** [event.amount_usd = a] *)
Definition set_amount_usd (event : t) (a : option Decimal) : t :=
  mk (id event) (transaction_id event) (height event) (timestamp event)
     (staker_address event) (event_type event) (amount event) a.
End StakingEventData.

(** Truthiness of an [Optional[Decimal]]: [None] and zero are falsy. *)
Definition opt_truthy (d : option Decimal) : bool :=
  match d with
  | Some x => Dec.truthy x
  | None => false
  end.

(** [try: ... except Exception: return None] around an optional result. *)
Definition or_none {A} (r : res (option A)) : option A :=
  match r with
  | Ok a => a
  | Raise _ => None
  end.

(* ===================================================================== *)
(** ** transformers/swaps.py *)
(* ===================================================================== *)

Module SwapTransformer.

(** The dictionary returned by [_parse_swap_details]. *)
Record SwapDetails : Type := mkSwapDetails {
  asset_in_id : string;
  asset_out_id : string;
  amount_in : Decimal;
  amount_out : Decimal;
  amount_in_usd : option Decimal;
  amount_out_usd : option Decimal;
  volume_usd : option Decimal
}.

(** [_calculate_usd_value]: no price source yet, always [None]. *)
Definition _calculate_usd_value (asset_id : string) (amount : Decimal) : option Decimal :=
  None.

Definition _is_swap_transaction (transaction : WavesTransaction) : bool :=
  if negb (w_type transaction =? 16) then false
  else if str_in (w_sender transaction) AddressMapping.get_pool_addresses then true
  else
    match raw_data transaction with
    | Some invoke_data =>
        let d_app := dApp invoke_data in
        if str_truthy d_app
           && str_in (get d_app EmptyString) AddressMapping.get_pool_addresses
        then true
        else
          let function_name := FunctionMapping.extract_function_from_invoke invoke_data in
          str_truthy function_name
          && FunctionMapping.is_swap_function (get function_name EmptyString)
    | None => false
    end.

(** [for transfer in transfers: if transfer.get("address") == sender:
    output_transfer = transfer; break] *)
Definition find_output_transfer (transfers : list Transfer) (sender : string)
    : option Transfer :=
  List.find (fun transfer =>
               match t_address transfer with
               | Some a => String.eqb a sender
               | None => false
               end) transfers.

Definition _parse_swap_details (invoke_data : Tx) (transaction : WavesTransaction)
    : option SwapDetails :=
  or_none
    match payment invoke_data with
    | [] => Ok None
    | input_payment :: _ =>
        let asset_in_id := str_or (p_assetId input_payment) AssetMapping.WAVES_ID in
        let amount_in_raw := get (p_amount input_payment) 0 in
        amount_in <- AssetMapping.normalize_amount asset_in_id amount_in_raw ;;
        match find_output_transfer (sc_transfers invoke_data) (w_sender transaction) with
        | None => Ok None
        | Some output_transfer =>
            let asset_out_id := str_or (t_asset output_transfer) AssetMapping.WAVES_ID in
            let amount_out_raw := get (t_amount output_transfer) 0 in
            amount_out <- AssetMapping.normalize_amount asset_out_id amount_out_raw ;;
            let amount_in_usd := _calculate_usd_value asset_in_id amount_in in
            let amount_out_usd := _calculate_usd_value asset_out_id amount_out in
            (* max(amount_in_usd or 0, amount_out_usd or 0) if either is
               truthy: both are None here *)
            let volume_usd : option Decimal := None in
            Ok (Some (mkSwapDetails asset_in_id asset_out_id amount_in amount_out
                        amount_in_usd amount_out_usd volume_usd))
        end
    end.

Definition _extract_swap_data (transaction : WavesTransaction) : option SwapData.t :=
  match raw_data transaction with
  | None => None
  | Some invoke_data =>
      let d_app := dApp invoke_data in
      if negb (str_truthy d_app) then None
      else
        let function_name := FunctionMapping.extract_function_from_invoke invoke_data in
        if negb (str_truthy function_name)
           || negb (FunctionMapping.is_swap_function (get function_name EmptyString))
        then None
        else
          match _parse_swap_details invoke_data transaction with
          | None => None
          | Some swap_details =>
              let swap_id :=
                (w_id transaction ++ "_" ++ asset_in_id swap_details ++ "_"
                 ++ asset_out_id swap_details)%string in
              Some (SwapData.mk swap_id (w_id transaction) (w_height transaction)
                      (w_timestamp transaction) (get d_app EmptyString)
                      (w_sender transaction)
                      (asset_in_id swap_details) (asset_out_id swap_details)
                      (amount_in swap_details) (amount_out swap_details)
                      (amount_in_usd swap_details) (amount_out_usd swap_details)
                      (volume_usd swap_details))
          end
  end.

Fixpoint transform_transactions (transactions : list WavesTransaction)
    : list SwapData.t :=
  match transactions with
  | [] => []
  | transaction :: rest =>
      let swaps :=
        if _is_swap_transaction transaction then
          match _extract_swap_data transaction with
          | Some swap_data => [swap_data]
          | None => []
          end
        else [] in
      swaps ++ transform_transactions rest
  end.

(** The body of the loop of [calculate_usd_values] for one swap. *)
Definition usd_values (price_data : gmap string Decimal)
    (asset_decimals : gmap string Z) (swap : SwapData.t) : res SwapData.t :=
  let in_decimals := get (asset_decimals !! SwapData.asset_in_id swap) 8 in
  let out_decimals := get (asset_decimals !! SwapData.asset_out_id swap) 8 in
  normalized_amount_in <- Dec.div_pow10 (SwapData.amount_in swap) in_decimals ;;
  normalized_amount_out <- Dec.div_pow10 (SwapData.amount_out swap) out_decimals ;;
  let in_price := get (price_data !! SwapData.asset_in_id swap) (Dec.of_int 0) in
  let out_price := get (price_data !! SwapData.asset_out_id swap) (Dec.of_int 0) in
  let amount_in_usd :=
    if Dec.truthy in_price then Some (Dec.mul normalized_amount_in in_price) else None in
  let amount_out_usd :=
    if Dec.truthy out_price then Some (Dec.mul normalized_amount_out out_price) else None in
  volume_usd <-
    (if opt_truthy amount_in_usd && opt_truthy amount_out_usd then
       match amount_in_usd, amount_out_usd with
       | Some a, Some b =>
           v <- Dec.div (Dec.add a b) (Dec.of_int 2) ;; Ok (Some v)
       | _, _ => Ok None
       end
     else if opt_truthy amount_in_usd then Ok amount_in_usd
     else if opt_truthy amount_out_usd then Ok amount_out_usd
     else Ok None) ;;
  Ok (SwapData.set_usd swap amount_in_usd amount_out_usd volume_usd).

(** [calculate_usd_values(swaps, price_data, asset_decimals)]; an
    exception is logged and raised again. *)
Fixpoint calculate_usd_values (swaps : list SwapData.t)
    (price_data : gmap string Decimal) (asset_decimals : gmap string Z)
    : res (list SwapData.t) :=
  match swaps with
  | [] => Ok []
  | swap :: rest =>
      swap' <- usd_values price_data asset_decimals swap ;;
      updated_swaps <- calculate_usd_values rest price_data asset_decimals ;;
      Ok (swap' :: updated_swaps)
  end.

(** [calculate_usd_values] with its effect on the objects of [swaps].  The
    loop assigns the three USD fields to the swap object itself
    ([swap.amount_in_usd = ...]) and only then goes on to the next swap;
    everything that can raise for a swap (the two divisions and the
    average) comes before its assignments.  An exception therefore leaves
    the swaps before the failing one updated and the failing one and the
    later ones as they were.  The pair is the objects of [swaps] after the
    call, and what the call returns or raises. *)
Fixpoint calculate_usd_values_in_place (swaps : list SwapData.t)
    (price_data : gmap string Decimal) (asset_decimals : gmap string Z)
    : list SwapData.t * res (list SwapData.t) :=
  match swaps with
  | [] => ([], Ok [])
  | swap :: rest =>
      match usd_values price_data asset_decimals swap with
      | Raise e => (swap :: rest, Raise e)
      | Ok swap' =>
          let '(rest', result) :=
            calculate_usd_values_in_place rest price_data asset_decimals in
          (swap' :: rest',
           updated_swaps <- result ;; Ok (swap' :: updated_swaps))
      end
  end.

End SwapTransformer.

(* ===================================================================== *)
(** ** transformers/staking.py *)
(* ===================================================================== *)

(** What [sum] returns: the integer 0 on an empty sequence, a [Decimal]
    otherwise. *)
Inductive Number : Type :=
| PyInt (n : Z)
| PyDec (d : Decimal).

Module StakingTransformer.

(** [self.puzzle_decimals] *)
Definition puzzle_decimals : Z := 8.

(** [_calculate_usd_value]: no price source yet, always [None]. *)
Definition _calculate_usd_value (asset_id : string) (amount : Decimal) : option Decimal :=
  None.

(** The dictionary [function_mapping] of [_determine_event_type]. *)
Definition function_mapping : gmap string string :=
  list_to_map [
    ("stake", "stake");
    ("unstake", "unstake");
    ("withdraw", "unstake");
    ("claim", "claim");
    ("claimRewards", "claim");
    ("compound", "compound");
    ("emergencyWithdraw", "emergency_withdraw")
  ]%string.

Definition _determine_event_type (function_name : string) : option string :=
  function_mapping !! function_name.

(** The loop of [_parse_staking_details] over the transfers: the first
    transfer to the sender in the staking token gives the amount. *)
Fixpoint transfer_amount (transfers : list Transfer) (sender : string)
    (amount : Decimal) : res Decimal :=
  match transfers with
  | [] => Ok amount
  | transfer :: rest =>
      let to_sender :=
        match t_address transfer with
        | Some a => String.eqb a sender
        | None => false
        end in
      if to_sender then
        let asset_id := str_or (t_asset transfer) AssetMapping.WAVES_ID in
        if String.eqb asset_id AssetMapping.PUZZLE_TOKEN_ID then
          let amount_raw := get (t_amount transfer) 0 in
          AssetMapping.normalize_amount asset_id amount_raw
        else transfer_amount rest sender amount
      else transfer_amount rest sender amount
  end.

(** [_parse_staking_details]: the pair [(amount, amount_usd)]. *)
Definition _parse_staking_details (invoke_data : Tx) (transaction : WavesTransaction)
    (event_type : string) : option (Decimal * option Decimal) :=
  or_none
    (amount <-
       (let amount := Dec.of_int 0 in
        if str_in event_type ["stake"%string] then
          match payment invoke_data with
          | [] => Ok amount
          | payment :: _ =>
              let asset_id := str_or (p_assetId payment) AssetMapping.WAVES_ID in
              if String.eqb asset_id AssetMapping.PUZZLE_TOKEN_ID then
                let amount_raw := get (p_amount payment) 0 in
                AssetMapping.normalize_amount asset_id amount_raw
              else Ok amount
          end
        else if str_in event_type ["unstake"; "claim"; "compound"]%string then
          transfer_amount (sc_transfers invoke_data) (w_sender transaction) amount
        else Ok amount) ;;
     let amount_usd := _calculate_usd_value AssetMapping.PUZZLE_TOKEN_ID amount in
     Ok (Some (amount, amount_usd))).

Definition _is_staking_transaction (transaction : WavesTransaction) : bool :=
  if negb (w_type transaction =? 16) then false
  else if str_in (w_sender transaction) AddressMapping.get_staking_addresses then true
  else
    match raw_data transaction with
    | Some invoke_data =>
        let d_app := dApp invoke_data in
        if str_truthy d_app
           && str_in (get d_app EmptyString) AddressMapping.get_staking_addresses
        then true
        else
          let function_name := FunctionMapping.extract_function_from_invoke invoke_data in
          str_truthy function_name
          && FunctionMapping.is_staking_function (get function_name EmptyString)
    | None => false
    end.

Definition _extract_staking_data (transaction : WavesTransaction)
    : option StakingEventData.t :=
  match raw_data transaction with
  | None => None
  | Some invoke_data =>
      let d_app := dApp invoke_data in
      if negb (str_truthy d_app) then None
      else
        let function_name := FunctionMapping.extract_function_from_invoke invoke_data in
        if negb (str_truthy function_name)
           || negb (FunctionMapping.is_staking_function (get function_name EmptyString))
        then None
        else
          let event_type := _determine_event_type (get function_name EmptyString) in
          if negb (str_truthy event_type) then None
          else
            let event_type := get event_type EmptyString in
            match _parse_staking_details invoke_data transaction event_type with
            | None => None
            | Some (amount, amount_usd) =>
                let event_id :=
                  (w_id transaction ++ "_" ++ event_type ++ "_"
                   ++ Dec.to_str amount)%string in
                Some (StakingEventData.mk event_id (w_id transaction)
                        (w_height transaction) (w_timestamp transaction)
                        (w_sender transaction) event_type amount amount_usd)
            end
  end.

(** [Decimal(value) / (10**self.puzzle_decimals)]; the divisor is not
    zero, so the division does not raise. *)
Definition snapshot_amount (value : Z) : Decimal :=
  match Dec.div_pow10 (Dec.of_int value) puzzle_decimals with
  | Ok amount => amount
  | Raise _ => Dec.of_int 0
  end.

(** The event built for a data entry whose key contains ["_staked"] and
    whose value is positive; [shown] is the value as the f-string renders
    it. *)
Definition stake_update (tx_id : string) (height timestamp : Z) (key : string)
    (value : Z) (shown : string) : StakingEventData.t :=
  let staker_address := split_first "_" key in
  let amount := snapshot_amount value in
  let event_id :=
    (tx_id ++ "_stake_update_" ++ staker_address ++ "_" ++ shown)%string in
  StakingEventData.mk event_id tx_id height timestamp staker_address
    "stake_update" amount None.

(** The loop of [_extract_staking_from_data_entries] over the data
    entries; an exception ends it and keeps the events found so far.
    [value > 0] raises [TypeError] on a string; [True] counts as 1. *)
Fixpoint data_entry_events (tx_id : string) (height timestamp : Z)
    (data_entries : list DataEntry) : list StakingEventData.t :=
  match data_entries with
  | [] => []
  | entry :: rest =>
      let key := get (e_key entry) EmptyString in
      let value := get (e_value entry) (VInt 0) in
      if contains "_staked" key then
        match value with
        | VStr _ => []
        | VInt value =>
            if 0 <? value then
              stake_update tx_id height timestamp key value (str_int value)
              :: data_entry_events tx_id height timestamp rest
            else data_entry_events tx_id height timestamp rest
        | VBool b =>
            if b then
              stake_update tx_id height timestamp key 1 "True"
              :: data_entry_events tx_id height timestamp rest
            else data_entry_events tx_id height timestamp rest
        end
      else data_entry_events tx_id height timestamp rest
  end.

Definition _extract_staking_from_data_entries (transaction : Tx)
    : list StakingEventData.t :=
  match subscript (tx_id transaction), subscript (height transaction),
        subscript (timestamp transaction) with
  | Ok tx_id, Ok height, Ok timestamp =>
      data_entry_events tx_id height timestamp (sc_data transaction)
  | _, _, _ => []
  end.

Fixpoint transform_transactions (transactions : list WavesTransaction)
    : list StakingEventData.t :=
  match transactions with
  | [] => []
  | transaction :: rest =>
      let event :=
        match _extract_staking_data transaction with
        | Some event => [event]
        | None => []
        end in
      let data_events :=
        match raw_data transaction with
        | Some raw => _extract_staking_from_data_entries raw
        | None => []
        end in
      event ++ data_events ++ transform_transactions rest
  end.

(** [calculate_usd_values(events, puzzle_price)] *)
Definition calculate_usd_values (events : list StakingEventData.t)
    (puzzle_price : Decimal) : list StakingEventData.t :=
  List.map (fun event =>
              if Dec.truthy puzzle_price && Dec.truthy (StakingEventData.amount event)
              then StakingEventData.set_amount_usd event
                     (Some (Dec.mul (StakingEventData.amount event) puzzle_price))
              else event) events.

(** [staker in staker_balances] *)
Definition has_key (staker : string) (staker_balances : list (string * Decimal)) : bool :=
  existsb (fun kv => String.eqb (fst kv) staker) staker_balances.

(** [staker_balances[staker] = f(staker_balances[staker])] for a key that
    is present: the entry keeps its place. *)
Fixpoint update (staker : string) (f : Decimal -> Decimal)
    (staker_balances : list (string * Decimal)) : list (string * Decimal) :=
  match staker_balances with
  | [] => []
  | (k, v) :: rest =>
      if String.eqb k staker then (k, f v) :: rest
      else (k, v) :: update staker f rest
  end.

(** The body of the loop of [aggregate_staking_stats] for one event.  The
    dictionary is kept in insertion order, the order in which Python
    iterates over it. *)
Definition apply_event (staker_balances : list (string * Decimal))
    (event : StakingEventData.t) : list (string * Decimal) :=
  let staker := StakingEventData.staker_address event in
  let staker_balances :=
    if negb (has_key staker staker_balances)
    then staker_balances ++ [(staker, Dec.of_int 0)]
    else staker_balances in
  let event_type := StakingEventData.event_type event in
  if String.eqb event_type "stake" then
    update staker (fun b => Dec.add b (StakingEventData.amount event)) staker_balances
  else if String.eqb event_type "unstake" then
    update staker (fun b => Dec.sub b (StakingEventData.amount event)) staker_balances
  else if String.eqb event_type "stake_update" then
    update staker (fun _ => StakingEventData.amount event) staker_balances
  else staker_balances.

(** [sum(values)]: starts from the integer 0; [0 + v] is [v.__radd__(0)]. *)
Definition sum (values : list Decimal) : Number :=
  fold_left (fun acc v =>
               match acc with
               | PyInt n => PyDec (Dec.add v (Dec.of_int n))
               | PyDec d => PyDec (Dec.add d v)
               end) values (PyInt 0).

(** The dictionary [stats]. *)
Record Stats : Type := mkStats {
  stats_timestamp : Z;
  total_staked : Number;
  unique_stakers : Z;
  staker_balances : list (string * Decimal)
}.

Definition aggregate_staking_stats (events : list StakingEventData.t)
    (timestamp : Z) : Stats :=
  let staker_balances := fold_left apply_event events [] in
  let active_stakers :=
    List.filter (fun kv => Dec.gtb (snd kv) (Dec.of_int 0)) staker_balances in
  let total_staked := sum (List.map snd active_stakers) in
  let unique_stakers := len active_stakers in
  mkStats timestamp total_staked unique_stakers active_stakers.

End StakingTransformer.

(* ===================================================================== *)
(** ** Vocabulary of the specification *)
(* ===================================================================== *)

(** *** The invocation tree *)

(** The nodes of an invocation tree in depth-first pre-order: a node, then
    the listings of its nested invocations from first to last. *)
Fixpoint preorder (t : Tx) : list Tx :=
  t :: flat_map preorder (sc_invokes t).

(** The relevance predicate: [node.dApp == target_address] or
    [node.call.function ∈ vip_functions]. *)
Definition relevant (target_address : string) (vip_functions : list string)
    (node : Tx) : bool :=
  match dApp node with
  | Some d => String.eqb d target_address
  | None => false
  end
  || match FunctionMapping.extract_function_from_invoke node with
     | Some f => str_in f vip_functions
     | None => false
     end.

(** A node is malformed for the relevance test when the test needs a key
    the node lacks: [dApp] always, [call.function] when [dApp] is not the
    target. *)
Definition malformed (target_address : string) (node : Tx) : bool :=
  match dApp node with
  | None => true
  | Some d =>
      negb (String.eqb d target_address)
      && match FunctionMapping.extract_function_from_invoke node with
         | Some _ => false
         | None => true
         end
  end.

(** A tree none of whose nodes is malformed for the relevance test: every
    node carries [dApp], and [call.function] too unless its [dApp] is the
    target. *)
Fixpoint wellformed (target_address : string) (t : Tx) : bool :=
  negb (malformed target_address t)
  && forallb (wellformed target_address) (sc_invokes t).

(** The context a nested node inherits: [sender] from its parent's
    [dApp]; [height], [timestamp] and [id] from the top-level transaction;
    the canonical invocation type 16. *)
Fixpoint inherit (sender : string) (height timestamp : Z) (tx_id : string)
    (node : Tx) : Tx :=
  let node1 := set_context node sender height timestamp tx_id in
  match dApp node with
  | Some d =>
      set_invokes node1
        (List.map (inherit d height timestamp tx_id) (sc_invokes node))
  | None => node1
  end.

(** Pre-order listing that leaves out every malformed node together with
    the invocations nested in it. *)
Fixpoint visit (target_address : string) (t : Tx) : list Tx :=
  if malformed target_address t then []
  else t :: flat_map (visit target_address) (sc_invokes t).

(** A chain of [n] levels of nested invocations below [t]: one nested
    invocation per level. *)
Fixpoint chain (n : nat) (t : Tx) : Prop :=
  match n with
  | O => sc_invokes t = []
  | S k => exists c, sc_invokes t = [c] /\ chain k c
  end.

(** What a node [n] nested in [p] carries after the walk of a transaction
    of height [h], timestamp [ts] and id [i]. *)
Definition in_context (h ts : Z) (i : string) (p n : Tx) : Prop :=
  sender n = dApp p /\ height n = Some h /\ timestamp n = Some ts
  /\ tx_id n = Some i /\ type n = Some (TInt 16).

(** *** Staking events *)

(** The identity [{transaction_id}_{event_type}_{amount}]. *)
Definition event_identity (e : StakingEventData.t) : string :=
  (StakingEventData.transaction_id e ++ "_" ++ StakingEventData.event_type e
   ++ "_" ++ Dec.to_str (StakingEventData.amount e))%string.

(** The identity [{transaction_id}_{event_type}_{staker_address}_{value}],
    [shown] being the rendering of the raw value of the data entry. *)
Definition snapshot_identity (e : StakingEventData.t) (shown : string) : string :=
  (StakingEventData.transaction_id e ++ "_" ++ StakingEventData.event_type e
   ++ "_" ++ StakingEventData.staker_address e ++ "_" ++ shown)%string.

(** The balance recorded for a staker in an insertion-ordered dictionary. *)
Definition lookup_balance (staker : string) (balances : list (string * Decimal))
    : option Decimal :=
  option_map snd (List.find (fun kv => String.eqb (fst kv) staker) balances).

(** The effect of one event on the running balance of its staker: a stake
    adds, an unstake subtracts, a stake_update overwrites. *)
Definition balance_step (balance : Decimal) (e : StakingEventData.t) : Decimal :=
  if String.eqb (StakingEventData.event_type e) "stake"
  then Dec.add balance (StakingEventData.amount e)
  else if String.eqb (StakingEventData.event_type e) "unstake"
  then Dec.sub balance (StakingEventData.amount e)
  else if String.eqb (StakingEventData.event_type e) "stake_update"
  then StakingEventData.amount e
  else balance.

(** The running balance of one staker from a balance [start]: the fold of
    the staker's own events, in list order. *)
Definition running_balance (staker : string) (events : list StakingEventData.t)
    (start : Decimal) : Decimal :=
  fold_left (fun b e =>
               if String.eqb (StakingEventData.staker_address e) staker
               then balance_step b e else b) events start.

(** The balance of one staker: the running balance from 0. *)
Definition staker_balance (staker : string) (events : list StakingEventData.t)
    : Decimal :=
  running_balance staker events (Dec.of_int 0).

(** Whether the staker has any event in the list. *)
Definition has_events (staker : string) (events : list StakingEventData.t) : bool :=
  existsb (fun e => String.eqb (StakingEventData.staker_address e) staker) events.

(** *** Swaps *)

(** The three USD fields of every swap of a result of the USD pass:
    [(amount_in_usd, amount_out_usd, volume_usd)]. *)
Definition usd_fields (r : res (list SwapData.t))
    : res (list (option Decimal * option Decimal * option Decimal)) :=
  bind r (fun swaps =>
    Ok (List.map (fun s => (SwapData.amount_in_usd s, SwapData.amount_out_usd s,
                            SwapData.volume_usd s)) swaps)).

(** *** Amounts *)

(** [amount >= 0]. *)
Definition non_negative (amount : Decimal) : Prop :=
  Dec.cmp amount (Dec.of_int 0) <> Lt.

(** [amount] is the normalization of the raw integer [raw] for the asset:
    it is what [normalize_amount] returns; it is not negative when [raw]
    is not; and it is exactly [raw / 10^d], with [d] the asset's decimals
    in the registry (8 when the asset is not in it), when [raw] has at
    most 28 digits. *)
Definition amount_normalized (asset_id : string) (raw : Z) (amount : Decimal) : Prop :=
  AssetMapping.normalize_amount asset_id raw = Ok amount
  /\ (0 <= raw -> non_negative amount)
  /\ (Z.abs raw < 10 ^ 28 ->
      Dec.eqb amount (Dec.scaled raw (- AssetMapping.get_asset_decimals asset_id)) = true).

(** *** Runs of the paging loop *)

(** The relevant transactions a run finds, page after page in fetch
    order, when nothing is ever spilled: the paging loop with its buffer
    only.  [after] is the cursor of the next page. *)
Fixpoint gather (get_waves_transactions : string -> Z -> string -> res (list Tx))
    (fuel : nat) (address last_processed_id : string)
    (vip_functions : list string) (after : string) : option (res (list Tx)) :=
  match fuel with
  | O => None
  | S fuel =>
      match BlockchainExtractor.fetch_transactions_batch get_waves_transactions
              address 1000 after last_processed_id with
      | Raise e => Some (Raise e)
      | Ok ([], _) => Some (Ok [])
      | Ok (batch, has_more) =>
          match BlockchainExtractor.find_in_batch address vip_functions batch,
                BlockchainExtractor.last_id batch with
          | Raise e, _ => Some (Raise e)
          | Ok _, Raise e => Some (Raise e)
          | Ok relevant_txs, Ok last_tx_id =>
              if has_more then
                match gather get_waves_transactions fuel address
                        last_processed_id vip_functions last_tx_id with
                | Some (Ok rest) => Some (Ok (relevant_txs ++ rest))
                | other => other
                end
              else Some (Ok relevant_txs)
          end
      end
  end.

(** The contents of the spill files [n - 1], ..., [0] of an address, each
    reversed, a missing file counting for nothing. *)
Fixpoint reversed_files (address : string) (n : nat)
    (fs : BlockchainExtractor.Files) : list Tx :=
  match n with
  | O => []
  | S i =>
      match fs !! BlockchainExtractor.filename address (Z.of_nat i) with
      | Some transactions => rev transactions
      | None => []
      end ++ reversed_files address i fs
  end.

(** The names of the spill files [0], ..., [n - 1] of an address. *)
Definition spill_names (address : string) (n : nat) : list string :=
  List.map (fun i => BlockchainExtractor.filename address (Z.of_nat i)) (seq 0 n).

(* ===================================================================== *)
(** ** Sample data *)
(* ===================================================================== *)

(** An invocation node with nothing but [dApp], [call] and nested
    invocations. *)
Definition invoke_node (d : option string) (c : option Call) (nested : list Tx) : Tx :=
  mkTx None None None None None None d c [] [] [] nested None.

(** A top-level transaction of type 16. *)
Definition invoke_tx (i : string) (h ts : Z) (s : string) (status : option string)
    (d : string) (f : string) (nested : list Tx) : Tx :=
  mkTx (Some i) (Some h) (Some ts) (Some s) (Some (TInt 16)) status
       (Some d) (Some (mkCall (Some f))) [] [] [] nested None.

(** A pool swap called by a router: two nodes, both relevant for the pool
    address with ["swap"] among the VIP functions. *)
Definition routed_swap : Tx :=
  invoke_tx "tx1" 100 1700000000000 "3PTrader" (Some "succeeded"%string)
    "3PRouter" "swap"
    [invoke_node (Some "3PPool"%string) (Some (mkCall (Some "swap"%string))) []].

(** The same transaction, failed. *)
Definition failed_swap : Tx :=
  invoke_tx "tx1" 100 1700000000000 "3PTrader" (Some "script_execution_failed"%string)
    "3PRouter" "swap"
    [invoke_node (Some "3PPool"%string) (Some (mkCall (Some "swap"%string))) []].

(** A node of the target contract nested in a node that has no [call]. *)
Definition hidden_child : Tx :=
  invoke_node (Some "3PPool"%string) (Some (mkCall (Some "swap"%string))) [].

Definition malformed_parent : Tx :=
  invoke_node (Some "3POther"%string) None [hidden_child].

Definition hiding_tx : Tx :=
  invoke_tx "tx2" 101 1700000000001 "3PTrader" (Some "succeeded"%string)
    "3PRouter" "route" [malformed_parent].

(** A call of the pool that goes on through a contract whose node has no
    [call] to a second call of the pool: a chain of two nested levels. *)
Definition pool_leaf : Tx :=
  invoke_node (Some "3PPool"%string) (Some (mkCall (Some "swap"%string))) [].

Definition unreadable_hop : Tx :=
  invoke_node (Some "3PHop"%string) None [pool_leaf].

Definition swap_through_hop : Tx :=
  invoke_tx "tx9" 108 1700000000008 "3PTrader" (Some "succeeded"%string)
    "3PPool" "swap" [unreadable_hop].

(** A page of [n] direct calls of the pool, all with id [i]. *)
Definition page (i : string) (n : nat) : list Tx :=
  repeat (invoke_tx i 100 1700000000000 "3PTrader" (Some "succeeded"%string)
            "3PPool" "swap" []) n.

(** A source with three pages, of 1000, 1000 and 400 transactions. *)
Definition three_pages (address : string) (limit : Z) (after : string)
    : res (list Tx) :=
  if String.eqb after EmptyString then Ok (page "a" 1000)
  else if String.eqb after "a" then Ok (page "b" 1000)
  else if String.eqb after "b" then Ok (page "c" 400)
  else Ok [].

(** A call of [f] on the staking contract by [3PStaker], as the pipeline
    hands it to the transformers. *)
Definition staking_call (f : string) (transfers : list Transfer)
    (entries : list DataEntry) : WavesTransaction :=
  mkWavesTransaction "tx4" 102 1700000000002 "3PStaker" 16
    (Some (mkTx (Some "tx4"%string) (Some 102) (Some 1700000000002)
             (Some "3PStaker"%string) (Some (TInt 16)) (Some "succeeded"%string)
             (Some AddressMapping.PUZZLE_STAKING_ADDRESS)
             (Some (mkCall (Some f))) [] transfers entries [] None)).

(** A claim of rewards paying 5 PUZZLE to the staker. *)
Definition claim_rewards : WavesTransaction :=
  staking_call "claimRewards"
    [mkTransfer (Some "3PStaker"%string) (Some AssetMapping.PUZZLE_TOKEN_ID)
       (Some 500000000)] [].

(** A call that writes the staker's balance, 5 PUZZLE, to the contract
    state. *)
Definition balance_snapshot : WavesTransaction :=
  staking_call "updateBalance" []
    [mkDataEntry (Some "3PStaker_staked"%string) (Some (VInt 500000000))].

(** A staking event with nothing but a staker, a type and an amount. *)
Definition staking_event (staker event_type : string) (amount : Z)
    : StakingEventData.t :=
  StakingEventData.mk EmptyString EmptyString 0 0 staker event_type (Dec.of_int amount) None.

(** A swap of [raw_in] wavelets for 2 USDN on a pool, by [3PTrader]. *)
Definition waves_for_usdn (raw_in : Z) : WavesTransaction :=
  mkWavesTransaction "tx3" 103 1700000000003 "3PTrader" 16
    (Some (mkTx (Some "tx3"%string) (Some 103) (Some 1700000000003)
             (Some "3PTrader"%string) (Some (TInt 16)) (Some "succeeded"%string)
             (Some "3PPool"%string) (Some (mkCall (Some "swap"%string)))
             [mkPayment None (Some raw_in)]
             [mkTransfer (Some "3PTrader"%string) (Some AssetMapping.USDN_ID)
                (Some 2000000)]
             [] [] None)).

(** WAVES at 2 USD, USDN at 1 USD. *)
Definition sample_prices : gmap string Decimal :=
  <[AssetMapping.WAVES_ID := Dec.of_int 2]>
    (<[AssetMapping.USDN_ID := Dec.of_int 1]> ∅).

(** The decimals of WAVES and USDN as the node reports them. *)
Definition sample_decimals : gmap string Z :=
  <[AssetMapping.WAVES_ID := 8]> (<[AssetMapping.USDN_ID := 6]> ∅).

(** 1234567890123456789012.12345678: eight decimal places, thirty
    significant digits. *)
Definition thirty_digits : Decimal :=
  Dec.mkDecimal false 123456789012345678901212345678 (-8).

(** The swap event of [waves_for_usdn 100000000]: 1 WAVES for 2 USDN. *)
Definition one_waves_swap : SwapData.t :=
  SwapData.mk "tx3_WAVES_DG2xFkPdDwKUoBkzGAhQtLpSGzfXLiCYPEzeKH2Ad24p" "tx3"
    103 1700000000003 "3PPool" "3PTrader" "WAVES" AssetMapping.USDN_ID
    (Dec.of_int 1) (Dec.of_int 2) None None None.

(** A succeeded top-level invocation that lacks [dApp]. *)
Definition malformed_root : Tx :=
  mkTx (Some "tx3"%string) (Some 103) (Some 1700000000003) (Some "3PTrader"%string)
       (Some (TInt 16)) (Some "succeeded"%string)
       None (Some (mkCall (Some "swap"%string))) [] [] [] [] None.

(** A source with a single page. *)
Definition one_page (transactions : list Tx) (address : string) (limit : Z)
    (after : string) : res (list Tx) :=
  if String.eqb after EmptyString then Ok transactions else Ok [].


(** A direct call of the pool with id [i]. *)
Definition pool_call (i : string) : Tx :=
  invoke_tx i 100 1700000000000 "3PTrader" (Some "succeeded"%string)
    "3PPool" "swap" [].

(** A succeeded transfer (type 4). *)
Definition plain_transfer : Tx :=
  mkTx (Some "tx6"%string) (Some 105) (Some 1700000000005)
       (Some "3PTrader"%string) (Some (TInt 4)) (Some "succeeded"%string)
       None None [] [] [] [] None.

(** [one_waves_swap] after the USD pass at [sample_prices] and
    [sample_decimals]. *)
Definition one_waves_swap_usd : SwapData.t :=
  SwapData.set_usd one_waves_swap (Some (Dec.scaled 2 (-8)))
    (Some (Dec.scaled 2 (-6))) (Some (Dec.scaled 101 (-8))).

(** A swap of an asset that [negative_decimals] reports with -2
    decimals. *)
Definition odd_asset_swap : SwapData.t :=
  SwapData.mk "tx10_ODD_WAVES" "tx10" 109 1700000000009 "3PPool" "3PTrader"
    "ODD" "WAVES" (Dec.of_int 1) (Dec.of_int 1) None None None.

(** Decimals as a faulty source might report them. *)
Definition negative_decimals : gmap string Z :=
  <["ODD"%string := -2]> sample_decimals.

(** A call of [stake] on the staking contract paying 5 WAVES instead of
    PUZZLE. *)
Definition stake_in_waves : WavesTransaction :=
  mkWavesTransaction "tx7" 106 1700000000006 "3PStaker" 16
    (Some (mkTx (Some "tx7"%string) (Some 106) (Some 1700000000006)
             (Some "3PStaker"%string) (Some (TInt 16)) (Some "succeeded"%string)
             (Some AddressMapping.PUZZLE_STAKING_ADDRESS)
             (Some (mkCall (Some "stake"%string)))
             [mkPayment None (Some 500000000)] [] [] [] None)).

(** Data entries of which the second has a string under a staking key. *)
Definition entries_with_string : Tx :=
  mkTx (Some "tx8"%string) (Some 107) (Some 1700000000007)
       (Some "3PStaker"%string) (Some (TInt 16)) (Some "succeeded"%string)
       (Some AddressMapping.PUZZLE_STAKING_ADDRESS)
       (Some (mkCall (Some "stake"%string))) [] []
       [mkDataEntry (Some "3PAlice_staked"%string) (Some (VInt 100000000));
        mkDataEntry (Some "3PBob_staked"%string) (Some (VStr "12"));
        mkDataEntry (Some "3PCarol_staked"%string) (Some (VInt 300000000))]
       [] None.

(** An unstake that first pays out 1 WAVES, then 5 PUZZLE, then 7
    PUZZLE to the staker. *)
Definition unstake_three_transfers : WavesTransaction :=
  staking_call "unstake"
    [mkTransfer (Some "3PStaker"%string) None (Some 100000000);
     mkTransfer (Some "3PStaker"%string) (Some AssetMapping.PUZZLE_TOKEN_ID)
       (Some 500000000);
     mkTransfer (Some "3PStaker"%string) (Some AssetMapping.PUZZLE_TOKEN_ID)
       (Some 700000000)] [].

(* ===================================================================== *)
(** ** The invocation-tree walk *)
(* ===================================================================== *)

(** Induction over the nesting of invocations. *)
Lemma Tx_ind (P : Tx -> Prop) :
  (forall t, Forall P (sc_invokes t) -> P t) -> forall t, P t.
Proof.
  intros H. fix IH 1. intros t. apply H.
  destruct t as [i h ts s ty st d c pay tr da inv pl]. simpl.
  induction inv as [|x inv IHinv]; constructor; [apply IH | exact IHinv].
Qed.

Section Walk.
Import BlockchainExtractor.
Variables (target_address : string) (vip_functions : list string).
Variables (h ts : Z) (i : string).

Local Abbreviation walk1 := (extract_invoke target_address vip_functions).
Local Abbreviation walk := (for_each_invoke target_address vip_functions).

Lemma extract_invoke_eq sender invoke :
  extract_invoke target_address vip_functions sender h ts i invoke =
  let invoke1 := set_context invoke sender h ts i in
  match is_relevant invoke1 target_address vip_functions, dApp invoke1 with
  | Ok relevant, Some d =>
      let '(nested, found) :=
        for_each_invoke target_address vip_functions d h ts i
          (sc_invokes invoke) in
      let invoke2 := set_invokes invoke1 nested in
      (invoke2, (if relevant then [invoke2] else []) ++ found)
  | _, _ => (invoke1, [])
  end.
Proof.
  destruct invoke as [i0 h0 ts0 s0 ty st d c pay tr da inv pl]. simpl.
  destruct (is_relevant _ _ _) as [rel|e]; [|reflexivity].
  destruct d as [d|]; [|reflexivity].
  match goal with
  | |- (let '(_, _) := ?f inv in _) = (let '(_, _) := ?g inv in _) =>
      assert (E : forall l, f l = g l)
  end.
  { induction l as [|x l IHl]; simpl; [reflexivity|]. rewrite IHl. reflexivity. }
  rewrite E. reflexivity.
Qed.

Lemma is_relevant_set_context node s :
  is_relevant (set_context node s h ts i) target_address vip_functions =
  is_relevant node target_address vip_functions.
Proof. reflexivity. Qed.

Lemma is_relevant_spec node :
  is_relevant node target_address vip_functions =
  if malformed target_address node then Raise KeyError
  else Ok (relevant target_address vip_functions node).
Proof.
  unfold is_relevant, malformed, relevant, call_function,
    FunctionMapping.extract_function_from_invoke.
  destruct (dApp node) as [d|]; simpl; [|reflexivity].
  destruct (String.eqb d target_address); simpl; [reflexivity|].
  destruct (call node) as [[[f|]]|]; reflexivity.
Qed.


Lemma visit_eq t :
  visit target_address t =
  if malformed target_address t then []
  else t :: flat_map (visit target_address) (sc_invokes t).
Proof. destruct t; reflexivity. Qed.

Lemma preorder_eq t : preorder t = t :: flat_map preorder (sc_invokes t).
Proof. destruct t; reflexivity. Qed.

Lemma for_each_invoke_cons sender x l :
  for_each_invoke target_address vip_functions sender h ts i (x :: l) =
  (fst (walk1 sender h ts i x)
     :: fst (walk sender h ts i l),
   snd (walk1 sender h ts i x)
     ++ snd (walk sender h ts i l)).
Proof.
  simpl. destruct (walk1 _ _ _ _ x), (walk _ _ _ _ l). reflexivity.
Qed.

Lemma for_each_invoke_app sender l1 l2 :
  for_each_invoke target_address vip_functions sender h ts i (l1 ++ l2) =
  (fst (walk sender h ts i l1)
     ++ fst (walk sender h ts i l2),
   snd (walk sender h ts i l1)
     ++ snd (walk sender h ts i l2)).
Proof.
  induction l1 as [|x l1 IH].
  - simpl. destruct (walk _ _ _ _ l2). reflexivity.
  - rewrite <- app_comm_cons, !for_each_invoke_cons, IH. simpl.
    rewrite app_assoc. reflexivity.
Qed.

(** A malformed node: its five keys are set, nothing is collected, its
    nested invocations are left alone. *)
Lemma extract_invoke_malformed sender node :
  malformed target_address node = true ->
  extract_invoke target_address vip_functions sender h ts i node =
  (set_context node sender h ts i, []).
Proof.
  intros M. rewrite extract_invoke_eq. cbv zeta.
  rewrite is_relevant_set_context, is_relevant_spec, M. reflexivity.
Qed.

Lemma extract_invoke_sound sender node d :
  malformed target_address node = false ->
  dApp node = Some d ->
  extract_invoke target_address vip_functions sender h ts i node =
  let nested := fst (walk d h ts i (sc_invokes node)) in
  let found := snd (walk d h ts i (sc_invokes node)) in
  let node2 := set_invokes (set_context node sender h ts i) nested in
  (node2, (if relevant target_address vip_functions node then [node2] else []) ++ found).
Proof.
  intros M D. rewrite extract_invoke_eq. cbv zeta.
  rewrite is_relevant_set_context, is_relevant_spec, M.
  replace (dApp (set_context node sender h ts i)) with (Some d)
    by (rewrite <- D; reflexivity).
  destruct (walk _ _ _ _ (sc_invokes node)). reflexivity.
Qed.

Lemma malformed_dApp node :
  malformed target_address node = false -> exists d, dApp node = Some d.
Proof. unfold malformed. destruct (dApp node); [eauto|discriminate]. Qed.

Lemma walk_collects_list sender l :
  Forall (fun n => forall s,
            snd (walk1 s h ts i n) =
            List.filter (relevant target_address vip_functions)
              (visit target_address (fst (walk1 s h ts i n)))) l ->
  snd (walk sender h ts i l) =
  List.filter (relevant target_address vip_functions)
    (flat_map (visit target_address) (fst (walk sender h ts i l))).
Proof.
  induction 1 as [|x l Hx _ IH]; [reflexivity|].
  rewrite for_each_invoke_cons. simpl.
  rewrite List.filter_app, <- Hx, <- IH. reflexivity.
Qed.

Lemma walk_collects_node node : forall sender,
  snd (walk1 sender h ts i node) =
  List.filter (relevant target_address vip_functions)
    (visit target_address (fst (walk1 sender h ts i node))).
Proof.
  induction node as [node IH] using Tx_ind. intros sender.
  destruct (malformed target_address node) eqn:M.
  - rewrite extract_invoke_malformed by assumption. cbn [fst snd].
    rewrite visit_eq.
    replace (malformed target_address (set_context node sender h ts i))
      with true by (rewrite <- M; reflexivity).
    reflexivity.
  - destruct (malformed_dApp node M) as [d D].
    rewrite (extract_invoke_sound sender node d M D). cbv zeta. cbn [fst snd].
    rewrite visit_eq.
    match goal with |- context [malformed _ ?n] =>
      replace (malformed target_address n) with false by (rewrite <- M; reflexivity)
    end.
    cbn [List.filter].
    match goal with |- context [relevant _ _ (set_invokes ?a ?b)] =>
      change (relevant target_address vip_functions (set_invokes a b))
        with (relevant target_address vip_functions node)
    end.
    rewrite (walk_collects_list d (sc_invokes node) IH).
    destruct (relevant target_address vip_functions node); reflexivity.
Qed.


Lemma wellformed_eq t :
  wellformed target_address t =
  negb (malformed target_address t)
  && forallb (wellformed target_address) (sc_invokes t).
Proof. destruct t; reflexivity. Qed.

Lemma wellformed_not_malformed t :
  wellformed target_address t = true -> malformed target_address t = false.
Proof.
  rewrite wellformed_eq. intros H. apply andb_prop in H as [H _].
  apply negb_true_iff, H.
Qed.

Lemma wellformed_nested t :
  wellformed target_address t = true ->
  Forall (fun n => wellformed target_address n = true) (sc_invokes t).
Proof.
  rewrite wellformed_eq. intros H. apply andb_prop in H as [_ H].
  apply List.Forall_forall. intros n Hn.
  rewrite List.forallb_forall in H. apply H, Hn.
Qed.

Lemma inherit_eq sender node :
  inherit sender h ts i node =
  let node1 := set_context node sender h ts i in
  match dApp node with
  | Some d =>
      set_invokes node1
        (List.map (inherit d h ts i) (sc_invokes node))
  | None => node1
  end.
Proof. destruct node; reflexivity. Qed.

(** On a tree without malformed nodes the walk leaves every node with
    its inherited context, and skips nothing. *)
Lemma walk_wellformed_node node : forall sender,
  wellformed target_address node = true ->
  fst (walk1 sender h ts i node) =
    inherit sender h ts i node
  /\ visit target_address (inherit sender h ts i node) =
     preorder (inherit sender h ts i node).
Proof.
  induction node as [node IH] using Tx_ind. intros sender C.
  pose proof (wellformed_not_malformed node C) as M.
  destruct (malformed_dApp node M) as [d D].
  pose proof (wellformed_nested node C) as CN.
  assert (L : fst (walk d h ts i (sc_invokes node)) =
              List.map (inherit d h ts i) (sc_invokes node)
              /\ flat_map (visit target_address)
                   (List.map (inherit d h ts i) (sc_invokes node)) =
                 flat_map preorder
                   (List.map (inherit d h ts i) (sc_invokes node))).
  { induction (sc_invokes node) as [|x l IHl]; [split; reflexivity|].
    inversion IH as [|? ? Hx Hl]; subst. inversion CN as [|? ? Cx Cl]; subst.
    destruct (Hx d Cx) as [E1 E2]. destruct (IHl Hl Cl) as [E3 E4].
    rewrite for_each_invoke_cons. cbn [fst List.map flat_map].
    rewrite E1, E2, E3, E4. split; reflexivity. }
  destruct L as [L1 L2].
  rewrite (extract_invoke_sound sender node d M D). cbv zeta. cbn [fst].
  rewrite inherit_eq, D. cbv zeta. rewrite L1. split; [reflexivity|].
  rewrite visit_eq, preorder_eq.
  match goal with |- context [malformed _ ?n] =>
    replace (malformed target_address n) with false by (rewrite <- M; reflexivity)
  end.
  cbn [sc_invokes set_invokes]. rewrite L2. reflexivity.
Qed.

Lemma walk_wellformed sender l :
  Forall (fun n => wellformed target_address n = true) l ->
  for_each_invoke target_address vip_functions sender h ts i l =
  (List.map (inherit sender h ts i) l,
   List.filter (relevant target_address vip_functions)
     (flat_map preorder (List.map (inherit sender h ts i) l))).
Proof.
  induction 1 as [|x l Cx _ IH]; [reflexivity|].
  rewrite for_each_invoke_cons, IH. cbn [fst snd List.map flat_map].
  destruct (walk_wellformed_node x sender Cx) as [E1 E2].
  rewrite walk_collects_node, E1, E2, List.filter_app. reflexivity.
Qed.

(** A node with its inherited context. *)
Lemma inherit_context s node :
  let n := inherit s h ts i node in
  sender n = Some s /\ height n = Some h /\ timestamp n = Some ts
  /\ tx_id n = Some i /\ type n = Some (TInt 16) /\ dApp n = dApp node.
Proof.
  cbv zeta. rewrite inherit_eq. cbv zeta.
  destruct node as [i0 h0 ts0 s0 ty st [d|] c pay tr da inv pl];
    repeat split; reflexivity.
Qed.

End Walk.

Section Inherited.
Variables (target_address : string) (vip_functions : list string).
Variables (h ts : Z) (i : string).

Lemma set_invokes_same t : set_invokes t (sc_invokes t) = t.
Proof. destruct t; reflexivity. Qed.

Lemma inherited_nested (d : string) (l : list Tx) (p n : Tx) :
  Forall (fun k => forall s p n,
            In p (preorder (inherit s h ts i k)) -> In n (sc_invokes p) ->
            in_context h ts i p n) l ->
  In p (flat_map preorder (List.map (inherit d h ts i) l)) ->
  In n (sc_invokes p) -> in_context h ts i p n.
Proof.
  intros IH Hp Hn. apply in_flat_map in Hp as [x [Hx Hp]].
  apply in_map_iff in Hx as [k [<- Hk]].
  rewrite List.Forall_forall in IH. exact (IH k Hk d p n Hp Hn).
Qed.

Lemma inherited_children (d : string) (l : list Tx) (p n : Tx) :
  dApp p = Some d ->
  In n (List.map (inherit d h ts i) l) -> in_context h ts i p n.
Proof.
  intros D Hn. apply in_map_iff in Hn as [k [<- _]].
  destruct (inherit_context h ts i d k) as (E1 & E2 & E3 & E4 & E5 & _).
  unfold in_context. rewrite D. auto.
Qed.

(** In an inherited tree without malformed nodes every nested node
    carries the context of its position. *)
Lemma inherit_in_context node : forall s p n,
  wellformed target_address node = true ->
  In p (preorder (inherit s h ts i node)) -> In n (sc_invokes p) ->
  in_context h ts i p n.
Proof.
  induction node as [node IH] using Tx_ind. intros s p n C.
  pose proof (wellformed_not_malformed target_address node C) as M.
  destruct (malformed_dApp target_address node M) as [d D].
  pose proof (wellformed_nested target_address node C) as CN.
  rewrite inherit_eq, D. cbv zeta. rewrite preorder_eq.
  cbn [sc_invokes set_invokes]. intros [<- | Hp] Hn.
  - cbn [sc_invokes set_invokes] in Hn.
    apply (inherited_children d (sc_invokes node)); [|exact Hn].
    destruct node; exact D.
  - apply (inherited_nested d (sc_invokes node)); [|exact Hp|exact Hn].
    rewrite List.Forall_forall in IH, CN. apply List.Forall_forall.
    intros k Hk s' p' n'. apply IH; auto.
Qed.

(** A node of a pre-order listing is the root or nested in a listed node. *)
Lemma preorder_parent t : forall n,
  In n (preorder t) ->
  n = t \/ exists p, In p (preorder t) /\ In n (sc_invokes p).
Proof.
  induction t as [t IH] using Tx_ind. intros n.
  rewrite preorder_eq. intros [<- | Hn]; [left; reflexivity|right].
  apply in_flat_map in Hn as [k [Hk Hn]].
  rewrite List.Forall_forall in IH.
  destruct (IH k Hk n Hn) as [-> | [p [Hp Hnp]]].
  - exists t. split; [left; reflexivity|exact Hk].
  - exists p. split; [|exact Hnp]. right. apply in_flat_map. eauto.
Qed.

Lemma relevant_inherit s node :
  relevant target_address vip_functions (inherit s h ts i node) =
  relevant target_address vip_functions node.
Proof.
  rewrite inherit_eq. cbv zeta.
  destruct node as [i0 h0 ts0 s0 ty st [d|] c pay tr da inv pl]; reflexivity.
Qed.

(** Inheriting the context changes neither the shape of the listing nor
    the relevance of its nodes. *)
Lemma relevant_preorder_inherit node : forall s,
  wellformed target_address node = true ->
  List.map (relevant target_address vip_functions) (preorder (inherit s h ts i node)) =
  List.map (relevant target_address vip_functions) (preorder node).
Proof.
  induction node as [node IH] using Tx_ind. intros s C.
  pose proof (wellformed_not_malformed target_address node C) as M.
  destruct (malformed_dApp target_address node M) as [d D].
  pose proof (wellformed_nested target_address node C) as CN.
  rewrite (preorder_eq node), (preorder_eq (inherit _ _ _ _ _)).
  cbn [List.map]. rewrite relevant_inherit. f_equal.
  rewrite inherit_eq, D. cbv zeta. cbn [sc_invokes set_invokes].
  induction (sc_invokes node) as [|x l IHl]; [reflexivity|].
  inversion IH as [|? ? Hx Hl]; subst. inversion CN as [|? ? Cx Cl]; subst.
  cbn [List.map flat_map]. rewrite !List.map_app, (Hx d Cx), (IHl Hl Cl).
  reflexivity.
Qed.

Lemma relevant_preorder_nested d l :
  Forall (fun n => wellformed target_address n = true) l ->
  List.map (relevant target_address vip_functions)
    (flat_map preorder (List.map (inherit d h ts i) l)) =
  List.map (relevant target_address vip_functions) (flat_map preorder l).
Proof.
  induction 1 as [|x l Cx _ IH]; [reflexivity|].
  cbn [List.map flat_map].
  rewrite !List.map_app, (relevant_preorder_inherit x d Cx), IH. reflexivity.
Qed.

Lemma filter_all {A} (f : A -> bool) (g : A -> bool) (l l' : list A) :
  List.map f l = List.map g l' -> forallb g l' = true ->
  length (List.filter f l) = length l'.
Proof.
  revert l'. induction l as [|x l IH]; intros [|y l'] E H; try discriminate.
  - reflexivity.
  - cbn in E, H. injection E as E1 E2. apply andb_prop in H as [H1 H2].
    cbn. rewrite E1, H1. cbn. f_equal. apply IH; assumption.
Qed.

Lemma chain_length n : forall t, chain n t -> length (preorder t) = S n.
Proof.
  induction n as [|n IH]; intros t; rewrite preorder_eq; cbn [chain].
  - intros ->. reflexivity.
  - intros [c [-> Hc]]. cbn. rewrite app_nil_r. f_equal. apply IH, Hc.
Qed.

End Inherited.

Section FindRelevant.
Import BlockchainExtractor.

(** C6. A transaction whose [applicationStatus] is not ["succeeded"], or
    is absent, yields the empty list, whatever its type, its contents and
    its nesting. *)
Theorem find_relevant_not_succeeded (transaction : Tx) (target_address : string)
    (vip_functions : list string) :
  applicationStatus transaction <> Some "succeeded"%string ->
  _find_relevant_transactions transaction target_address vip_functions = Ok [].
Proof.
  intros H. unfold _find_relevant_transactions, is_succeeded.
  destruct (applicationStatus transaction) as [s|]; [|reflexivity].
  destruct (String.eqb s "succeeded") eqn:E; [|reflexivity].
  apply String.eqb_eq in E. subst s. contradiction.
Qed.

(** C6, at a failed transaction. *)
Lemma find_relevant_not_succeeded_witness :
  _find_relevant_transactions failed_swap "3PPool" ["swap"%string] = Ok [].
Proof.
  apply (find_relevant_not_succeeded failed_swap "3PPool" ["swap"%string]).
  vm_compute. discriminate.
Defined.

(** C1 as stated fails: [swap_through_hop] is a succeeded transaction of
    type 16 whose tree has two relevant nodes, the root and [pool_leaf];
    the result holds the root alone, because the node between them is
    malformed and the walk does not enter it. *)
Lemma relevant_leaf_below_hop_not_returned :
  applicationStatus swap_through_hop = Some "succeeded"%string
  /\ type swap_through_hop = Some (TInt 16)
  /\ chain 2 swap_through_hop
  /\ List.filter (relevant "3PPool" []) (preorder swap_through_hop)
     = [swap_through_hop; pool_leaf]
  /\ _find_relevant_transactions swap_through_hop "3PPool" []
     = Ok [set_invokes swap_through_hop
             [set_context unreadable_hop "3PPool" 108 1700000000008 "tx9"]]
  /\ wellformed "3PPool" swap_through_hop = false.
Proof.
  split; [reflexivity|]. split; [reflexivity|]. split.
  - exists unreadable_hop. split; [reflexivity|].
    exists pool_leaf. split; reflexivity.
  - split; [reflexivity|]. split; reflexivity.
Qed.

(** C1, amended.  For a succeeded transaction of type 16 that carries
    [id], [height] and [timestamp] and none of whose nodes is malformed
    for the relevance test (every node carries [dApp], and
    [call.function] too unless its [dApp] is the target): the result is
    the pre-order listing of the tree (root first, each node before the
    invocations nested in it, siblings in list order) filtered by
    relevance; every node nested in a listed node carries that node's
    [dApp] as [sender], the height, timestamp and id of the top-level
    transaction and type 16; every element of the result is the root or
    such a nested node; and on a chain of [N] nested levels, all
    relevant, the result has [N + 1] elements. *)
Theorem find_relevant_transactions_preorder (transaction : Tx)
    (target_address : string) (vip_functions : list string)
    (d : string) (h ts : Z) (i : string) :
  applicationStatus transaction = Some "succeeded"%string ->
  type transaction = Some (TInt 16) ->
  wellformed target_address transaction = true ->
  dApp transaction = Some d ->
  height transaction = Some h ->
  timestamp transaction = Some ts ->
  tx_id transaction = Some i ->
  let root :=
    set_invokes transaction
      (List.map (inherit d h ts i) (sc_invokes transaction)) in
  let result :=
    List.filter (relevant target_address vip_functions) (preorder root) in
  _find_relevant_transactions transaction target_address vip_functions = Ok result
  /\ (forall p n, In p (preorder root) -> In n (sc_invokes p) ->
      in_context h ts i p n)
  /\ (forall n, In n result ->
      n = root \/ exists p, In p (preorder root) /\ In n (sc_invokes p))
  /\ (forall N, chain N transaction ->
      forallb (relevant target_address vip_functions) (preorder transaction) = true ->
      length result = S N).
Proof.
  intros Hs Hty C D Hh Hts Hi root result.
  pose proof (wellformed_not_malformed target_address transaction C) as M.
  pose proof (wellformed_nested target_address transaction C) as CN.
  assert (Hroot : preorder root =
                  root :: flat_map preorder
                            (List.map (inherit d h ts i) (sc_invokes transaction))).
  { unfold root. rewrite preorder_eq. reflexivity. }
  assert (R0 : sc_invokes transaction = [] -> root = transaction).
  { intros E0. unfold root. rewrite E0. cbn [List.map]. rewrite <- E0.
    apply set_invokes_same. }
  split; [|split; [|split]].
  - unfold _find_relevant_transactions, unwrap.
    rewrite Hs, Hty. cbn [is_succeeded String.eqb negb subscript bind is_type].
    change (String.eqb "succeeded" "succeeded") with true. cbn [negb].
    change (16 =? 18) with false. cbv iota. cbn [bind].
    rewrite Hty. cbn [subscript bind]. change (is_type (TInt 16) 16) with true.
    cbv iota.
    rewrite (is_relevant_spec target_address vip_functions transaction), M.
    cbn [bind].
    destruct (sc_invokes transaction) as [|x l] eqn:E.
    + unfold result. rewrite Hroot. cbn [List.map flat_map List.filter].
      rewrite (R0 eq_refl). reflexivity.
    + rewrite D, Hh, Hts, Hi. cbn [subscript bind]. unfold _extract_invokes.
      rewrite (walk_wellformed target_address vip_functions h ts i d (x :: l) CN).
      unfold result. rewrite Hroot. cbn [List.filter app].
      change (relevant target_address vip_functions root)
        with (relevant target_address vip_functions transaction).
      destruct (relevant target_address vip_functions transaction); reflexivity.
  - intros p n Hp Hn. rewrite Hroot in Hp. destruct Hp as [<- | Hp].
    + apply (inherited_children h ts i d (sc_invokes transaction)); [|exact Hn].
      unfold root. destruct transaction; exact D.
    + apply (inherited_nested h ts i d (sc_invokes transaction)); [|exact Hp|exact Hn].
      rewrite List.Forall_forall in CN. apply List.Forall_forall.
      intros k Hk s' p' n'. apply (inherit_in_context target_address); auto.
  - intros n Hn. apply filter_In in Hn as [Hn _]. apply preorder_parent, Hn.
  - intros N HN Hall. rewrite <- (chain_length N transaction HN).
    apply filter_all with (g := relevant target_address vip_functions); [|exact Hall].
    rewrite Hroot, preorder_eq. cbn [List.map]. f_equal.
    apply (relevant_preorder_nested target_address), CN.
Qed.

(** C1 amended, at the routed swap: the router first, then the pool it
    called. *)
Lemma find_relevant_transactions_preorder_witness :
  _find_relevant_transactions routed_swap "3PPool" ["swap"%string] =
  Ok [set_invokes routed_swap
        [inherit "3PRouter" 100 1700000000000 "tx1"
           (invoke_node (Some "3PPool"%string) (Some (mkCall (Some "swap"%string))) [])];
      inherit "3PRouter" 100 1700000000000 "tx1"
        (invoke_node (Some "3PPool"%string) (Some (mkCall (Some "swap"%string))) [])].
Proof.
  exact (proj1 (find_relevant_transactions_preorder routed_swap "3PPool"
                  ["swap"%string] "3PRouter" 100 1700000000000 "tx1"
                  eq_refl eq_refl eq_refl eq_refl eq_refl eq_refl eq_refl)).
Defined.

End FindRelevant.

Section MalformedNodes.
Import BlockchainExtractor.

(** C10 as stated fails: the node [hidden_child] is relevant and is not
    malformed, yet it is not collected, because the walk does not enter
    the malformed node it is nested in. *)
Lemma malformed_parent_hides_child :
  malformed "3PPool" malformed_parent = true
  /\ malformed "3PPool" hidden_child = false
  /\ relevant "3PPool" [] hidden_child = true
  /\ In hidden_child (preorder hiding_tx)
  /\ _find_relevant_transactions hiding_tx "3PPool" [] = Ok [].
Proof.
  repeat split; try reflexivity. cbn. right. right. left. reflexivity.
Qed.

(** C10, amended.  A malformed nested node is skipped together with the
    invocations nested in it: its five context keys are set, nothing of it
    is collected, and the walk goes on with its siblings as if it were not
    there.  In general the collector receives exactly the relevant nodes
    met in pre-order when the subtrees of malformed nodes are left out. *)
Theorem extract_invokes_skips_malformed (target_address sender : string)
    (h ts : Z) (i : string) (vip_functions : list string)
    (before : list Tx) (bad : Tx) (after collector : list Tx) :
  malformed target_address bad = true ->
  _extract_invokes (before ++ bad :: after) target_address sender h ts i
      collector vip_functions =
    (fst (_extract_invokes before target_address sender h ts i [] vip_functions)
       ++ set_context bad sender h ts i
       :: fst (_extract_invokes after target_address sender h ts i [] vip_functions),
     collector
       ++ snd (_extract_invokes before target_address sender h ts i [] vip_functions)
       ++ snd (_extract_invokes after target_address sender h ts i [] vip_functions))
  /\ forall invokes,
       snd (_extract_invokes invokes target_address sender h ts i collector
              vip_functions) =
       collector
         ++ List.filter (relevant target_address vip_functions)
              (flat_map (visit target_address)
                 (fst (_extract_invokes invokes target_address sender h ts i
                         collector vip_functions))).
Proof.
  intros M. unfold _extract_invokes. split.
  - rewrite for_each_invoke_app, for_each_invoke_cons.
    rewrite (extract_invoke_malformed target_address vip_functions h ts i sender bad M).
    cbn [fst snd app].
    destruct (for_each_invoke target_address vip_functions sender h ts i before).
    destruct (for_each_invoke target_address vip_functions sender h ts i after).
    reflexivity.
  - intros invokes.
    pose proof (walk_collects_list target_address vip_functions h ts i sender invokes) as W.
    destruct (for_each_invoke target_address vip_functions sender h ts i invokes)
      as [walked found].
    cbn [fst snd] in *. f_equal. apply W.
    apply List.Forall_forall. intros n _ s.
    apply walk_collects_node.
Qed.

(** C10 amended, at the hiding transaction: the malformed node stands
    alone in its list. *)
Lemma extract_invokes_skips_malformed_witness :
  _extract_invokes ([] ++ malformed_parent :: []) "3PPool" "3PRouter" 101
      1700000000001 "tx2" [] [] =
    ([set_context malformed_parent "3PRouter" 101 1700000000001 "tx2"], []).
Proof.
  exact (proj1 (extract_invokes_skips_malformed "3PPool" "3PRouter" 101
                  1700000000001 "tx2" [] [] malformed_parent [] [] eq_refl)).
Defined.

End MalformedNodes.

(* ===================================================================== *)
(** ** Paging, spill files and the drain *)
(* ===================================================================== *)

Section Spill.
Import BlockchainExtractor.

Lemma len_app {A} (l1 l2 : list A) : len (l1 ++ l2) = len l1 + len l2.
Proof. unfold len. rewrite length_app. lia. Qed.

Lemma append_cancel (p a b : string) : (p ++ a = p ++ b)%string -> a = b.
Proof.
  induction p as [|c p IH]; cbn; [auto|]. intros E. injection E as E. auto.
Qed.

(** The first two spill files of an address have different names. *)
Lemma filename_0_1 address : filename address 0 <> filename address 1.
Proof.
  unfold filename. intros E.
  apply append_cancel, append_cancel, append_cancel in E. discriminate.
Qed.

Lemma last_id_nonempty batch c : last_id batch = Ok c -> batch <> [].
Proof. intros H ->. discriminate. Qed.

(** C2 as stated fails: at three pages of 1000, 1000 and 400 direct pool
    calls and a threshold of 1500, [fetch_all_transactions] returns the
    file count 2 and leaves two files, before
    [load_transactions_from_files] is called.  Read back as if there were
    one file, they give the first two pages only, 2000 transactions out
    of 2400. *)
Lemma two_files_before_the_drain :
  let flushed : Files :=
    <[filename "3PPool" 1 := page "c" 400]>
      (<[filename "3PPool" 0 := page "a" 1000 ++ page "b" 1000]> ∅) in
  fetch_all_transactions three_pages 1500 3 "3PPool" EmptyString [] ∅
    = Some (Ok ([], 2, flushed))
  /\ flushed !! filename "3PPool" 0 = Some (page "a" 1000 ++ page "b" 1000)
  /\ flushed !! filename "3PPool" 1 = Some (page "c" 400)
  /\ fst (load_transactions_from_files "3PPool" 1 flushed)
     = rev (page "a" 1000 ++ page "b" 1000)
  /\ len (fst (load_transactions_from_files "3PPool" 1 flushed)) = 2000
  /\ len (page "a" 1000 ++ page "b" 1000 ++ page "c" 400) = 2400.
Proof.
  cbv zeta. repeat split; vm_compute; reflexivity.
Qed.

(** C2, amended.  Three pages with has_more True, True, False whose relevant
    transactions number 1000, 1000 and 400, and a threshold of 1500.  The
    paging loop spills once: it ends with one file written (the first two
    pages, 2000 > 1500) and the third page in memory.  What follows the
    loop writes that remainder to a second file and returns the count 2.
    Reading the files from the highest index down to 0, each reversed,
    gives the reverse of the three pages' relevant transactions in fetch
    order, that is the oldest first. *)
Theorem spill_scenario
    (get_waves_transactions : string -> Z -> string -> res (list Tx))
    (address last_processed_id : string) (vip_functions : list string)
    (fs : Files) (p1 p2 p3 r1 r2 r3 : list Tx) (c1 c2 c3 : string) (fuel : nat) :
  fetch_transactions_batch get_waves_transactions address 1000 EmptyString last_processed_id
    = Ok (p1, true) ->
  last_id p1 = Ok c1 ->
  fetch_transactions_batch get_waves_transactions address 1000 c1 last_processed_id
    = Ok (p2, true) ->
  last_id p2 = Ok c2 ->
  fetch_transactions_batch get_waves_transactions address 1000 c2 last_processed_id
    = Ok (p3, false) ->
  last_id p3 = Ok c3 ->
  find_in_batch address vip_functions p1 = Ok r1 ->
  find_in_batch address vip_functions p2 = Ok r2 ->
  find_in_batch address vip_functions p3 = Ok r3 ->
  len r1 = 1000 -> len r2 = 1000 -> len r3 = 400 ->
  (3 <= fuel)%nat ->
  let spilled : Files := <[filename address 0 := r1 ++ r2]> fs in
  let flushed : Files := <[filename address 1 := r3]> spilled in
  fetch_loop get_waves_transactions 1500 fuel address last_processed_id
      vip_functions (mkRun [] EmptyString 0 0 fs)
    = Some (Ok (mkRun r3 c3 1 2400 spilled))
  /\ fetch_all_transactions get_waves_transactions 1500 fuel address
       last_processed_id vip_functions fs
     = Some (Ok ([], 2, flushed))
  /\ fst (load_transactions_from_files address 2 flushed) = rev (r1 ++ r2 ++ r3).
Proof.
  intros F1 L1 F2 L2 F3 L3 R1 R2 R3 N1 N2 N3 Hfuel spilled flushed.
  assert (Loop : fetch_loop get_waves_transactions 1500 fuel address
                   last_processed_id vip_functions (mkRun [] EmptyString 0 0 fs)
                 = Some (Ok (mkRun r3 c3 1 2400 spilled))).
  { destruct fuel as [|[|[|fuel]]]; try lia.
    pose proof (last_id_nonempty p1 c1 L1) as E1.
    pose proof (last_id_nonempty p2 c2 L2) as E2.
    pose proof (last_id_nonempty p3 c3 L3) as E3.
    cbn [fetch_loop last_tx_id]. rewrite F1.
    destruct p1 as [|x1 p1]; [contradiction|].
    unfold process_batch at 1. rewrite R1, L1.
    cbn [bind all_transactions total_count file_count files app].
    rewrite N1. change (1500 <? 1000) with false. cbv iota.
    cbn [last_tx_id]. rewrite F2.
    destruct p2 as [|x2 p2]; [contradiction|].
    unfold process_batch at 1. rewrite R2, L2.
    cbn [bind all_transactions total_count file_count files].
    rewrite len_app, N1, N2. change (1500 <? 1000 + 1000) with true. cbv iota.
    cbn [last_tx_id]. rewrite F3.
    destruct p3 as [|x3 p3]; [contradiction|].
    unfold process_batch at 1. rewrite R3, L3.
    cbn [bind all_transactions total_count file_count files app].
    rewrite N3. change (1500 <? 400) with false. cbv iota.
    reflexivity. }
  split; [exact Loop|]. split.
  - unfold fetch_all_transactions. rewrite Loop. unfold finish.
    cbn [all_transactions file_count files last_tx_id total_count].
    rewrite N3. reflexivity.
  - unfold load_transactions_from_files.
    change (Z.to_nat 2) with 2%nat. cbn [load_from Z.of_nat].
    change (Z.of_nat 1) with 1. change (Z.of_nat 0) with 0.
    unfold flushed at 1. rewrite lookup_insert_eq.
    rewrite lookup_delete_ne by (apply not_eq_sym, filename_0_1).
    unfold flushed. rewrite lookup_insert_ne by (apply not_eq_sym, filename_0_1).
    unfold spilled. rewrite lookup_insert_eq. cbn [fst app].
    rewrite !rev_app_distr, app_assoc. reflexivity.
Qed.

(** C2 amended, at a source of three pages of direct pool calls. *)
Lemma spill_scenario_witness :
  fetch_all_transactions three_pages 1500 3 "3PPool" EmptyString [] ∅
  = Some (Ok ([], 2,
              <[filename "3PPool" 1 := page "c" 400]>
                (<[filename "3PPool" 0 := page "a" 1000 ++ page "b" 1000]> ∅))).
Proof.
  refine (proj1 (proj2 (spill_scenario three_pages "3PPool" EmptyString [] ∅
                   (page "a" 1000) (page "b" 1000) (page "c" 400)
                   (page "a" 1000) (page "b" 1000) (page "c" 400)
                   "a" "b" "c" 3 _ _ _ _ _ _ _ _ _ _ _ _ _)));
    try (vm_compute; reflexivity); lia.
Defined.

End Spill.

(* ===================================================================== *)
(** ** Decimal arithmetic *)
(* ===================================================================== *)

Section DecimalFacts.
Import Dec.

Lemma pow10_gt0 k : 0 <= k -> 0 < 10 ^ k.
Proof. intros. apply Z.pow_pos_nonneg; lia. Qed.

Lemma pow10_of_N k : 0 <= k -> Z.of_N (pow10 k) = 10 ^ k.
Proof. intros H. unfold pow10. pose proof (pow10_gt0 k H). lia. Qed.

Lemma size_nat_gt n : Z.of_N n < 2 ^ Z.of_nat (N.size_nat n).
Proof.
  destruct n as [|p]; [reflexivity|]. cbn [N.size_nat Z.of_N].
  induction p as [p IH|p IH|]; cbn [Pos.size_nat];
    rewrite ?Nat2Z.inj_succ, ?Z.pow_succ_r by lia; lia.
Qed.

Lemma ndigits_fuel_spec fuel : forall n,
  n <> 0%N -> Z.of_N n < 2 ^ Z.of_nat fuel ->
  10 ^ (ndigits_fuel fuel n - 1) <= Z.of_N n < 10 ^ ndigits_fuel fuel n.
Proof.
  induction fuel as [|fuel IH]; intros n Hn Hf.
  - cbn in Hf. lia.
  - cbn [ndigits_fuel]. destruct (N.ltb_spec n 10) as [L|L].
    + cbn. lia.
    + rewrite Nat2Z.inj_succ, Z.pow_succ_r in Hf by lia.
      assert (D : Z.of_N (n / 10)%N = Z.of_N n / 10) by apply N2Z.inj_div.
      assert (Q : Z.of_N n / 10 * 10 <= Z.of_N n < Z.of_N n / 10 * 10 + 10).
      { pose proof (Z.div_mod (Z.of_N n) 10 ltac:(lia)).
        pose proof (Z.mod_pos_bound (Z.of_N n) 10 ltac:(lia)). lia. }
      assert (Hn' : (n / 10)%N <> 0%N) by lia.
      assert (Hf' : Z.of_N (n / 10)%N < 2 ^ Z.of_nat fuel) by lia.
      specialize (IH _ Hn' Hf').
      set (k := ndigits_fuel fuel (n / 10)%N) in *.
      assert (K : 1 <= k).
      { destruct (Z.lt_ge_cases k 1) as [B|B]; [|exact B].
        assert (10 ^ k <= 10 ^ 0) by (apply Z.pow_le_mono_r; lia).
        cbn in *. lia. }
      replace (1 + k - 1) with (Z.succ (k - 1)) by lia.
      replace (1 + k) with (Z.succ k) by lia.
      rewrite !Z.pow_succ_r by lia. lia.
Qed.

Lemma ndigits_spec n :
  n <> 0%N -> 10 ^ (ndigits n - 1) <= Z.of_N n < 10 ^ ndigits n.
Proof. intros H. apply ndigits_fuel_spec; [exact H|apply size_nat_gt]. Qed.

Lemma ndigits_0 : ndigits 0 = 1.
Proof. reflexivity. Qed.

Lemma ndigits_ge1 n : 1 <= ndigits n.
Proof.
  destruct (N.eq_dec n 0%N) as [->|H]; [rewrite ndigits_0; lia|].
  pose proof (ndigits_spec n H) as [_ U].
  destruct (Z.lt_ge_cases (ndigits n) 1) as [B|B]; [|exact B].
  assert (10 ^ ndigits n <= 10 ^ 0) by (apply Z.pow_le_mono_r; lia).
  cbn in *. lia.
Qed.

Lemma ndigits_unique n k :
  n <> 0%N -> 10 ^ (k - 1) <= Z.of_N n < 10 ^ k -> ndigits n = k.
Proof.
  intros H [L U]. pose proof (ndigits_spec n H) as [L' U'].
  pose proof (ndigits_ge1 n).
  assert (K : 1 <= k).
  { destruct (Z.lt_ge_cases k 1) as [B|B]; [|exact B].
    assert (10 ^ k <= 10 ^ 0) by (apply Z.pow_le_mono_r; lia). cbn in *. lia. }
  destruct (Z.lt_trichotomy (ndigits n) k) as [B|[B|B]]; [|exact B|].
  - assert (10 ^ ndigits n <= 10 ^ (k - 1)) by (apply Z.pow_le_mono_r; lia). lia.
  - assert (10 ^ k <= 10 ^ (ndigits n - 1)) by (apply Z.pow_le_mono_r; lia). lia.
Qed.

Lemma ndigits_le n k : 1 <= k -> Z.of_N n < 10 ^ k -> ndigits n <= k.
Proof.
  intros K U. destruct (N.eq_dec n 0%N) as [->|H]; [rewrite ndigits_0; lia|].
  pose proof (ndigits_spec n H) as [L' _].
  destruct (Z.lt_ge_cases k (ndigits n)) as [B|B]; [|lia].
  assert (10 ^ k <= 10 ^ (ndigits n - 1)) by (apply Z.pow_le_mono_r; lia). lia.
Qed.

Lemma ndigits_pow10 d : 0 <= d -> ndigits (Z.to_N (10 ^ d)) = d + 1.
Proof.
  intros D. pose proof (pow10_gt0 d D).
  apply ndigits_unique; [lia|]. rewrite Z2N.id by lia.
  replace (d + 1 - 1) with d by lia. split; [lia|].
  apply Z.pow_lt_mono_r; lia.
Qed.

Lemma ndigits_shift n j :
  n <> 0%N -> 0 <= j -> ndigits (n * pow10 j) = ndigits n + j.
Proof.
  intros H J. pose proof (pow10_gt0 j J) as P.
  pose proof (pow10_of_N j J) as E.
  pose proof (ndigits_spec n H) as [L U]. pose proof (ndigits_ge1 n).
  apply ndigits_unique; [lia|].
  rewrite N2Z.inj_mul, E.
  replace (ndigits n + j - 1) with (ndigits n - 1 + j) by lia.
  rewrite !Z.pow_add_r by lia. nia.
Qed.

(** A coefficient of at most 28 digits is not rounded. *)
Lemma fix_small d : ndigits (dint d) <= prec -> fix_ d = d.
Proof.
  intros H. unfold fix_. apply Z.leb_le in H. rewrite H. reflexivity.
Qed.


Lemma strip_zeros_spec fuel : forall coeff exp ideal,
  coeff <> 0%N -> exp <= ideal -> ideal - exp <= Z.of_nat fuel ->
  exists c e,
    strip_zeros fuel coeff exp ideal = (c, e)
    /\ exp <= e <= ideal
    /\ Z.of_N coeff = Z.of_N c * 10 ^ (e - exp)
    /\ c <> 0%N
    /\ (e = ideal \/ (c mod 10)%N <> 0%N).
Proof.
  induction fuel as [|fuel IH]; intros coeff exp ideal C E F.
  - exists coeff, exp. cbn [strip_zeros]. replace (exp - exp) with 0 by lia.
    repeat split; try lia; left; lia.
  - cbn [strip_zeros].
    destruct (Z.ltb_spec exp ideal) as [L|L]; cbn [andb].
    + destruct (N.eqb_spec (coeff mod 10) 0) as [M|M].
      * assert (D : Z.of_N coeff = 10 * Z.of_N (coeff / 10)%N).
        { pose proof (N.div_mod coeff 10 ltac:(lia)). lia. }
        assert (C' : (coeff / 10)%N <> 0%N) by lia.
        destruct (IH (coeff / 10)%N (exp + 1) ideal C' ltac:(lia) ltac:(lia))
          as (c & e & S & B & V & N0 & T).
        exists c, e. rewrite S. repeat split; try lia; try exact T.
        rewrite D, V. replace (e - exp) with (Z.succ (e - (exp + 1))) by lia.
        rewrite Z.pow_succ_r by lia. lia.
      * exists coeff, exp. replace (exp - exp) with 0 by lia.
        repeat split; try lia; right; exact M.
    + exists coeff, exp. replace (exp - exp) with 0 by lia.
      repeat split; try lia; left; lia.
Qed.

Lemma of_int_pow10 d : 0 <= d -> of_int (10 ^ d) = mkDecimal false (pow10 d) 0.
Proof.
  intros D. pose proof (pow10_gt0 d D). unfold of_int, pow10.
  rewrite Z.abs_eq by lia.
  destruct (Z.ltb_spec (10 ^ d) 0); [lia|reflexivity].
Qed.

(** An integer of at most 28 digits divided by [10^d]: the quotient is
    exact, with an exponent between [-d] and 0. *)
Lemma div_by_pow10 (s : bool) (A : N) (d : Z) :
  A <> 0%N -> Z.of_N A < 10 ^ 28 -> 0 <= d ->
  exists c e,
    div (mkDecimal s A 0) (of_int (10 ^ d)) = Ok (mkDecimal s c e)
    /\ - d <= e <= 0
    /\ Z.of_N A = Z.of_N c * 10 ^ (e + d).
Proof.
  intros HA UA D. rewrite of_int_pow10 by exact D.
  pose proof (pow10_gt0 d D) as Pd. pose proof (pow10_of_N d D) as Ed.
  unfold div. cbn [dint dexp dsign]. rewrite xorb_false_r.
  destruct (N.eqb_spec (pow10 d) 0) as [Z0|_]; [lia|].
  destruct (N.eqb_spec A 0) as [Z0|_]; [contradiction|].
  assert (NB : ndigits (pow10 d) = d + 1) by (apply ndigits_pow10, D).
  pose proof (ndigits_ge1 A) as G1.
  pose proof (ndigits_le A 28 ltac:(lia) UA) as G2.
  rewrite NB. unfold prec.
  set (shift := d + 1 - ndigits A + 28 + 1).
  assert (Hs : d + 2 <= shift) by (unfold shift; lia).
  destruct (Z.leb_spec 0 shift) as [_|B]; [|lia].
  assert (Psd : pow10 shift = (pow10 (shift - d) * pow10 d)%N).
  { apply N2Z.inj. rewrite N2Z.inj_mul, !pow10_of_N by lia.
    rewrite <- Z.pow_add_r by lia. f_equal. lia. }
  assert (Q : (A * pow10 shift / pow10 d)%N = (A * pow10 (shift - d))%N).
  { rewrite Psd, N.mul_assoc. apply N.div_mul. lia. }
  assert (R : (A * pow10 shift mod pow10 d)%N = 0%N).
  { rewrite Psd, N.mul_assoc. apply N.Div0.mod_mul. }
  rewrite Q, R. cbn [N.eqb negb].
  replace (0 - 0) with 0 by lia. replace (0 - shift) with (- shift) by lia.
  assert (Pt : 0 < 10 ^ (shift - d)) by (apply pow10_gt0; lia).
  assert (Et : Z.of_N (pow10 (shift - d)) = 10 ^ (shift - d))
    by (apply pow10_of_N; lia).
  assert (C0 : (A * pow10 (shift - d))%N <> 0%N) by lia.
  destruct (strip_zeros_spec (Z.to_nat (0 - - shift)) _ (- shift) 0 C0
              ltac:(lia) ltac:(lia)) as (c & e & S & Be & V & Nc & T).
  rewrite S.
  (* the stripped coefficient divides A *)
  rewrite N2Z.inj_mul, Et in V.
  assert (J : shift - d <= e + shift).
  { destruct T as [->|T]; [lia|].
    destruct (Z.lt_ge_cases (e + shift) (shift - d)) as [B|B]; [|exact B].
    exfalso. apply T.
    assert (Z.of_N c = Z.of_N A * 10 ^ (shift - d - (e + shift))).
    { assert (P1 : 0 < 10 ^ (e - - shift)) by (apply pow10_gt0; lia).
      replace (shift - d) with ((shift - d - (e + shift)) + (e - - shift)) in V by lia.
      rewrite Z.pow_add_r in V by lia. nia. }
    replace (shift - d - (e + shift)) with (Z.succ (shift - d - (e + shift) - 1)) in H by lia.
    rewrite Z.pow_succ_r in H by lia.
    apply N2Z.inj. rewrite N2Z.inj_mod. cbn [Z.of_N].
    rewrite H. replace (Z.of_N A * (10 * 10 ^ (shift - d - (e + shift) - 1)))
      with (Z.of_N A * 10 ^ (shift - d - (e + shift) - 1) * 10) by lia.
    apply Z.mod_mul. lia. }
  assert (VA : Z.of_N A = Z.of_N c * 10 ^ (e + d)).
  { assert (P1 : 0 < 10 ^ (shift - d)) by (apply pow10_gt0; lia).
    replace (e - - shift) with ((e + d) + (shift - d)) in V by lia.
    rewrite Z.pow_add_r in V by lia. nia. }
  assert (Pc : 0 < 10 ^ (e + d)) by (apply pow10_gt0; lia).
  assert (Uc : Z.of_N c < 10 ^ 28) by nia.
  exists c, e. split; [|split; [lia|exact VA]].
  rewrite fix_small; [reflexivity|].
  cbn [dint]. apply ndigits_le; unfold prec; [lia|exact Uc].
Qed.


(** The signed coefficient. *)
Lemma at_exp_eq d L :
  at_exp d L =
  (if dsign d then - Z.of_N (dint d) else Z.of_N (dint d)) * 10 ^ (dexp d - L).
Proof. unfold at_exp. destruct (dsign d); lia. Qed.

Lemma at_exp_lower d L L' :
  L' <= L -> L <= dexp d -> at_exp d L' = at_exp d L * 10 ^ (L - L').
Proof.
  intros H1 H2. rewrite !at_exp_eq.
  replace (dexp d - L') with ((dexp d - L) + (L - L')) by lia.
  rewrite Z.pow_add_r by lia. lia.
Qed.

(** Two decimals are equal when their signed coefficients agree at any
    common lower exponent. *)
Lemma eqb_at a b L :
  L <= dexp a -> L <= dexp b ->
  (eqb a b = true <-> at_exp a L = at_exp b L).
Proof.
  intros Ha Hb. unfold eqb, cmp.
  set (m := Z.min (dexp a) (dexp b)).
  assert (Hm : L <= m) by (unfold m; lia).
  rewrite (at_exp_lower a m L), (at_exp_lower b m L) by (unfold m; lia).
  pose proof (pow10_gt0 (m - L) ltac:(lia)) as P.
  destruct (Z.compare_spec (at_exp a m) (at_exp b m)) as [E|E|E].
  - rewrite E. tauto.
  - split; [discriminate|nia].
  - split; [discriminate|nia].
Qed.

Lemma eqb_sym a b : eqb a b = true -> eqb b a = true.
Proof.
  intros H. set (L := Z.min (dexp a) (dexp b)).
  apply (eqb_at b a L); [unfold L; lia..|]. symmetry.
  apply (eqb_at a b L); [unfold L; lia..|exact H].
Qed.

Lemma eqb_trans a b c : eqb a b = true -> eqb b c = true -> eqb a c = true.
Proof.
  intros H1 H2. set (L := Z.min (dexp a) (Z.min (dexp b) (dexp c))).
  apply (eqb_at a c L); [unfold L; lia..|].
  transitivity (at_exp b L).
  - apply (eqb_at a b L); [unfold L; lia..|exact H1].
  - apply (eqb_at b c L); [unfold L; lia..|exact H2].
Qed.

Lemma fix_sign d : dsign (fix_ d) = dsign d.
Proof.
  unfold fix_. destruct (_ <=? _); [reflexivity|].
  destruct (_ =? _)%N; reflexivity.
Qed.

(** A division by a non-zero decimal returns, with the sign of the
    operands' signs. *)
Lemma div_total a b :
  dint b <> 0%N ->
  exists q, div a b = Ok q /\ dsign q = xorb (dsign a) (dsign b).
Proof.
  intros Hb. unfold div.
  destruct (N.eqb_spec (dint b) 0) as [Z0|_]; [contradiction|].
  destruct (dint a =? 0)%N; [eexists; split; [reflexivity|apply fix_sign]|].
  destruct (negb _).
  - eexists; split; [reflexivity|apply fix_sign].
  - destruct (strip_zeros _ _ _ _) as [c e].
    eexists; split; [reflexivity|apply fix_sign].
Qed.

(** An integer of at most 28 digits divided by [10^d] is exactly
    [raw * 10^(-d)]. *)
Lemma div_int_pow10 raw d :
  Z.abs raw < 10 ^ 28 -> 0 <= d ->
  exists q,
    div (of_int raw) (of_int (10 ^ d)) = Ok q
    /\ eqb q (scaled raw (- d)) = true.
Proof.
  intros U D. destruct (Z.eq_dec raw 0) as [->|N0].
  - rewrite of_int_pow10 by exact D. unfold div. cbn [of_int dint dexp dsign].
    pose proof (pow10_gt0 d D). pose proof (pow10_of_N d D).
    destruct (N.eqb_spec (pow10 d) 0) as [Z0|_]; [lia|].
    cbn. eexists. split; [reflexivity|].
    apply (eqb_at _ _ (- d)); cbn [dexp scaled]; [lia..|].
    rewrite !at_exp_eq. cbn. lia.
  - unfold of_int at 1.
    destruct (div_by_pow10 (raw <? 0) (Z.to_N (Z.abs raw)) d ltac:(lia) ltac:(lia) D)
      as (c & e & E & B & V).
    exists (mkDecimal (raw <? 0) c e). split; [exact E|].
    apply (eqb_at _ _ (- d)); cbn [dexp scaled]; [lia..|].
    rewrite !at_exp_eq. cbn [dsign dint dexp scaled].
    replace (- d - - d) with 0 by lia. replace (e - - d) with (e + d) by lia.
    rewrite Z.pow_0_r.
    destruct (Z.ltb_spec raw 0); nia.
Qed.

(** Rounding a coefficient that is at most 28 digits followed by zeros
    drops zeros only. *)
Lemma fix_trailing_zeros s M j e :
  M <> 0%N -> Z.of_N M < 10 ^ 28 -> 0 <= j ->
  exists j',
    0 <= j' <= j
    /\ fix_ (mkDecimal s (M * pow10 j) e) = mkDecimal s (M * pow10 j') (e + (j - j')).
Proof.
  intros HM UM J.
  pose proof (ndigits_shift M j HM J) as NS.
  pose proof (ndigits_ge1 M) as G1.
  pose proof (ndigits_le M 28 ltac:(lia) UM) as G2.
  unfold fix_. cbn [dint dsign dexp]. rewrite NS. unfold prec.
  destruct (Z.leb_spec (ndigits M + j) 28) as [S|B].
  - exists j. split; [lia|]. f_equal. lia.
  - set (k := ndigits M + j - 28).
    assert (K : 0 < k <= j) by (unfold k; lia).
    exists (j - k). split; [lia|].
    assert (Pk : pow10 j = (pow10 (j - k) * pow10 k)%N).
    { apply N2Z.inj. rewrite N2Z.inj_mul, !pow10_of_N by lia.
      rewrite <- Z.pow_add_r by lia. f_equal. lia. }
    pose proof (pow10_gt0 k ltac:(lia)) as P1. pose proof (pow10_of_N k ltac:(lia)) as E1.
    pose proof (pow10_gt0 (k - 1) ltac:(lia)) as P2.
    pose proof (pow10_of_N (k - 1) ltac:(lia)) as E2.
    assert (Q : (M * pow10 j / pow10 k)%N = (M * pow10 (j - k))%N).
    { rewrite Pk, N.mul_assoc. apply N.div_mul. lia. }
    assert (R : (M * pow10 j mod pow10 k)%N = 0%N).
    { rewrite Pk, N.mul_assoc. apply N.Div0.mod_mul. }
    rewrite Q, R.
    destruct (N.ltb_spec (5 * pow10 (k - 1)) 0) as [X|_]; [lia|].
    destruct (N.eqb_spec 0 (5 * pow10 (k - 1))) as [X|_]; [lia|].
    cbn [orb andb].
    assert (ND : ndigits (M * pow10 (j - k)) = 28).
    { rewrite ndigits_shift by lia. unfold k. lia. }
    assert (M * pow10 (j - k) <> 0)%N.
    { pose proof (pow10_gt0 (j - k) ltac:(lia)).
      pose proof (pow10_of_N (j - k) ltac:(lia)). lia. }
    pose proof (ndigits_spec _ H) as [_ U]. rewrite ND in U.
    destruct (N.eqb_spec (M * pow10 (j - k)) (pow10 28)) as [X|_].
    { rewrite X in U. rewrite pow10_of_N in U by lia. lia. }
    f_equal. lia.
Qed.


(** A decimal whose value is the integer [m] of at most 28 digits over
    [10^d], multiplied by [10^d] and truncated, gives [m]. *)
Lemma mul_pow10_to_int x m d :
  eqb x (scaled m (- d)) = true -> Z.abs m < 10 ^ 28 -> 0 <= d ->
  to_int (mul x (of_int (10 ^ d))) = m.
Proof.
  intros E U D. rewrite of_int_pow10 by exact D.
  pose proof (pow10_gt0 d D) as Pd. pose proof (pow10_of_N d D) as Ed.
  unfold mul. cbn [dint dexp dsign]. rewrite xorb_false_r, Z.add_0_r.
  destruct x as [s c e]. cbn [dint dexp dsign].
  set (L := Z.min e (- d)).
  apply (eqb_at _ _ L) in E; cbn [dexp scaled]; [|unfold L; lia..].
  rewrite !at_exp_eq in E. cbn [dsign dint dexp scaled] in E.
  pose proof (pow10_gt0 (e - L) ltac:(unfold L; lia)) as P1.
  pose proof (pow10_gt0 (- d - L) ltac:(unfold L; lia)) as P2.
  set (M0 := Z.to_N (Z.abs m)) in *.
  assert (EM : Z.of_N M0 = Z.abs m) by (unfold M0; lia).
  destruct (Z.eq_dec m 0) as [->|N0].
  - assert (c = 0%N).
    { change (0 <? 0) with false in E. cbv iota in E.
      replace (Z.of_N M0) with 0 in E by lia. rewrite Z.mul_0_l in E.
      apply Z.mul_eq_0 in E as [E|E]; [destruct s; lia|lia]. }
    subst c.
    rewrite N.mul_0_l, fix_small by (cbn [dint]; rewrite ndigits_0; unfold prec; lia).
    unfold to_int. cbn [dint dexp dsign]. rewrite N.Div0.div_0_l.
    destruct (0 <=? e); destruct s; cbn [Z.of_N]; lia.
  - assert (Sg : s = (m <? 0) /\ Z.of_N c * 10 ^ (e - L) = Z.of_N M0 * 10 ^ (- d - L)).
    { destruct s; destruct (Z.ltb_spec m 0); split; try reflexivity; nia. }
    destruct Sg as [Sg V].
    assert (HM : M0 <> 0%N) by lia. assert (UM : Z.of_N M0 < 10 ^ 28) by lia.
    assert (Sm : (if s then - Z.of_N M0 else Z.of_N M0) = m).
    { rewrite Sg. destruct (Z.ltb_spec m 0); lia. }
    destruct (Z.le_gt_cases 0 e) as [Pe|Ne].
    + (* no fractional digit: the product is at most m *)
      assert (L = - d) by (unfold L; lia).
      replace (- d - L) with 0 in V by lia. rewrite Z.pow_0_r in V.
      replace (e - L) with (e + d) in V by lia.
      rewrite Z.pow_add_r in V by lia.
      pose proof (pow10_gt0 e Pe) as P3.
      assert (UC : Z.of_N (c * pow10 d) < 10 ^ 28) by nia.
      rewrite fix_small by (cbn [dint]; apply ndigits_le; unfold prec; [lia|exact UC]).
      unfold to_int. cbn [dint dexp dsign].
      destruct (Z.leb_spec 0 e); [|lia].
      rewrite N2Z.inj_mul, Ed. rewrite <- Sm. destruct s; nia.
    + (* the product is m followed by -e zeros *)
      assert (C : (c * pow10 d)%N = (M0 * pow10 (- e))%N).
      { apply N2Z.inj. rewrite !N2Z.inj_mul, Ed, pow10_of_N by lia.
        destruct (Z.le_gt_cases (- d) e) as [B|B].
        - assert (L = - d) by (unfold L; lia).
          replace (- d - L) with 0 in V by lia. rewrite Z.pow_0_r in V.
          replace (e - L) with (e + d) in V by lia.
          replace d with ((e + d) + (- e)) at 1 by lia.
          rewrite (Z.pow_add_r 10 (e + d) (- e)) by lia. nia.
        - assert (L = e) by (unfold L; lia).
          replace (e - L) with 0 in V by lia. rewrite Z.pow_0_r in V.
          replace (- d - L) with (- d - e) in V by lia.
          replace (- e) with ((- d - e) + d) by lia.
          rewrite (Z.pow_add_r 10 (- d - e) d) by lia. nia. }
      rewrite C.
      destruct (fix_trailing_zeros s M0 (- e) e HM UM ltac:(lia)) as (j' & Bj & F).
      rewrite F. unfold to_int. cbn [dint dexp dsign].
      pose proof (pow10_gt0 j' ltac:(lia)) as P4.
      pose proof (pow10_of_N j' ltac:(lia)) as E4.
      destruct (Z.leb_spec 0 (e + (- e - j'))) as [B|B].
      * assert (j' = 0) by lia. subst j'.
        replace (e + (- e - 0)) with 0 by lia.
        rewrite N2Z.inj_mul, E4. rewrite <- Sm. destruct s; cbn; lia.
      * replace (- (e + (- e - j'))) with j' by lia.
        rewrite N.div_mul by lia. exact Sm.
Qed.

End DecimalFacts.

(* ===================================================================== *)
(** ** Normalization of amounts *)
(* ===================================================================== *)

Section Amounts.
Import AssetMapping.

(** Every asset of the registry has 6 or 8 decimals. *)
Lemma registry_decimals asset_id info :
  get_asset_info asset_id = Some info -> decimals info = 6 \/ decimals info = 8.
Proof.
  unfold get_asset_info, get_all_assets, LP_TOKENS, DEFI_TOKENS, MAJOR_ASSETS.
  intros H.
  repeat (apply lookup_union_Some_raw in H as [H|[_ H]]);
    try (apply elem_of_list_to_map_2 in H;
         repeat (apply elem_of_cons in H as [H|H];
                 [injection H as _ ->; cbn; auto|]);
         apply elem_of_nil in H; destruct H).
  rewrite lookup_empty in H. discriminate.
Qed.

Lemma get_asset_decimals_range asset_id :
  get_asset_decimals asset_id = 6 \/ get_asset_decimals asset_id = 8.
Proof.
  unfold get_asset_decimals.
  destruct (get_asset_info asset_id) as [info|] eqn:E; [|auto].
  exact (registry_decimals asset_id info E).
Qed.

Lemma signed_nonneg d : Dec.dsign d = false -> non_negative d.
Proof.
  intros S. unfold non_negative, Dec.cmp.
  set (m := Z.min _ _).
  assert (Z0 : Dec.at_exp (Dec.of_int 0) m = 0) by reflexivity.
  rewrite Z0, at_exp_eq, S.
  pose proof (pow10_gt0 (Dec.dexp d - m) ltac:(unfold m; cbn; lia)).
  intros C. pose proof (proj1 (Z.compare_lt_iff _ _) C).
  assert (0 <= Z.of_N (Dec.dint d) * 10 ^ (Dec.dexp d - m))
    by (apply Z.mul_nonneg_nonneg; lia).
  lia.
Qed.

(** [normalize_amount] returns for every raw integer, and what it returns
    is the normalization of the raw integer. *)
Lemma normalize_amount_normalized asset_id raw :
  exists amount,
    normalize_amount asset_id raw = Ok amount
    /\ amount_normalized asset_id raw amount.
Proof.
  unfold amount_normalized, normalize_amount.
  assert (D : 0 <= get_asset_decimals asset_id)
    by (destruct (get_asset_decimals_range asset_id); lia).
  set (d := get_asset_decimals asset_id) in *.
  pose proof (pow10_gt0 d D) as P.
  destruct (div_total (Dec.of_int raw) (Dec.of_int (10 ^ d))) as (q & E & S).
  { rewrite of_int_pow10 by exact D. cbn. pose proof (pow10_of_N d D). lia. }
  exists q. split; [exact E|]. split; [exact E|]. split.
  - intros R. apply signed_nonneg. rewrite S. cbn [Dec.of_int Dec.dsign].
    destruct (Z.ltb_spec raw 0); [lia|].
    destruct (Z.ltb_spec (10 ^ d) 0); [lia|reflexivity].
  - intros U. destruct (div_int_pow10 raw d U D) as (q' & E' & V).
    rewrite E in E'. injection E' as <-. exact V.
Qed.

(** C8 as stated fails: 1234567890123456789012.12345678 has eight decimal
    places, as WAVES has, and does not survive the round trip: the product
    by [10^8] has 38 digits and is rounded to 28. *)
Lemma roundtrip_fails_beyond_precision :
  get_asset_decimals WAVES_ID = 8
  /\ Dec.eqb thirty_digits (Dec.scaled 123456789012345678901212345678 (-8)) = true
  /\ denormalize_amount WAVES_ID thirty_digits = 123456789012345678901212345700
  /\ normalize_amount WAVES_ID (denormalize_amount WAVES_ID thirty_digits)
     = Ok (Dec.scaled 1234567890123456789012123457 (-6))
  /\ Dec.eqb (Dec.scaled 1234567890123456789012123457 (-6)) thirty_digits = false.
Proof. repeat split; vm_compute; reflexivity. Qed.

(** C8, amended.  For every asset, with [d] its decimals in the registry
    (8 by default), and every decimal [x] equal to an integer [m] of at
    most 28 digits over [10^d]: normalizing the denormalization of [x]
    gives a decimal equal to [x]. *)
Theorem normalize_denormalize_roundtrip (asset_id : string) (x : Decimal) (m : Z) :
  Dec.eqb x (Dec.scaled m (- get_asset_decimals asset_id)) = true ->
  Z.abs m < 10 ^ 28 ->
  exists y,
    normalize_amount asset_id (denormalize_amount asset_id x) = Ok y
    /\ Dec.eqb y x = true.
Proof.
  intros R U.
  assert (D : 0 <= get_asset_decimals asset_id)
    by (destruct (get_asset_decimals_range asset_id); lia).
  unfold denormalize_amount.
  rewrite (mul_pow10_to_int x m (get_asset_decimals asset_id) R U D).
  destruct (normalize_amount_normalized asset_id m) as (y & E & _ & _ & V).
  exists y. split; [exact E|].
  apply eqb_trans with (b := Dec.scaled m (- get_asset_decimals asset_id)).
  - exact (V U).
  - apply eqb_sym, R.
Qed.

(** C8 amended, at 1.5 WAVES. *)
Lemma normalize_denormalize_roundtrip_witness :
  exists y,
    normalize_amount WAVES_ID (denormalize_amount WAVES_ID (Dec.scaled 15 (-1))) = Ok y
    /\ Dec.eqb y (Dec.scaled 15 (-1)) = true.
Proof.
  apply (normalize_denormalize_roundtrip WAVES_ID (Dec.scaled 15 (-1)) 150000000).
  - vm_compute. reflexivity.
  - vm_compute. reflexivity.
Defined.

End Amounts.

(* ===================================================================== *)
(** ** The staking transformer *)
(* ===================================================================== *)

Section StakingEvents.
Import StakingTransformer.

(** C3.  The functions withdraw, claimRewards, compound and
    emergencyWithdraw have an entry in the table of [_determine_event_type]
    but are not in [STAKING_FUNCTIONS]: [_extract_staking_data] returns
    [None] before it consults the table, and no event of the mapped type
    is emitted. *)
Theorem staking_table_entries_unreachable (transaction : WavesTransaction)
    (invoke_data : Tx) (f : string) :
  raw_data transaction = Some invoke_data ->
  FunctionMapping.extract_function_from_invoke invoke_data = Some f ->
  In f ["withdraw"; "claimRewards"; "compound"; "emergencyWithdraw"]%string ->
  is_Some (_determine_event_type f)
  /\ FunctionMapping.is_staking_function f = false
  /\ _extract_staking_data transaction = None.
Proof.
  intros R F H.
  assert (S : is_Some (_determine_event_type f)
              /\ FunctionMapping.is_staking_function f = false).
  { cbn in H. destruct H as [<-|[<-|[<-|[<-|[]]]]]; split;
      solve [vm_compute; eauto | reflexivity]. }
  destruct S as [S1 S2]. split; [exact S1|]. split; [exact S2|].
  unfold _extract_staking_data. rewrite R, F. cbn [get].
  rewrite S2. cbn [negb].
  destruct (negb (str_truthy (dApp invoke_data))); [reflexivity|].
  rewrite orb_true_r. reflexivity.
Qed.

(** C3, at a claim of rewards on the staking contract: no event at all. *)
Lemma staking_table_entries_unreachable_witness :
  _extract_staking_data claim_rewards = None
  /\ transform_transactions [claim_rewards] = [].
Proof.
  split.
  - refine (proj2 (proj2 (staking_table_entries_unreachable claim_rewards _
                            "claimRewards" eq_refl eq_refl _))).
    cbn. auto.
  - reflexivity.
Defined.

(** No function is mapped to the type of the snapshot events. *)
Lemma determine_event_type_not_snapshot f ty :
  _determine_event_type f = Some ty -> ty <> "stake_update"%string.
Proof.
  unfold _determine_event_type, function_mapping. intros H.
  apply elem_of_list_to_map_2 in H.
  repeat (apply elem_of_cons in H as [H|H]; [injection H as -> ->; discriminate|]).
  apply elem_of_nil in H. destruct H.
Qed.

(** The identity of an event of the invocation path. *)
Lemma extract_staking_data_identity transaction e :
  _extract_staking_data transaction = Some e ->
  StakingEventData.id e = event_identity e
  /\ StakingEventData.event_type e <> "stake_update"%string.
Proof.
  unfold _extract_staking_data.
  destruct (raw_data transaction) as [invoke_data|]; [|discriminate].
  destruct (negb (str_truthy (dApp invoke_data))); [discriminate|].
  destruct (negb _ || negb _); [discriminate|].
  destruct (_determine_event_type _) as [ty|] eqn:T; [|discriminate].
  cbn [str_truthy get].
  destruct (negb (negb (String.eqb ty EmptyString))); [discriminate|].
  destruct (_parse_staking_details invoke_data transaction ty) as [[a u]|];
    [|discriminate].
  intros E. injection E as <-. split; [reflexivity|].
  cbn. exact (determine_event_type_not_snapshot _ ty T).
Qed.

(** The identity of an event of the data-entry path. *)
Lemma data_entry_events_identity tx_id height timestamp entries e :
  In e (data_entry_events tx_id height timestamp entries) ->
  StakingEventData.event_type e = "stake_update"%string
  /\ exists value : Z,
       0 < value
       /\ StakingEventData.amount e = snapshot_amount value
       /\ (StakingEventData.id e = snapshot_identity e (str_int value)
           \/ value = 1 /\ StakingEventData.id e = snapshot_identity e "True").
Proof.
  induction entries as [|entry rest IH]; cbn [data_entry_events]; [intros []|].
  destruct (contains "_staked" _); [|exact IH].
  destruct (get (e_value entry) (VInt 0)) as [value|b|s].
  - destruct (0 <? value) eqn:P; [|exact IH].
    intros [<-|H]; [|exact (IH H)].
    split; [reflexivity|]. exists value. apply Z.ltb_lt in P. auto.
  - destruct b; [|exact IH].
    intros [<-|H]; [|exact (IH H)].
    split; [reflexivity|]. exists 1. split; [lia|]. auto.
  - intros [].
Qed.

(** C5 as stated fails: the snapshot event of the data-entry path is
    identified by the staker and the raw value, not by the amount. *)
Lemma snapshot_identity_differs :
  exists e,
    In e (transform_transactions [balance_snapshot])
    /\ StakingEventData.id e = "tx4_stake_update_3PStaker_500000000"%string
    /\ event_identity e = "tx4_stake_update_5"%string
    /\ StakingEventData.id e <> event_identity e.
Proof.
  eexists. split; [left; reflexivity|].
  split; [reflexivity|]. split; [reflexivity|].
  vm_compute. intros H. inversion H.
Qed.

(** C5, amended.  An event of the invocation path is identified by
    [{transaction_id}_{event_type}_{amount}]; a stake_update event of the
    data-entry path is identified by
    [{transaction_id}_stake_update_{staker_address}_{value}], where [value]
    is the positive raw value of the data entry as Python renders it, and
    its amount is [value / 10^8]. *)
Theorem staking_event_identities (transactions : list WavesTransaction)
    (e : StakingEventData.t) :
  In e (transform_transactions transactions) ->
  (StakingEventData.event_type e <> "stake_update"%string
   /\ StakingEventData.id e = event_identity e)
  \/ (StakingEventData.event_type e = "stake_update"%string
      /\ exists value : Z,
           0 < value
           /\ StakingEventData.amount e = snapshot_amount value
           /\ (StakingEventData.id e = snapshot_identity e (str_int value)
               \/ value = 1 /\ StakingEventData.id e = snapshot_identity e "True")).
Proof.
  induction transactions as [|transaction rest IH];
    cbn [transform_transactions]; [intros []|].
  intros H. apply in_app_or in H as [H|H]; [|apply in_app_or in H as [H|H]].
  - destruct (_extract_staking_data transaction) as [e'|] eqn:E; [|destruct H].
    destruct H as [<-|[]].
    destruct (extract_staking_data_identity transaction e' E). left. auto.
  - right. destruct (raw_data transaction) as [raw|]; [|destruct H].
    unfold _extract_staking_from_data_entries in H.
    destruct (subscript (tx_id raw)); [|destruct H].
    destruct (subscript (height raw)); [|destruct H].
    destruct (subscript (timestamp raw)); [|destruct H].
    exact (data_entry_events_identity _ _ _ _ e H).
  - exact (IH H).
Qed.

(** C5 amended, at the balance snapshot. *)
Lemma staking_event_identities_witness :
  exists e, In e (transform_transactions [balance_snapshot])
    /\ ((StakingEventData.event_type e <> "stake_update"%string
         /\ StakingEventData.id e = event_identity e)
        \/ (StakingEventData.event_type e = "stake_update"%string
            /\ exists value : Z,
                 0 < value
                 /\ StakingEventData.amount e = snapshot_amount value
                 /\ (StakingEventData.id e = snapshot_identity e (str_int value)
                     \/ value = 1
                        /\ StakingEventData.id e = snapshot_identity e "True"))).
Proof.
  eexists. split; [left; reflexivity|].
  apply (staking_event_identities [balance_snapshot]). left. reflexivity.
Defined.

End StakingEvents.

(* ===================================================================== *)
(** ** The staking aggregator *)
(* ===================================================================== *)

Section Aggregation.
Import StakingTransformer.

Lemma has_key_lookup staker bs :
  has_key staker bs =
  match lookup_balance staker bs with Some _ => true | None => false end.
Proof.
  unfold has_key, lookup_balance.
  induction bs as [|[k v] bs IH]; cbn; [reflexivity|].
  destruct (String.eqb k staker); [reflexivity|exact IH].
Qed.

Lemma lookup_balance_app s bs k v :
  lookup_balance s (bs ++ [(k, v)]) =
  match lookup_balance s bs with
  | Some b => Some b
  | None => if String.eqb k s then Some v else None
  end.
Proof.
  unfold lookup_balance.
  induction bs as [|[k' v'] bs IH]; cbn.
  - destruct (String.eqb k s); reflexivity.
  - destruct (String.eqb k' s); [reflexivity|exact IH].
Qed.

Lemma lookup_balance_update s k f bs :
  lookup_balance s (update k f bs) =
  if String.eqb k s then option_map f (lookup_balance s bs)
  else lookup_balance s bs.
Proof.
  unfold lookup_balance.
  induction bs as [|[k' v'] bs IH]; cbn.
  - destruct (String.eqb k s); reflexivity.
  - destruct (String.eqb k' k) eqn:E1; cbn.
    + apply String.eqb_eq in E1. subst k'.
      destruct (String.eqb k s); reflexivity.
    + destruct (String.eqb k' s) eqn:E2.
      * apply String.eqb_eq in E2. subst k'.
        rewrite String.eqb_sym, E1. reflexivity.
      * exact IH.
Qed.

Lemma map_fst_update k f bs : List.map fst (update k f bs) = List.map fst bs.
Proof.
  induction bs as [|[k' v'] bs IH]; cbn; [reflexivity|].
  destruct (String.eqb k' k); cbn; [reflexivity|]. rewrite IH. reflexivity.
Qed.

Lemma lookup_balance_None s bs :
  lookup_balance s bs = None <-> ~ In s (List.map fst bs).
Proof.
  unfold lookup_balance.
  induction bs as [|[k v] bs IH]; cbn; [tauto|].
  destruct (String.eqb k s) eqn:E; cbn.
  - apply String.eqb_eq in E. split; [discriminate|]. intros H. destruct H. auto.
  - apply String.eqb_neq in E. rewrite IH. tauto.
Qed.

(** One event moves the balance of its staker and of nobody else. *)
Lemma apply_event_lookup s bs e :
  lookup_balance s (apply_event bs e) =
  if String.eqb (StakingEventData.staker_address e) s
  then Some (balance_step (get (lookup_balance s bs) (Dec.of_int 0)) e)
  else lookup_balance s bs.
Proof.
  unfold apply_event, balance_step. rewrite has_key_lookup.
  set (k := StakingEventData.staker_address e).
  set (bs' := if negb _ then _ else bs).
  assert (B : lookup_balance s bs' =
              if String.eqb k s
              then Some (get (lookup_balance s bs) (Dec.of_int 0))
              else lookup_balance s bs).
  { unfold bs'. destruct (String.eqb k s) eqn:E.
    - apply String.eqb_eq in E. subst s.
      destruct (lookup_balance k bs) eqn:L; cbn [negb get]; [exact L|].
      rewrite lookup_balance_app, L, String.eqb_refl. reflexivity.
    - destruct (lookup_balance k bs); cbn [negb]; [reflexivity|].
      rewrite lookup_balance_app, E. destruct (lookup_balance s bs); reflexivity. }
  repeat match goal with
         | |- context [if String.eqb ?a ?b then _ else _] =>
             lazymatch b with
             | s => fail
             | _ => destruct (String.eqb a b)
             end
         end;
    rewrite ?lookup_balance_update, B; destruct (String.eqb k s); reflexivity.
Qed.

Lemma apply_event_NoDup bs e :
  List.NoDup (List.map fst bs) -> List.NoDup (List.map fst (apply_event bs e)).
Proof.
  intros N. unfold apply_event. rewrite has_key_lookup.
  set (k := StakingEventData.staker_address e).
  assert (N' : List.NoDup (List.map fst
                        (if negb match lookup_balance k bs with
                                 | Some _ => true | None => false end
                         then bs ++ [(k, Dec.of_int 0)] else bs))).
  { destruct (lookup_balance k bs) eqn:L; cbn [negb]; [exact N|].
    apply lookup_balance_None in L.
    rewrite List.map_app. cbn [List.map fst].
    apply List.NoDup_app; [exact N| | ].
    - repeat constructor. intros [].
    - intros x Hx [<-|[]]. contradiction. }
  repeat match goal with
         | |- context [if String.eqb ?a ?b then _ else _] =>
             destruct (String.eqb a b)
         end; rewrite ?map_fst_update; exact N'.
Qed.

Lemma fold_apply_event_NoDup events : forall bs,
  List.NoDup (List.map fst bs) ->
  List.NoDup (List.map fst (fold_left apply_event events bs)).
Proof.
  induction events as [|e es IH]; intros bs N; [exact N|].
  cbn. apply IH, apply_event_NoDup, N.
Qed.

(** The dictionary after the loop holds, for every staker, the fold of
    that staker's own events. *)
Lemma fold_apply_event_lookup s events : forall bs,
  lookup_balance s (fold_left apply_event events bs) =
  match lookup_balance s bs with
  | Some b => Some (running_balance s events b)
  | None =>
      if has_events s events then Some (staker_balance s events) else None
  end.
Proof.
  unfold staker_balance.
  induction events as [|e es IH]; intros bs.
  - cbn. destruct (lookup_balance s bs); reflexivity.
  - cbn [fold_left has_events existsb running_balance]. rewrite IH, apply_event_lookup.
    fold (has_events s es).
    destruct (String.eqb (StakingEventData.staker_address e) s); cbn [orb].
    + destruct (lookup_balance s bs); reflexivity.
    + destruct (lookup_balance s bs); reflexivity.
Qed.

Lemma lookup_balance_filter s q bs :
  List.NoDup (List.map fst bs) ->
  lookup_balance s (List.filter q bs) =
  match lookup_balance s bs with
  | Some b => if q (s, b) then Some b else None
  | None => None
  end.
Proof.
  induction bs as [|[k v] bs IH]; cbn [List.map List.filter]; [reflexivity|].
  intros N. inversion N as [|? ? Hk N']; subst. specialize (IH N').
  unfold lookup_balance in *. cbn [List.find fst].
  destruct (String.eqb k s) eqn:E.
  - apply String.eqb_eq in E. subst s. cbn [option_map snd].
    destruct (q (k, v)); cbn [List.find fst]; [rewrite String.eqb_refl; reflexivity|].
    rewrite IH.
    assert (L : lookup_balance k bs = None) by (apply lookup_balance_None, Hk).
    unfold lookup_balance in L. rewrite L. reflexivity.
  - destruct (q (k, v)); cbn [List.find fst]; [rewrite E|]; exact IH.
Qed.




End Aggregation.

(* ===================================================================== *)
(** ** The swap transformer and the USD pass *)
(* ===================================================================== *)

Section UsdValues.
Import SwapTransformer.

(** C4.  The USD pass divides [swap.amount_in] by [10^d], and the
    transformer has already divided the raw amount by [10^d].  For a swap
    of 100000000 wavelets at 2 USD the transformer stores the amount 1 and
    the pass sets [amount_in_usd] to 0.00000002, whereas the raw amount
    normalized once and multiplied by the price is 2.  The volume uses
    truthiness, not presence: for a swap of 0 wavelets [amount_in_usd] is
    present (0) and [amount_out_usd] is 0.000002, and the volume is
    0.000002, not their average 0.000001. *)
Theorem calculate_usd_values_normalizes_twice :
  List.map SwapData.amount_in (transform_transactions [waves_for_usdn 100000000])
    = [Dec.of_int 1]
  /\ usd_fields
       (calculate_usd_values (transform_transactions [waves_for_usdn 100000000])
          sample_prices sample_decimals)
     = Ok [(Some (Dec.scaled 2 (-8)), Some (Dec.scaled 2 (-6)),
            Some (Dec.scaled 101 (-8)))]
  /\ bind (Dec.div_pow10 (Dec.of_int 100000000) 8)
       (fun normalized => Ok (Dec.mul normalized (Dec.of_int 2)))
     = Ok (Dec.of_int 2)
  /\ Dec.eqb (Dec.scaled 2 (-8)) (Dec.of_int 2) = false
  /\ usd_fields
       (calculate_usd_values (transform_transactions [waves_for_usdn 0])
          sample_prices sample_decimals)
     = Ok [(Some (Dec.of_int 0), Some (Dec.scaled 2 (-6)),
            Some (Dec.scaled 2 (-6)))]
  /\ Dec.div (Dec.add (Dec.of_int 0) (Dec.scaled 2 (-6))) (Dec.of_int 2)
     = Ok (Dec.scaled 1 (-6)).
Proof.
  repeat split; vm_compute; reflexivity.
Qed.





End UsdValues.

(* ===================================================================== *)
(** ** Spill files in general *)
(* ===================================================================== *)

Section SpillFiles.
Import BlockchainExtractor.

Lemma to_int_nonnil z :
  Z.to_int z <> Decimal.Pos Decimal.Nil /\ Z.to_int z <> Decimal.Neg Decimal.Nil.
Proof.
  destruct z as [|p|p]; cbn; split; try discriminate;
    intros H; injection H as H; revert H; apply Unsigned.to_uint_nonnil.
Qed.

(** Different integers are rendered differently. *)
Lemma str_int_inj a b : str_int a = str_int b -> a = b.
Proof.
  unfold str_int. intros H.
  apply (f_equal NilZero.int_of_string) in H.
  destruct (to_int_nonnil a), (to_int_nonnil b).
  rewrite !NilZero.isi in H by assumption.
  injection H as H. apply DecimalZ.to_int_inj, H.
Qed.

(** The spill files of one address have pairwise different names. *)
Lemma filename_inj address i j : filename address i = filename address j -> i = j.
Proof.
  unfold filename. intros E.
  apply append_cancel, append_cancel, append_cancel in E.
  apply str_int_inj, E.
Qed.

Lemma spill_names_S address n :
  spill_names address (S n) =
  spill_names address n ++ [filename address (Z.of_nat n)].
Proof. unfold spill_names. rewrite seq_S, List.map_app. reflexivity. Qed.

Lemma in_spill_names address n name :
  In name (spill_names address n) <->
  exists i, (i < n)%nat /\ name = filename address (Z.of_nat i).
Proof.
  unfold spill_names. rewrite in_map_iff. split.
  - intros (i & <- & H). apply in_seq in H. exists i. split; [lia|reflexivity].
  - intros (i & H & ->). exists i. split; [reflexivity|]. apply in_seq. lia.
Qed.

Lemma load_from_acc address n : forall acc fs,
  load_from address n acc fs =
  (acc ++ fst (load_from address n [] fs), snd (load_from address n [] fs)).
Proof.
  induction n as [|n IH]; intros acc fs; cbn [load_from].
  - rewrite app_nil_r. reflexivity.
  - destruct (fs !! filename address (Z.of_nat n)) as [transactions|].
    + rewrite IH, (IH ([] ++ rev transactions)). cbn [fst snd app].
      rewrite app_assoc. reflexivity.
    + apply IH.
Qed.

(** After the files are read, none of them is left and no other file has
    changed. *)
Lemma load_from_files address n : forall acc (fs : Files) name,
  (In name (spill_names address n) ->
   snd (load_from address n acc fs) !! name = None)
  /\ (~ In name (spill_names address n) ->
      snd (load_from address n acc fs) !! name = fs !! name).
Proof.
  induction n as [|n IH]; intros acc fs name; cbn [load_from].
  - split; [intros []|reflexivity].
  - set (f := filename address (Z.of_nat n)). rewrite spill_names_S.
    destruct (fs !! f) as [transactions|] eqn:L.
    + destruct (IH (acc ++ rev transactions) (delete f fs) name) as [I1 I2].
      split.
      * intros H. destruct (in_dec string_dec name (spill_names address n)) as [K|K];
          [exact (I1 K)|].
        apply in_app_or in H as [H|[<-|[]]]; [contradiction|].
        rewrite (I2 K). apply lookup_delete_eq.
      * intros H. rewrite I2 by (intros K; apply H, in_or_app; left; exact K).
        apply lookup_delete_ne. intros <-. apply H, in_or_app. right. left.
        reflexivity.
    + destruct (IH acc fs name) as [I1 I2]. split.
      * intros H. destruct (in_dec string_dec name (spill_names address n)) as [K|K];
          [exact (I1 K)|].
        apply in_app_or in H as [H|[<-|[]]]; [contradiction|].
        rewrite (I2 K). exact L.
      * intros H. apply I2. intros K. apply H, in_or_app. left. exact K.
Qed.

(** A file whose index is not below [n] plays no part in the reading of
    the files below [n]. *)
Lemma reversed_files_insert address n k v (fs : Files) :
  (n <= k)%nat ->
  reversed_files address n (<[filename address (Z.of_nat k) := v]> fs) =
  reversed_files address n fs.
Proof.
  induction n as [|n IH]; intros H; cbn [reversed_files]; [reflexivity|].
  rewrite IH by lia. rewrite lookup_insert_ne; [reflexivity|].
  intros E. apply filename_inj in E. lia.
Qed.

Lemma reversed_files_delete address n k (fs : Files) :
  (n <= k)%nat ->
  reversed_files address n (delete (filename address (Z.of_nat k)) fs) =
  reversed_files address n fs.
Proof.
  induction n as [|n IH]; intros H; cbn [reversed_files]; [reflexivity|].
  rewrite IH by lia. rewrite lookup_delete_ne; [reflexivity|].
  intros E. apply filename_inj in E. lia.
Qed.

(** What the reading returns: the files from the highest index down,
    each reversed. *)
Lemma load_from_result address n : forall fs,
  fst (load_from address n [] fs) = reversed_files address n fs.
Proof.
  induction n as [|n IH]; intros fs; cbn [load_from reversed_files];
    [reflexivity|].
  destruct (fs !! filename address (Z.of_nat n)) as [transactions|].
  - rewrite load_from_acc. cbn [fst app]. rewrite IH.
    rewrite reversed_files_delete by lia. reflexivity.
  - apply IH.
Qed.


Section Transparency.

Variable get_waves_transactions : string -> Z -> string -> res (list Tx).
Variable max_transactions_in_memory : Z.
Variables address last_processed_id : string.
Variable vip_functions : list string.

Local Abbreviation loop :=
  (fetch_loop get_waves_transactions max_transactions_in_memory).
Local Abbreviation pages :=
  (gather get_waves_transactions).

(** The paging loop against the same loop without spills: both stop at
    the same page, fail alike, and the files plus the buffer hold what
    the loop without spills has in its buffer. *)
Lemma fetch_loop_gather fuel : forall st,
  0 <= file_count st ->
  match loop fuel address last_processed_id vip_functions st,
        pages fuel address last_processed_id vip_functions (last_tx_id st) with
  | None, None => True
  | Some (Raise e), Some (Raise e') => e = e'
  | Some (Ok st'), Some (Ok found) =>
      file_count st <= file_count st'
      /\ (file_count st' = file_count st -> files st' = files st)
      /\ total_count st' = total_count st + len found
      /\ rev (all_transactions st')
           ++ reversed_files address (Z.to_nat (file_count st')) (files st')
         = rev found ++ rev (all_transactions st)
           ++ reversed_files address (Z.to_nat (file_count st)) (files st)
  | _, _ => False
  end.
Proof.
  induction fuel as [|fuel IH]; intros st Hk; cbn [fetch_loop gather];
    [exact I|].
  destruct (fetch_transactions_batch get_waves_transactions address 1000
              (last_tx_id st) last_processed_id) as [[batch has_more]|e];
    [|reflexivity].
  destruct batch as [|tx batch].
  { cbn [rev app]. unfold len. cbn [length].
    split; [lia|]. split; [reflexivity|]. split; [lia|reflexivity]. }
  unfold process_batch.
  destruct (find_in_batch address vip_functions (tx :: batch)) as [found|e];
    cbn [bind]; [|reflexivity].
  destruct (last_id (tx :: batch)) as [c|e]; cbn [bind]; [|reflexivity].
  set (buffer := all_transactions st ++ found).
  destruct (max_transactions_in_memory <? len buffer) eqn:Full.
  - (* the buffer goes to a file *)
    set (st1 := mkRun [] c (file_count st + 1) (total_count st + len found)
                  (_save_transactions_to_file buffer address (file_count st)
                     (files st))).
    assert (Inv : rev (all_transactions st1)
                    ++ reversed_files address (Z.to_nat (file_count st1))
                         (files st1)
                  = rev found ++ rev (all_transactions st)
                    ++ reversed_files address (Z.to_nat (file_count st))
                         (files st)).
    { unfold st1. cbn [all_transactions file_count files rev app].
      replace (Z.to_nat (file_count st + 1))
        with (S (Z.to_nat (file_count st))) by lia.
      cbn [reversed_files]. unfold _save_transactions_to_file.
      rewrite Z2Nat.id by exact Hk. rewrite lookup_insert_eq.
      rewrite <- (Z2Nat.id (file_count st)) at 2 by exact Hk.
      rewrite reversed_files_insert by lia.
      unfold buffer. rewrite rev_app_distr, app_assoc. reflexivity. }
    destruct has_more.
    + specialize (IH st1). cbn [last_tx_id st1] in IH.
      change (last_tx_id st1) with c in IH.
      destruct (loop fuel address last_processed_id vip_functions st1)
        as [[st'|e]|];
        destruct (pages fuel address last_processed_id vip_functions c)
          as [[rest|e']|]; try (apply IH; cbn; lia).
      destruct IH as (K & F & T & R); [cbn; lia|].
      cbn [file_count st1] in K. change (file_count st1) with (file_count st + 1) in *.
      change (total_count st1) with (total_count st + len found) in T.
      split; [lia|]. split; [intros; lia|]. split.
      * rewrite T, len_app. lia.
      * rewrite R, Inv, rev_app_distr, <- !app_assoc. reflexivity.
    + split; [cbn; lia|]. split; [cbn; intros; lia|].
      split; [reflexivity|exact Inv].
  - (* the buffer stays in memory *)
    set (st1 := mkRun buffer c (file_count st) (total_count st + len found)
                  (files st)).
    assert (Inv : rev (all_transactions st1)
                    ++ reversed_files address (Z.to_nat (file_count st1))
                         (files st1)
                  = rev found ++ rev (all_transactions st)
                    ++ reversed_files address (Z.to_nat (file_count st))
                         (files st)).
    { unfold st1, buffer. cbn [all_transactions file_count files].
      rewrite rev_app_distr, app_assoc. reflexivity. }
    destruct has_more.
    + specialize (IH st1). change (last_tx_id st1) with c in IH.
      destruct (loop fuel address last_processed_id vip_functions st1)
        as [[st'|e]|];
        destruct (pages fuel address last_processed_id vip_functions c)
          as [[rest|e']|]; try (apply IH; exact Hk).
      destruct (IH Hk) as (K & F & T & R).
      change (file_count st1) with (file_count st) in *.
      change (files st1) with (files st) in F.
      change (total_count st1) with (total_count st + len found) in T.
      split; [exact K|]. split; [exact F|]. split.
      * rewrite T, len_app. lia.
      * rewrite R, Inv, rev_app_distr, <- !app_assoc. reflexivity.
    + split; [cbn; lia|]. split; [reflexivity|].
      split; [reflexivity|exact Inv].
Qed.

(** X1.  Spilling is invisible in the result.  When a run of
    [fetch_all_transactions] returns, the same pages without any spill
    give a list [found] of relevant transactions in fetch order, and: with
    a file count of 0 the returned list is [found] reversed and no file
    was touched; with a positive file count the returned list is empty
    and [load_transactions_from_files] reads [found] reversed back from
    the files. *)
Theorem fetch_all_transactions_spill_transparent
    (fuel : nat) (fs fs' : Files) (transactions : list Tx) (n : Z) :
  fetch_all_transactions get_waves_transactions max_transactions_in_memory
    fuel address last_processed_id vip_functions fs
    = Some (Ok (transactions, n, fs')) ->
  exists found,
    pages fuel address last_processed_id vip_functions EmptyString
      = Some (Ok found)
    /\ 0 <= n
    /\ (n = 0 -> transactions = rev found /\ fs' = fs)
    /\ (0 < n ->
        transactions = []
        /\ fst (load_transactions_from_files address n fs') = rev found).
Proof.
  unfold fetch_all_transactions. intros H.
  pose proof (fetch_loop_gather fuel (mkRun [] EmptyString 0 0 fs)) as G.
  cbn [last_tx_id file_count files all_transactions total_count] in G.
  specialize (G (Z.le_refl 0)).
  destruct (loop fuel address last_processed_id vip_functions
              (mkRun [] EmptyString 0 0 fs)) as [[st|e]|]; try discriminate.
  destruct (pages fuel address last_processed_id vip_functions EmptyString)
    as [[found|e]|]; try contradiction.
  destruct G as (K & F & _ & R).
  change (Z.to_nat 0) with 0%nat in R. cbn [reversed_files rev app] in R.
  rewrite !app_nil_r in R.
  exists found. split; [reflexivity|].
  assert (E : finish address st = (transactions, n, fs')) by congruence.
  clear H. unfold finish in E.
  unfold load_transactions_from_files.
  destruct (0 <? file_count st) eqn:Pos.
  - apply Z.ltb_lt in Pos.
    destruct (len (all_transactions st) =? 0) eqn:Empty;
      cbn [andb negb] in E; cbv beta iota zeta in E;
      cbn [file_count all_transactions files] in E.
    + replace (file_count st =? 0) with false in E
        by (symmetry; apply Z.eqb_neq; lia).
      injection E as E1 E2 E3. subst transactions n fs'.
      apply Z.eqb_eq in Empty.
      assert (E : all_transactions st = []).
      { destruct (all_transactions st); [reflexivity|].
        unfold len in Empty. cbn [length] in Empty. lia. }
      split; [lia|]. split; [lia|]. intros _. split; [exact E|].
      rewrite load_from_result, <- R, E. reflexivity.
    + replace (file_count st + 1 =? 0) with false in E
        by (symmetry; apply Z.eqb_neq; lia).
      injection E as E1 E2 E3. subst transactions n fs'.
      split; [lia|]. split; [lia|]. intros _. split; [reflexivity|].
      rewrite load_from_result.
      replace (Z.to_nat (file_count st + 1))
        with (S (Z.to_nat (file_count st))) by lia.
      cbn [reversed_files]. unfold _save_transactions_to_file.
      rewrite Z2Nat.id by lia. rewrite lookup_insert_eq.
      rewrite <- (Z2Nat.id (file_count st)) at 2 by lia.
      rewrite reversed_files_insert by lia. exact R.
  - apply Z.ltb_ge in Pos. cbn [andb] in E. cbv beta iota zeta in E.
    assert (Z0 : file_count st = 0) by lia.
    rewrite Z0 in E. change (0 =? 0) with true in E. cbv iota in E.
    injection E as E1 E2 E3. subst transactions n fs'.
    split; [lia|]. split; [|intros; lia]. intros _.
    rewrite Z0 in R. change (Z.to_nat 0) with 0%nat in R.
    cbn [reversed_files] in R. rewrite app_nil_r in R.
    split; [exact R|]. apply F. exact Z0.
Qed.


End Transparency.

(** X1, at a source of three pages of direct pool calls and a threshold
    of 1500. *)
Lemma fetch_all_transactions_spill_transparent_witness :
  exists found,
    gather three_pages 3 "3PPool" EmptyString [] EmptyString = Some (Ok found)
    /\ 0 <= 2
    /\ (2 = 0 ->
        ([] : list Tx) = rev found
        /\ <[filename "3PPool" 1 := page "c" 400]>
             (<[filename "3PPool" 0 := page "a" 1000 ++ page "b" 1000]> ∅)
           = (∅ : Files))
    /\ (0 < 2 ->
        ([] : list Tx) = []
        /\ fst (load_transactions_from_files "3PPool" 2
                  (<[filename "3PPool" 1 := page "c" 400]>
                     (<[filename "3PPool" 0 := page "a" 1000 ++ page "b" 1000]> ∅)))
           = rev found).
Proof.
  apply (fetch_all_transactions_spill_transparent three_pages 1500 "3PPool"
           EmptyString [] 3 ∅).
  vm_compute. reflexivity.
Defined.


(** X3.  [load_transactions_from_files] returns the files from index
    [file_count - 1] down to 0, each reversed, a missing file counting for
    nothing; afterwards none of these files is left, and every other file
    is as it was. *)
Theorem load_transactions_from_files_spec (address : string) (file_count : Z)
    (fs : Files) :
  fst (load_transactions_from_files address file_count fs)
    = reversed_files address (Z.to_nat file_count) fs
  /\ forall name,
       snd (load_transactions_from_files address file_count fs) !! name
       = if in_dec string_dec name (spill_names address (Z.to_nat file_count))
         then None else fs !! name.
Proof.
  unfold load_transactions_from_files. split; [apply load_from_result|].
  intros name.
  destruct (load_from_files address (Z.to_nat file_count) [] fs name) as [A B].
  destruct (in_dec string_dec name (spill_names address (Z.to_nat file_count)));
    auto.
Qed.

Lemma before_processed_stops last_processed_id seen tx rest :
  Forall (fun t => exists i, tx_id t = Some i /\ i <> last_processed_id) seen ->
  tx_id tx = Some last_processed_id ->
  before_processed last_processed_id (seen ++ tx :: rest) = Ok seen.
Proof.
  intros F T. induction F as [|t seen (i & I & N) _ IH];
    cbn [app before_processed].
  - rewrite T. cbn [subscript bind]. rewrite String.eqb_refl. reflexivity.
  - rewrite I. cbn [subscript bind].
    apply String.eqb_neq in N. rewrite N, IH. reflexivity.
Qed.

(** X9.  With a non-empty [last_processed_id], a page in which the
    transaction of that id appears is cut just before its first
    occurrence; when the source keeps to the limit, the cut page is
    shorter than the limit and [has_more] is False: paging stops at the
    transaction processed last. *)
Theorem fetch_transactions_batch_stops_at_processed
    (get_waves_transactions : string -> Z -> string -> res (list Tx))
    (address : string) (limit : Z) (after last_processed_id : string)
    (seen : list Tx) (tx : Tx) (rest : list Tx) :
  last_processed_id <> EmptyString ->
  get_waves_transactions address limit after = Ok (seen ++ tx :: rest) ->
  Forall (fun t => exists i, tx_id t = Some i /\ i <> last_processed_id) seen ->
  tx_id tx = Some last_processed_id ->
  len (seen ++ tx :: rest) <= limit ->
  fetch_transactions_batch get_waves_transactions address limit after
    last_processed_id = Ok (seen, false).
Proof.
  intros N G F T L. unfold fetch_transactions_batch. rewrite G.
  cbn [bind]. apply String.eqb_neq in N. rewrite N. cbn [negb].
  rewrite (before_processed_stops last_processed_id seen tx rest F T).
  cbn [bind]. f_equal. f_equal. apply Z.eqb_neq.
  rewrite len_app in L. unfold len in *. cbn [length] in L. lia.
Qed.

(** X9, at a page of three calls of which the second was processed
    before. *)
Lemma fetch_transactions_batch_stops_at_processed_witness :
  fetch_transactions_batch
    (one_page [pool_call "a"; pool_call "b"; pool_call "c"]) "3PPool" 1000
    EmptyString "b" = Ok ([pool_call "a"], false).
Proof.
  apply (fetch_transactions_batch_stops_at_processed
           (one_page [pool_call "a"; pool_call "b"; pool_call "c"]) "3PPool"
           1000 EmptyString "b" [pool_call "a"] (pool_call "b") [pool_call "c"]).
  - discriminate.
  - reflexivity.
  - constructor; [|constructor]. exists "a"%string. split; [reflexivity|discriminate].
  - reflexivity.
  - vm_compute. discriminate.
Defined.




End SpillFiles.

(* ===================================================================== *)
(** ** The relevant transactions of any transaction *)
(* ===================================================================== *)

Section FindRelevantGeneral.
Import BlockchainExtractor.
Variables (target_address : string) (vip_functions : list string).

Local Abbreviation walk1 := (extract_invoke target_address vip_functions).
Local Abbreviation walk := (for_each_invoke target_address vip_functions).

Lemma relevant_set_invokes t l :
  relevant target_address vip_functions (set_invokes t l) =
  relevant target_address vip_functions t.
Proof. destruct t; reflexivity. Qed.

Lemma relevant_set_context t s h ts i :
  relevant target_address vip_functions (set_context t s h ts i) =
  relevant target_address vip_functions t.
Proof. destruct t; reflexivity. Qed.

(** What the walk appends to the collector: relevant dictionaries only,
    each with the id, height and timestamp handed down and type 16. *)
Lemma walk_found_context (h ts : Z) (i : string) node : forall sender,
  Forall (fun n => relevant target_address vip_functions n = true
                   /\ type n = Some (TInt 16) /\ tx_id n = Some i
                   /\ height n = Some h /\ timestamp n = Some ts)
    (snd (walk1 sender h ts i node)).
Proof.
  induction node as [node IH] using Tx_ind. intros sender.
  destruct (malformed target_address node) eqn:M.
  - rewrite extract_invoke_malformed by assumption. constructor.
  - destruct (malformed_dApp target_address node M) as [d D].
    rewrite (extract_invoke_sound target_address vip_functions h ts i sender node d M D).
    cbv zeta. cbn [snd]. apply Forall_app. split.
    + destruct (relevant target_address vip_functions node) eqn:R; constructor;
        [|constructor].
      rewrite relevant_set_invokes, relevant_set_context.
      repeat split; [exact R]. 
    + clear M D. induction (sc_invokes node) as [|x l IHl]; [constructor|].
      rewrite for_each_invoke_cons. cbn [snd]. apply Forall_app.
      inversion IH; subst. split; [auto|]. apply IHl. assumption.
Qed.

Lemma walk_list_found_context (h ts : Z) (i : string) sender l :
  Forall (fun n => relevant target_address vip_functions n = true
                   /\ type n = Some (TInt 16) /\ tx_id n = Some i
                   /\ height n = Some h /\ timestamp n = Some ts)
    (snd (walk sender h ts i l)).
Proof.
  induction l as [|x l IHl]; [constructor|].
  rewrite for_each_invoke_cons. cbn [snd]. apply Forall_app.
  split; [apply walk_found_context|exact IHl].
Qed.

Lemma unwrap_keys tx tx' :
  unwrap tx = Ok tx' ->
  tx_id tx' = tx_id tx /\ height tx' = height tx
  /\ timestamp tx' = timestamp tx.
Proof.
  unfold unwrap. destruct (type tx) as [ty|]; [|discriminate]. cbn [subscript bind].
  destruct (is_type ty 18).
  - destruct (payload tx) as [p|]; cbn [subscript bind]; [|discriminate].
    destruct (tx_id tx) as [i|]; cbn [subscript bind]; [|discriminate].
    destruct (timestamp tx) as [ts|]; cbn [subscript bind]; [|discriminate].
    destruct (height tx) as [h|]; cbn [subscript bind]; [|discriminate].
    destruct (sender tx) as [s|]; cbn [subscript bind]; [|discriminate].
    destruct (type p) as [pty|]; cbn [subscript bind]; [|discriminate].
    intros E. injection E as <-. repeat split.
  - intros E. injection E as <-. repeat split.
Qed.

Lemma subscript_raises {A} (f : option A) e : subscript f = Raise e -> e = KeyError.
Proof. destruct f; [discriminate|]. intros E. injection E as <-. reflexivity. Qed.

Lemma unwrap_raises tx e : unwrap tx = Raise e -> e = KeyError.
Proof.
  unfold unwrap. destruct (type tx) as [ty|]; cbn [subscript bind];
    [|intros E; injection E as <-; reflexivity].
  destruct (is_type ty 18); [|discriminate].
  destruct (payload tx) as [p|]; cbn [subscript bind];
    [|intros E; injection E as <-; reflexivity].
  destruct (tx_id tx) as [i|]; cbn [subscript bind];
    [|intros E; injection E as <-; reflexivity].
  destruct (timestamp tx) as [ts|]; cbn [subscript bind];
    [|intros E; injection E as <-; reflexivity].
  destruct (height tx) as [h|]; cbn [subscript bind];
    [|intros E; injection E as <-; reflexivity].
  destruct (sender tx) as [s|]; cbn [subscript bind];
    [|intros E; injection E as <-; reflexivity].
  destruct (type p) as [pty|]; cbn [subscript bind];
    [discriminate|intros E; injection E as <-; reflexivity].
Qed.

(** [_find_relevant_transactions] raises nothing but [KeyError]. *)
Lemma find_relevant_raises tx e :
  _find_relevant_transactions tx target_address vip_functions = Raise e ->
  e = KeyError.
Proof.
  unfold _find_relevant_transactions.
  destruct (negb (is_succeeded (applicationStatus tx))); [discriminate|].
  destruct (unwrap tx) as [tx'|e'] eqn:U; cbn [bind];
    [|intros E; injection E as <-; apply (unwrap_raises tx), U].
  destruct (type tx') as [ty|]; cbn [subscript bind];
    [|intros E; injection E as <-; reflexivity].
  destruct (is_type ty 16); [|discriminate].
  rewrite is_relevant_spec.
  destruct (malformed target_address tx'); cbn [bind];
    [intros E; injection E as <-; reflexivity|].
  destruct (sc_invokes tx') as [|x l]; [discriminate|].
  destruct (dApp tx'); cbn [subscript bind];
    [|intros E; injection E as <-; reflexivity].
  destruct (height tx'); cbn [subscript bind];
    [|intros E; injection E as <-; reflexivity].
  destruct (timestamp tx'); cbn [subscript bind];
    [|intros E; injection E as <-; reflexivity].
  destruct (tx_id tx'); cbn [subscript bind];
    [|intros E; injection E as <-; reflexivity].
  destruct (_extract_invokes _ _ _ _ _ _ _ _). discriminate.
Qed.

Lemma find_in_batch_raises batch e :
  find_in_batch target_address vip_functions batch = Raise e -> e = KeyError.
Proof.
  induction batch as [|tx batch IH]; cbn [find_in_batch]; [discriminate|].
  destruct (_find_relevant_transactions tx target_address vip_functions)
    as [found|e'] eqn:F; cbn [bind].
  - destruct (find_in_batch target_address vip_functions batch) as [rest|e''];
      cbn [bind]; [discriminate|].
    intros E. injection E as <-. apply IH. reflexivity.
  - intros E. injection E as <-. apply (find_relevant_raises tx), F.
Qed.

(** X4.  Whatever the transaction, every dictionary
    [_find_relevant_transactions] returns passes the relevance test, has
    type 16 and carries the id, the height and the timestamp of the
    top-level transaction. *)
Theorem find_relevant_transactions_sound (transaction : Tx) (result : list Tx) :
  _find_relevant_transactions transaction target_address vip_functions = Ok result ->
  Forall (fun n => relevant target_address vip_functions n = true
                   /\ type n = Some (TInt 16)
                   /\ tx_id n = tx_id transaction
                   /\ height n = height transaction
                   /\ timestamp n = timestamp transaction) result.
Proof.
  unfold _find_relevant_transactions.
  destruct (negb (is_succeeded (applicationStatus transaction)));
    [intros E; injection E as <-; constructor|].
  destruct (unwrap transaction) as [tx'|e'] eqn:U; cbn [bind]; [|discriminate].
  destruct (unwrap_keys transaction tx' U) as (Ki & Kh & Kts).
  rewrite <- Ki, <- Kh, <- Kts. clear U Ki Kh Kts.
  destruct (type tx') as [ty|] eqn:Ty; cbn [subscript bind]; [|discriminate].
  destruct (is_type ty 16) eqn:T16; [|intros E; injection E as <-; constructor].
  assert (ty = TInt 16) as ->.
  { destruct ty as [m|s]; [|discriminate]. cbn in T16.
    apply Z.eqb_eq in T16. subst m. reflexivity. }
  rewrite is_relevant_spec.
  destruct (malformed target_address tx'); cbn [bind]; [discriminate|].
  destruct (sc_invokes tx') as [|x l] eqn:Inv.
  - intros E. injection E as <-.
    destruct (relevant target_address vip_functions tx') eqn:R; constructor;
      [|constructor]. repeat split; assumption.
  - destruct (dApp tx') as [d|]; cbn [subscript bind]; [|discriminate].
    destruct (height tx') as [h|] eqn:H; cbn [subscript bind]; [|discriminate].
    destruct (timestamp tx') as [ts|] eqn:Ts; cbn [subscript bind]; [|discriminate].
    destruct (tx_id tx') as [i|] eqn:I; cbn [subscript bind]; [|discriminate].
    unfold _extract_invokes.
    pose proof (walk_list_found_context h ts i d (x :: l)) as W.
    destruct (for_each_invoke target_address vip_functions d h ts i (x :: l))
      as [nested found].
    cbn [snd app] in *. intros E. injection E as <-.
    apply Forall_app. split; [|exact W].
    destruct (relevant target_address vip_functions tx') eqn:R; constructor;
      [|constructor].
    rewrite relevant_set_invokes. destruct tx'; cbn in *. repeat split; assumption.
Qed.

(** X5.  A succeeded transaction of type 16 whose own relevance test
    finds its keys: the result is the transaction as the walk left it,
    listed in pre-order without the subtrees of malformed nodes, filtered
    by relevance.  No completeness of the nested nodes is assumed. *)
Theorem find_relevant_transactions_visit (transaction : Tx)
    (d : string) (h ts : Z) (i : string) :
  applicationStatus transaction = Some "succeeded"%string ->
  type transaction = Some (TInt 16) ->
  malformed target_address transaction = false ->
  dApp transaction = Some d ->
  height transaction = Some h ->
  timestamp transaction = Some ts ->
  tx_id transaction = Some i ->
  let root :=
    set_invokes transaction
      (fst (_extract_invokes (sc_invokes transaction) target_address d h ts i
              [] vip_functions)) in
  _find_relevant_transactions transaction target_address vip_functions =
  Ok (List.filter (relevant target_address vip_functions)
        (visit target_address root)).
Proof.
  intros Hs Hty M D Hh Hts Hi root.
  assert (V : visit target_address root =
              root :: flat_map (visit target_address) (sc_invokes root)).
  { assert (M' : malformed target_address root = false)
      by (rewrite <- M; unfold root; destruct transaction; reflexivity).
    rewrite visit_eq, M'. reflexivity. }
  rewrite V. cbn [List.filter]. unfold root at 1.
  rewrite relevant_set_invokes.
  unfold _find_relevant_transactions, unwrap.
  rewrite Hs, Hty. cbn [is_succeeded subscript bind is_type].
  change (String.eqb "succeeded" "succeeded") with true. cbn [negb].
  change (16 =? 18) with false. cbv iota. cbn [bind].
  rewrite Hty. cbn [subscript bind]. change (is_type (TInt 16) 16) with true.
  cbv iota. rewrite is_relevant_spec, M. cbn [bind].
  assert (W : forall l,
             snd (walk d h ts i l) =
             List.filter (relevant target_address vip_functions)
               (flat_map (visit target_address) (fst (walk d h ts i l)))).
  { intros l. apply walk_collects_list. apply List.Forall_forall.
    intros n _ s. apply walk_collects_node. }
  unfold root. unfold _extract_invokes.
  destruct (sc_invokes transaction) as [|x l] eqn:E.
  - cbn [for_each_invoke fst sc_invokes set_invokes flat_map List.filter].
    rewrite <- E, set_invokes_same.
    destruct (relevant target_address vip_functions transaction); reflexivity.
  - rewrite D, Hh, Hts, Hi. cbn [subscript bind].
    specialize (W (x :: l)).
    destruct (for_each_invoke target_address vip_functions d h ts i (x :: l))
      as [nested found].
    cbn [fst snd app] in *. rewrite W.
    assert (S : sc_invokes (set_invokes transaction nested) = nested)
      by (destruct transaction; reflexivity).
    rewrite S.
    destruct (relevant target_address vip_functions transaction); reflexivity.
Qed.

(** X6.  A succeeded transaction whose type is an integer other than 16
    and 18 yields the empty list; one without the key [type] raises
    [KeyError]. *)
Theorem find_relevant_transactions_other_types (transaction : Tx) :
  applicationStatus transaction = Some "succeeded"%string ->
  (type transaction = None ->
   _find_relevant_transactions transaction target_address vip_functions
   = Raise KeyError)
  /\ (forall m, type transaction = Some (TInt m) -> m <> 16 -> m <> 18 ->
      _find_relevant_transactions transaction target_address vip_functions
      = Ok []).
Proof.
  intros Hs. unfold _find_relevant_transactions, unwrap. rewrite Hs.
  cbn [is_succeeded]. change (String.eqb "succeeded" "succeeded") with true.
  cbn [negb]. split.
  - intros ->. reflexivity.
  - intros m Hty N16 N18. rewrite Hty. cbn [subscript bind is_type].
    apply Z.eqb_neq in N16, N18. rewrite N18. cbn [bind subscript].
    rewrite Hty. cbn [subscript bind is_type]. rewrite N16. reflexivity.
Qed.

Lemma find_relevant_malformed_root bad :
  applicationStatus bad = Some "succeeded"%string ->
  type bad = Some (TInt 16) ->
  malformed target_address bad = true ->
  _find_relevant_transactions bad target_address vip_functions = Raise KeyError.
Proof.
  intros Hs Hty M. unfold _find_relevant_transactions, unwrap.
  rewrite Hs, Hty. cbn [is_succeeded subscript bind is_type].
  change (String.eqb "succeeded" "succeeded") with true. cbn [negb].
  change (16 =? 18) with false. cbv iota. cbn [bind].
  rewrite Hty. cbn [subscript bind]. change (is_type (TInt 16) 16) with true.
  cbv iota. rewrite is_relevant_spec, M. reflexivity.
Qed.

Lemma find_in_batch_malformed_root before bad after :
  applicationStatus bad = Some "succeeded"%string ->
  type bad = Some (TInt 16) ->
  malformed target_address bad = true ->
  find_in_batch target_address vip_functions (before ++ bad :: after)
  = Raise KeyError.
Proof.
  intros Hs Hty M. induction before as [|x before IH];
    cbn [app find_in_batch].
  - rewrite find_relevant_malformed_root by assumption. reflexivity.
  - destruct (_find_relevant_transactions x target_address vip_functions)
      as [found|e] eqn:F; cbn [bind].
    + rewrite IH. reflexivity.
    + rewrite (find_relevant_raises x e F). reflexivity.
Qed.

(** X7.  Unlike a malformed nested node, which is skipped, a malformed
    top-level transaction is fatal: when the first page holds a succeeded
    transaction of type 16 that fails the relevance test for want of a
    key, [fetch_all_transactions] raises [KeyError], whatever else the
    page holds and whatever the memory threshold. *)
Theorem malformed_root_aborts_run
    (get_waves_transactions : string -> Z -> string -> res (list Tx))
    (max_transactions_in_memory : Z) (fuel : nat) (last_processed_id : string)
    (fs : Files) (before : list Tx) (bad : Tx) (after : list Tx)
    (has_more : bool) :
  fetch_transactions_batch get_waves_transactions target_address 1000
    EmptyString last_processed_id = Ok (before ++ bad :: after, has_more) ->
  applicationStatus bad = Some "succeeded"%string ->
  type bad = Some (TInt 16) ->
  malformed target_address bad = true ->
  fetch_all_transactions get_waves_transactions max_transactions_in_memory
    (S fuel) target_address last_processed_id vip_functions fs
  = Some (Raise KeyError).
Proof.
  intros B Hs Hty M. unfold fetch_all_transactions.
  cbn [fetch_loop last_tx_id]. rewrite B.
  pose proof (find_in_batch_malformed_root before bad after Hs Hty M) as F.
  destruct (before ++ bad :: after) as [|x l] eqn:E.
  - destruct before; discriminate.
  - unfold process_batch. rewrite F. reflexivity.
Qed.


End FindRelevantGeneral.

Section FindRelevantGeneralWitnesses.
Import BlockchainExtractor.

(** X4, at the routed swap. *)
Lemma find_relevant_transactions_sound_witness :
  Forall (fun n => relevant "3PPool" ["swap"%string] n = true
                   /\ type n = Some (TInt 16)
                   /\ tx_id n = tx_id routed_swap
                   /\ height n = height routed_swap
                   /\ timestamp n = timestamp routed_swap)
    [set_invokes routed_swap
       [inherit "3PRouter" 100 1700000000000 "tx1"
          (invoke_node (Some "3PPool"%string) (Some (mkCall (Some "swap"%string))) [])];
     inherit "3PRouter" 100 1700000000000 "tx1"
       (invoke_node (Some "3PPool"%string) (Some (mkCall (Some "swap"%string))) [])].
Proof.
  apply (find_relevant_transactions_sound "3PPool" ["swap"%string] routed_swap).
  vm_compute. reflexivity.
Defined.

(** X5, at the transaction whose only nested node is malformed: the
    router is not the pool, the malformed node and the pool call nested
    in it are left out, nothing is returned. *)
Lemma find_relevant_transactions_visit_witness :
  _find_relevant_transactions hiding_tx "3PPool" [] =
  Ok (List.filter (relevant "3PPool" [])
        (visit "3PPool"
           (set_invokes hiding_tx
              (fst (_extract_invokes (sc_invokes hiding_tx) "3PPool" "3PRouter"
                      101 1700000000001 "tx2" [] []))))).
Proof.
  exact (find_relevant_transactions_visit "3PPool" [] hiding_tx "3PRouter" 101
           1700000000001 "tx2" eq_refl eq_refl eq_refl eq_refl eq_refl eq_refl
           eq_refl).
Defined.

(** X6, at a succeeded transfer (type 4). *)
Lemma find_relevant_transactions_other_types_witness :
  _find_relevant_transactions plain_transfer "3PPool" [] = Ok [].
Proof.
  refine (proj2 (find_relevant_transactions_other_types "3PPool" []
                   plain_transfer eq_refl) 4 eq_refl _ _); lia.
Defined.

(** X7, at a page of one good and one malformed transaction. *)
Lemma malformed_root_aborts_run_witness :
  fetch_all_transactions (one_page [pool_call "a"; malformed_root]) 300000 1
    "3PPool" EmptyString [] ∅ = Some (Raise KeyError).
Proof.
  apply (malformed_root_aborts_run "3PPool" []
           (one_page [pool_call "a"; malformed_root]) 300000 0 EmptyString ∅
           [pool_call "a"] malformed_root [] false);
    vm_compute; reflexivity.
Defined.


End FindRelevantGeneralWitnesses.

(* ===================================================================== *)
(** ** The registries *)
(* ===================================================================== *)

Section Registries.

Lemma str_in_In x l : str_in x l = true <-> In x l.
Proof.
  unfold str_in. rewrite existsb_exists. split.
  - intros (y & H & E). apply String.eqb_eq in E. subst y. exact H.
  - intros H. exists x. split; [exact H|apply String.eqb_refl].
Qed.

(** Case analysis on a key found in a table given as a list. *)
Ltac table_cases H :=
  apply elem_of_list_to_map_2 in H;
  repeat (apply elem_of_cons in H as [H|H];
          [apply pair_equal_spec in H as [-> H]|]);
  [..|apply elem_of_nil in H; destruct H].

(** X10.  A raw amount of at most 28 digits survives the round trip
    through [normalize_amount] and [denormalize_amount], for every asset. *)
Theorem denormalize_normalize_roundtrip (asset_id : string) (raw : Z) :
  Z.abs raw < 10 ^ 28 ->
  exists x,
    AssetMapping.normalize_amount asset_id raw = Ok x
    /\ AssetMapping.denormalize_amount asset_id x = raw.
Proof.
  intros U.
  assert (D : 0 <= AssetMapping.get_asset_decimals asset_id)
    by (destruct (get_asset_decimals_range asset_id); lia).
  destruct (normalize_amount_normalized asset_id raw) as (x & E & _ & _ & V).
  exists x. split; [exact E|].
  unfold AssetMapping.denormalize_amount.
  apply mul_pow10_to_int; [exact (V U)|exact U|exact D].
Qed.

(** X10, at 1.5 WAVES. *)
Lemma denormalize_normalize_roundtrip_witness :
  exists x,
    AssetMapping.normalize_amount AssetMapping.WAVES_ID 150000000 = Ok x
    /\ AssetMapping.denormalize_amount AssetMapping.WAVES_ID x = 150000000.
Proof.
  apply (denormalize_normalize_roundtrip AssetMapping.WAVES_ID 150000000).
  vm_compute. reflexivity.
Defined.

(** X11.  The two ways of asking whether a function is a swap, staking,
    lending or pool function agree: it is in the list of the kind exactly
    when [get_function_category] gives the kind.  A function is therefore
    of one kind at most. *)
Theorem function_lists_match_categories (function_name : string) :
  (FunctionMapping.is_swap_function function_name = true
   <-> FunctionMapping.get_function_category function_name = "swap"%string)
  /\ (FunctionMapping.is_staking_function function_name = true
      <-> FunctionMapping.get_function_category function_name = "staking"%string)
  /\ (FunctionMapping.is_lending_function function_name = true
      <-> FunctionMapping.get_function_category function_name = "lending"%string)
  /\ (FunctionMapping.is_pool_function function_name = true
      <-> FunctionMapping.get_function_category function_name = "pool"%string).
Proof.
  unfold FunctionMapping.is_swap_function, FunctionMapping.is_staking_function,
    FunctionMapping.is_lending_function, FunctionMapping.is_pool_function.
  rewrite !str_in_In.
  assert (B : forall kind,
            FunctionMapping.get_function_category function_name = kind ->
            kind <> "unknown"%string ->
            FunctionMapping.FUNCTION_CATEGORIES !! function_name = Some kind).
  { unfold FunctionMapping.get_function_category. intros kind E N.
    destruct (FunctionMapping.FUNCTION_CATEGORIES !! function_name);
      cbn [get] in E; [congruence|]. symmetry in E. contradiction. }
  split; [|split; [|split]];
    (split;
     [ intros H; cbn in H;
       repeat (destruct H as [<-|H]; [vm_compute; reflexivity|]); destruct H
     | intros H; apply B in H; [|discriminate];
       unfold FunctionMapping.FUNCTION_CATEGORIES in H; table_cases H;
       first [discriminate H | cbn; tauto] ]).
Qed.

(** X12.  An address is in the staking list exactly when its type is
    ["staking"], and in the lending list exactly when its type is
    ["lending"]; no address has the type ["pool"], so the list of pool
    addresses is empty. *)
Theorem address_lists_match_types (address : string) :
  (AddressMapping.is_staking_address address = true
   <-> AddressMapping.get_address_type address = "staking"%string)
  /\ (AddressMapping.is_lending_address address = true
      <-> AddressMapping.get_address_type address = "lending"%string)
  /\ AddressMapping.get_address_type address <> "pool"%string
  /\ AddressMapping.get_pool_addresses = [].
Proof.
  unfold AddressMapping.is_staking_address, AddressMapping.is_lending_address.
  rewrite !str_in_In.
  assert (B : forall kind,
            AddressMapping.get_address_type address = kind ->
            kind <> "unknown"%string ->
            AddressMapping.ADDRESS_TYPES !! address = Some kind).
  { unfold AddressMapping.get_address_type. intros kind E N.
    destruct (AddressMapping.ADDRESS_TYPES !! address);
      cbn [get] in E; [congruence|]. symmetry in E. contradiction. }
  split; [|split; [|split]].
  - split.
    + intros H. cbn in H.
      repeat (destruct H as [<-|H]; [vm_compute; reflexivity|]). destruct H.
    + intros H. apply B in H; [|discriminate].
      unfold AddressMapping.ADDRESS_TYPES in H. table_cases H;
        first [discriminate H | cbn; tauto].
  - split.
    + intros H. cbn in H.
      repeat (destruct H as [<-|H]; [vm_compute; reflexivity|]). destruct H.
    + intros H. apply B in H; [|discriminate].
      unfold AddressMapping.ADDRESS_TYPES in H. table_cases H;
        first [discriminate H | cbn; tauto].
  - intros H. apply B in H; [|discriminate].
    unfold AddressMapping.ADDRESS_TYPES in H. table_cases H; discriminate H.
  - vm_compute. reflexivity.
Qed.

(** X13.  Every asset of the registry is filed under its own id, and the
    set of stablecoins is the set of the assets of the registry whose
    type is ["stable"]. *)
Theorem asset_registry_consistent (asset_id : string) :
  (forall info, AssetMapping.get_asset_info asset_id = Some info ->
                AssetMapping.id info = asset_id)
  /\ (AssetMapping.is_stablecoin asset_id = true
      <-> is_Some (AssetMapping.get_stablecoins !! asset_id)).
Proof.
  assert (R : forall info,
            AssetMapping.get_asset_info asset_id = Some info ->
            AssetMapping.id info = asset_id
            /\ (AssetMapping.asset_type info = "stable"%string ->
                AssetMapping.is_stablecoin asset_id = true)).
  { unfold AssetMapping.get_asset_info, AssetMapping.get_all_assets,
      AssetMapping.LP_TOKENS, AssetMapping.DEFI_TOKENS, AssetMapping.MAJOR_ASSETS.
    intros info H.
    repeat (apply lookup_union_Some_raw in H as [H|[_ H]]);
      try (apply elem_of_list_to_map_2 in H;
           repeat (apply elem_of_cons in H as [H|H];
                   [injection H as -> ->; split;
                    [reflexivity
                    |cbn; first [discriminate|intros _; vm_compute; reflexivity]]|]);
           apply elem_of_nil in H; destruct H).
    rewrite lookup_empty in H. discriminate. }
  split; [intros info H; apply (R info H)|].
  unfold AssetMapping.get_stablecoins, AssetMapping.get_assets_by_type. split.
  - unfold AssetMapping.is_stablecoin. rewrite str_in_In. intros H. cbn in H.
    repeat (destruct H as [<-|H]; [vm_compute; eauto|]). destruct H.
  - intros [info H]. apply map_lookup_filter_Some in H as [H T].
    apply (R info H), T.
Qed.

(** X11, at [swap]. *)
Lemma function_lists_match_categories_witness :
  FunctionMapping.get_function_category "swap" = "swap"%string.
Proof.
  apply (proj1 (proj1 (function_lists_match_categories "swap"))).
  vm_compute. reflexivity.
Defined.

(** X12, at the Puzzle staking contract. *)
Lemma address_lists_match_types_witness :
  AddressMapping.get_address_type AddressMapping.PUZZLE_STAKING_ADDRESS
  = "staking"%string.
Proof.
  apply (proj1 (proj1 (address_lists_match_types
                         AddressMapping.PUZZLE_STAKING_ADDRESS))).
  vm_compute. reflexivity.
Defined.

(** X13, at USDN. *)
Lemma asset_registry_consistent_witness :
  is_Some (AssetMapping.get_stablecoins !! AssetMapping.USDN_ID).
Proof.
  apply (proj1 (proj2 (asset_registry_consistent AssetMapping.USDN_ID))).
  vm_compute. reflexivity.
Defined.

End Registries.

(* ===================================================================== *)
(** ** The swap transformer in general *)
(* ===================================================================== *)

Section Swaps.
Import SwapTransformer.

Lemma get_pool_addresses_empty : AddressMapping.get_pool_addresses = [].
Proof. vm_compute. reflexivity. Qed.


(** X14.  No address has the type ["pool"], so the two address tests of
    [_is_swap_transaction] never succeed: a transaction is taken for a
    swap exactly when its type is 16 and its raw data names one of the
    swap functions. *)
Theorem is_swap_transaction_iff (transaction : WavesTransaction) :
  _is_swap_transaction transaction = true
  <-> w_type transaction = 16
      /\ exists invoke_data f,
           raw_data transaction = Some invoke_data
           /\ FunctionMapping.extract_function_from_invoke invoke_data = Some f
           /\ In f FunctionMapping.SWAP_FUNCTIONS.
Proof.
  unfold _is_swap_transaction. rewrite get_pool_addresses_empty.
  cbn [str_in existsb].
  destruct (Z.eqb_spec (w_type transaction) 16) as [T|T]; cbn [negb].
  - destruct (raw_data transaction) as [invoke_data|].
    + cbv zeta. rewrite andb_false_r.
      destruct (FunctionMapping.extract_function_from_invoke invoke_data)
        as [f|] eqn:F; cbn [str_truthy get andb].
      * split.
        -- intros H. apply andb_prop in H as [_ H].
           apply str_in_In in H. split; [exact T|].
           exists invoke_data, f. auto.
        -- intros (_ & d & f' & D & F' & H).
           injection D as <-. rewrite F in F'. injection F' as <-.
           apply andb_true_intro. split; [|apply str_in_In, H].
           destruct f as [|c f]; [|reflexivity].
           cbn in H. repeat (destruct H as [H|H]; [discriminate|]). destruct H.
      * split; [discriminate|].
        intros (_ & d & f' & D & F' & _). injection D as <-. congruence.
    + split; [discriminate|]. intros (_ & d & f' & D & _). discriminate.
  - split; [discriminate|]. intros [T' _]. contradiction.
Qed.

(** X14, at the swap of 1 WAVES for 2 USDN. *)
Lemma is_swap_transaction_iff_witness :
  w_type (waves_for_usdn 100000000) = 16
  /\ exists invoke_data f,
       raw_data (waves_for_usdn 100000000) = Some invoke_data
       /\ FunctionMapping.extract_function_from_invoke invoke_data = Some f
       /\ In f FunctionMapping.SWAP_FUNCTIONS.
Proof.
  apply (proj1 (is_swap_transaction_iff (waves_for_usdn 100000000))).
  vm_compute. reflexivity.
Defined.



(** X16.  The transformer works transaction by transaction: the swaps of
    a concatenation are the swaps of the parts, in order, and there is at
    most one swap per transaction. *)
Theorem swap_transform_transactions_app (l1 l2 : list WavesTransaction) :
  transform_transactions (l1 ++ l2)
    = transform_transactions l1 ++ transform_transactions l2
  /\ (length (transform_transactions l1) <= length l1)%nat.
Proof.
  split.
  - induction l1 as [|transaction rest IH]; cbn [app transform_transactions];
      [reflexivity|].
    rewrite IH, app_assoc. reflexivity.
  - induction l1 as [|transaction rest IH]; cbn [transform_transactions];
      [cbn; lia|].
    rewrite length_app. cbn [length].
    destruct (_is_swap_transaction transaction); [|cbn [length]; lia].
    destruct (_extract_swap_data transaction); cbn [length]; lia.
Qed.

Lemma div_pow10_total a k :
  0 <= k -> exists q, Dec.div_pow10 a k = Ok q.
Proof.
  intros K. unfold Dec.div_pow10.
  destruct (Z.ltb_spec k 0); [lia|].
  destruct (div_total a (Dec.of_int (10 ^ k))) as (q & E & _); [|eauto].
  rewrite of_int_pow10 by exact K. cbn.
  pose proof (pow10_of_N k K). pose proof (pow10_gt0 k K). lia.
Qed.

Lemma div_pow10_raises a k e : Dec.div_pow10 a k = Raise e -> e = TypeError.
Proof.
  unfold Dec.div_pow10. destruct (Z.ltb_spec k 0).
  - intros E. injection E as <-. reflexivity.
  - destruct (div_pow10_total a k) as [q E]; [assumption|].
    unfold Dec.div_pow10 in E. destruct (Z.ltb_spec k 0); [lia|].
    rewrite E. discriminate.
Qed.

Lemma div_by_two a : exists q, Dec.div a (Dec.of_int 2) = Ok q.
Proof.
  destruct (div_total a (Dec.of_int 2)) as (q & E & _); [discriminate|eauto].
Qed.

(** What the USD pass does to one swap: it sets the three USD fields,
    or raises [TypeError]. *)
Lemma usd_values_spec price_data asset_decimals swap :
  (exists a b v,
     usd_values price_data asset_decimals swap = Ok (SwapData.set_usd swap a b v))
  \/ usd_values price_data asset_decimals swap = Raise TypeError.
Proof.
  unfold usd_values.
  destruct (Dec.div_pow10 (SwapData.amount_in swap) _) as [n_in|e] eqn:E1;
    cbn [bind]; [|right; rewrite (div_pow10_raises _ _ _ E1); reflexivity].
  destruct (Dec.div_pow10 (SwapData.amount_out swap) _) as [n_out|e] eqn:E2;
    cbn [bind]; [|right; rewrite (div_pow10_raises _ _ _ E2); reflexivity].
  left.
  set (a := if Dec.truthy _ then Some (Dec.mul n_in _) else None).
  set (b := if Dec.truthy _ then Some (Dec.mul n_out _) else None).
  destruct (opt_truthy a && opt_truthy b).
  - destruct a as [x|], b as [y|]; cbn [bind]; eauto.
    destruct (div_by_two (Dec.add x y)) as [q ->]. cbn [bind]. eauto.
  - destruct (opt_truthy a); cbn [bind]; eauto.
    destruct (opt_truthy b); cbn [bind]; eauto.
Qed.

Lemma usd_values_set_usd price_data asset_decimals swap a b v :
  usd_values price_data asset_decimals (SwapData.set_usd swap a b v)
  = match usd_values price_data asset_decimals swap with
    | Ok swap' =>
        Ok (SwapData.set_usd swap' (SwapData.amount_in_usd swap')
              (SwapData.amount_out_usd swap') (SwapData.volume_usd swap'))
    | Raise e => Raise e
    end.
Proof.
  unfold usd_values. cbn [SwapData.set_usd SwapData.asset_in_id
    SwapData.asset_out_id SwapData.amount_in SwapData.amount_out].
  destruct (Dec.div_pow10 (SwapData.amount_in swap) _) as [n_in|e];
    cbn [bind]; [|reflexivity].
  destruct (Dec.div_pow10 (SwapData.amount_out swap) _) as [n_out|e];
    cbn [bind]; [|reflexivity].
  match goal with
  | |- bind ?m _ = _ => destruct m as [vol|e]; cbn [bind]; reflexivity
  end.
Qed.

(** X17.  The USD pass keeps the number and the order of the swaps and
    changes nothing but the three USD fields; run again on its own result,
    with the same prices and decimals, it returns that result. *)
Theorem swap_calculate_usd_values_fields (swaps updated : list SwapData.t)
    (price_data : gmap string Decimal) (asset_decimals : gmap string Z) :
  calculate_usd_values swaps price_data asset_decimals = Ok updated ->
  Forall2 (fun swap swap' => exists a b v, swap' = SwapData.set_usd swap a b v)
    swaps updated
  /\ calculate_usd_values updated price_data asset_decimals = Ok updated.
Proof.
  revert updated. induction swaps as [|swap rest IH]; intros updated;
    cbn [calculate_usd_values].
  - intros E. injection E as <-. split; [constructor|reflexivity].
  - destruct (usd_values price_data asset_decimals swap) as [swap'|e] eqn:U;
      cbn [bind]; [|discriminate].
    destruct (calculate_usd_values rest price_data asset_decimals)
      as [rest'|e]; cbn [bind]; [|discriminate].
    intros E. injection E as <-.
    destruct (IH rest' eq_refl) as [F I].
    destruct (usd_values_spec price_data asset_decimals swap)
      as [(a & b & v & U')|U']; [|congruence].
    assert (swap' = SwapData.set_usd swap a b v) as -> by congruence.
    split; [constructor; eauto|].
    cbn [calculate_usd_values]. rewrite usd_values_set_usd, U', I.
    reflexivity.
Qed.


(** X17, at the swap of 1 WAVES for 2 USDN. *)
Lemma swap_calculate_usd_values_fields_witness :
  Forall2 (fun swap swap' => exists a b v, swap' = SwapData.set_usd swap a b v)
    [one_waves_swap] [one_waves_swap_usd]
  /\ calculate_usd_values [one_waves_swap_usd] sample_prices sample_decimals
     = Ok [one_waves_swap_usd].
Proof.
  apply (swap_calculate_usd_values_fields [one_waves_swap] [one_waves_swap_usd]
           sample_prices sample_decimals).
  vm_compute. reflexivity.
Defined.

Lemma get_decimals_nonneg (asset_decimals : gmap string Z) asset_id :
  (forall a k, asset_decimals !! a = Some k -> 0 <= k) ->
  0 <= get (asset_decimals !! asset_id) 8.
Proof.
  intros H. destruct (asset_decimals !! asset_id) as [k|] eqn:E; cbn [get];
    [exact (H _ _ E)|lia].
Qed.

Lemma get_price_falsy (price_data : gmap string Decimal) asset_id :
  (forall a p, price_data !! a = Some p -> Dec.truthy p = false) ->
  Dec.truthy (get (price_data !! asset_id) (Dec.of_int 0)) = false.
Proof.
  intros H. destruct (price_data !! asset_id) as [p|] eqn:E; cbn [get];
    [exact (H _ _ E)|reflexivity].
Qed.

(** X18.  Where no asset has a price other than zero and no decimals are
    negative, the USD pass succeeds and leaves every swap with its three
    USD fields set to [None]: a missing price and a price of zero are not
    told apart, and neither is an error. *)
Theorem swap_calculate_usd_values_without_prices (swaps : list SwapData.t)
    (price_data : gmap string Decimal) (asset_decimals : gmap string Z) :
  (forall a k, asset_decimals !! a = Some k -> 0 <= k) ->
  (forall a p, price_data !! a = Some p -> Dec.truthy p = false) ->
  calculate_usd_values swaps price_data asset_decimals
  = Ok (List.map (fun swap => SwapData.set_usd swap None None None) swaps).
Proof.
  intros D P. induction swaps as [|swap rest IH];
    cbn [calculate_usd_values List.map]; [reflexivity|].
  rewrite IH. unfold usd_values.
  destruct (div_pow10_total (SwapData.amount_in swap)
              (get (asset_decimals !! SwapData.asset_in_id swap) 8))
    as [n_in ->]; [apply get_decimals_nonneg, D|].
  destruct (div_pow10_total (SwapData.amount_out swap)
              (get (asset_decimals !! SwapData.asset_out_id swap) 8))
    as [n_out ->]; [apply get_decimals_nonneg, D|].
  cbn [bind]. rewrite !get_price_falsy by exact P.
  reflexivity.
Qed.

(** X18, with no prices at all. *)
Lemma swap_calculate_usd_values_without_prices_witness :
  calculate_usd_values [one_waves_swap] ∅ sample_decimals
  = Ok [SwapData.set_usd one_waves_swap None None None].
Proof.
  apply (swap_calculate_usd_values_without_prices [one_waves_swap] ∅
           sample_decimals).
  - intros a k. unfold sample_decimals.
    destruct (decide (AssetMapping.WAVES_ID = a)) as [<-|N1].
    + rewrite lookup_insert_eq. intros E. injection E as <-. lia.
    + rewrite lookup_insert_ne by exact N1.
      destruct (decide (AssetMapping.USDN_ID = a)) as [<-|N2].
      * rewrite lookup_insert_eq. intros E. injection E as <-. lia.
      * rewrite lookup_insert_ne by exact N2. rewrite lookup_empty.
        discriminate.
  - intros a p. rewrite lookup_empty. discriminate.
Defined.

Lemma usd_values_raises price_data asset_decimals swap e :
  usd_values price_data asset_decimals swap = Raise e -> e = TypeError.
Proof.
  destruct (usd_values_spec price_data asset_decimals swap)
    as [(a & b & v & U)|U]; rewrite U; [discriminate|].
  intros E. injection E as <-. reflexivity.
Qed.

(** The returned list is the second component of the pass with its
    effect, and on return it holds the objects of the list given. *)
Lemma calculate_usd_values_in_place_result swaps price_data asset_decimals :
  snd (calculate_usd_values_in_place swaps price_data asset_decimals)
  = calculate_usd_values swaps price_data asset_decimals
  /\ (forall updated,
        calculate_usd_values swaps price_data asset_decimals = Ok updated ->
        fst (calculate_usd_values_in_place swaps price_data asset_decimals)
        = updated).
Proof.
  induction swaps as [|swap rest [IH1 IH2]];
    cbn [calculate_usd_values calculate_usd_values_in_place].
  - split; [reflexivity|]. intros updated E. injection E as <-. reflexivity.
  - destruct (usd_values price_data asset_decimals swap) as [swap'|e];
      cbn [bind]; [|split; [reflexivity|discriminate]].
    destruct (calculate_usd_values_in_place rest price_data asset_decimals)
      as [rest' result].
    cbn [fst snd] in *. subst result. split; [reflexivity|].
    destruct (calculate_usd_values rest price_data asset_decimals)
      as [updated_rest|e]; cbn [bind]; [|discriminate].
    intros updated E. injection E as <-. rewrite (IH2 _ eq_refl). reflexivity.
Qed.

(** X19.  One swap whose input asset is reported with negative decimals
    makes the USD pass raise [TypeError] ([10**k] is then a float, and a
    [Decimal] is not divided by a float), so the caller gets no list.  The
    swaps before it in the batch have by then been given their USD values
    in place; that swap and the swaps after it are left as they were. *)
Theorem swap_calculate_usd_values_negative_decimals
    (before : list SwapData.t) (bad : SwapData.t) (after : list SwapData.t)
    (price_data : gmap string Decimal) (asset_decimals : gmap string Z) (k : Z) :
  asset_decimals !! SwapData.asset_in_id bad = Some k ->
  k < 0 ->
  calculate_usd_values (before ++ bad :: after) price_data asset_decimals
  = Raise TypeError
  /\ (forall before',
        calculate_usd_values before price_data asset_decimals = Ok before' ->
        calculate_usd_values_in_place (before ++ bad :: after) price_data
          asset_decimals
        = (before' ++ bad :: after, Raise TypeError)).
Proof.
  intros K N.
  assert (B : usd_values price_data asset_decimals bad = Raise TypeError).
  { unfold usd_values. rewrite K. cbn [get]. unfold Dec.div_pow10 at 1.
    apply Z.ltb_lt in N. rewrite N. reflexivity. }
  split.
  - induction before as [|swap rest IH]; cbn [app calculate_usd_values].
    + rewrite B. reflexivity.
    + destruct (usd_values price_data asset_decimals swap) as [swap'|e] eqn:U;
        cbn [bind].
      * rewrite IH. reflexivity.
      * rewrite (usd_values_raises _ _ _ _ U). reflexivity.
  - induction before as [|swap rest IH]; intros before';
      cbn [app calculate_usd_values calculate_usd_values_in_place].
    + intros E. injection E as <-. rewrite B. reflexivity.
    + destruct (usd_values price_data asset_decimals swap) as [swap'|e];
        cbn [bind]; [|discriminate].
      destruct (calculate_usd_values rest price_data asset_decimals)
        as [rest'|e]; cbn [bind]; [|discriminate].
      intros E. injection E as <-. rewrite (IH rest' eq_refl). reflexivity.
Qed.

(** X19, at a swap of 1 WAVES followed by a swap of an asset reported
    with -2 decimals: the first swap carries its USD values, the second
    does not. *)
Lemma swap_calculate_usd_values_negative_decimals_witness :
  calculate_usd_values_in_place ([one_waves_swap] ++ odd_asset_swap :: [])
    sample_prices negative_decimals
  = ([one_waves_swap_usd] ++ odd_asset_swap :: [], Raise TypeError).
Proof.
  refine (proj2 (swap_calculate_usd_values_negative_decimals [one_waves_swap]
                   odd_asset_swap [] sample_prices negative_decimals (-2) _ _)
            [one_waves_swap_usd] _).
  - vm_compute. reflexivity.
  - lia.
  - vm_compute. reflexivity.
Defined.

End Swaps.

(* ===================================================================== *)
(** ** The staking transformer in general *)
(* ===================================================================== *)

Section Staking.
Import StakingTransformer.

(** X20.  [transform_transactions] does not consult
    [_is_staking_transaction]; the only difference this makes is the
    type: a transaction from which [_extract_staking_data] builds an
    event passes [_is_staking_transaction] exactly when its type is 16. *)
Theorem extract_staking_data_vs_is_staking (transaction : WavesTransaction)
    (event : StakingEventData.t) :
  _extract_staking_data transaction = Some event ->
  _is_staking_transaction transaction = (w_type transaction =? 16).
Proof.
  unfold _extract_staking_data, _is_staking_transaction.
  destruct (raw_data transaction) as [invoke_data|]; [|discriminate].
  destruct (negb (str_truthy (dApp invoke_data))); [discriminate|].
  cbv zeta.
  destruct (str_truthy (FunctionMapping.extract_function_from_invoke invoke_data)
            && FunctionMapping.is_staking_function
                 (get (FunctionMapping.extract_function_from_invoke invoke_data)
                    EmptyString)) eqn:S.
  - intros _. destruct (w_type transaction =? 16); cbn [negb]; [|reflexivity].
    destruct (str_in (w_sender transaction) _); [reflexivity|].
    destruct (_ && str_in _ _); reflexivity.
  - apply andb_false_iff in S as [S|S]; rewrite S; cbn [negb orb];
      [discriminate|]. rewrite orb_true_r. discriminate.
Qed.

(** X21.  A call of [stake] that pays nothing, or whose first payment is
    not in PUZZLE, still gives a stake event: its amount is 0 and its id
    ends in [_stake_0]. *)
Theorem stake_without_puzzle_payment (transaction : WavesTransaction)
    (invoke_data : Tx) (d_app : string) :
  raw_data transaction = Some invoke_data ->
  dApp invoke_data = Some d_app ->
  d_app <> EmptyString ->
  FunctionMapping.extract_function_from_invoke invoke_data = Some "stake"%string ->
  match payment invoke_data with
  | [] => True
  | payment :: _ =>
      str_or (p_assetId payment) AssetMapping.WAVES_ID
      <> AssetMapping.PUZZLE_TOKEN_ID
  end ->
  _extract_staking_data transaction =
  Some (StakingEventData.mk (w_id transaction ++ "_stake_0")
          (w_id transaction) (w_height transaction) (w_timestamp transaction)
          (w_sender transaction) "stake" (Dec.of_int 0) None).
Proof.
  intros R D N F P. unfold _extract_staking_data. rewrite R, D, F.
  cbn [str_truthy get]. apply String.eqb_neq in N. rewrite N. cbn [negb].
  change (FunctionMapping.is_staking_function "stake") with true.
  change (_determine_event_type "stake") with (Some "stake"%string).
  cbn [negb orb str_truthy get String.eqb Ascii.eqb Bool.eqb].
  unfold _parse_staking_details.
  change (str_in "stake" ["stake"%string]) with true. cbv iota.
  destruct (payment invoke_data) as [|pay rest]; cbn [bind or_none].
  - reflexivity.
  - apply String.eqb_neq in P. rewrite P. cbn [bind or_none]. reflexivity.
Qed.

(** X21, at a stake paid in WAVES. *)
Lemma stake_without_puzzle_payment_witness :
  _extract_staking_data stake_in_waves =
  Some (StakingEventData.mk "tx7_stake_0" "tx7" 106 1700000000006 "3PStaker"
          "stake" (Dec.of_int 0) None).
Proof.
  refine (stake_without_puzzle_payment stake_in_waves _
            AddressMapping.PUZZLE_STAKING_ADDRESS eq_refl eq_refl _ eq_refl _);
    vm_compute; discriminate.
Defined.

(** X20, at the same transaction. *)
Lemma extract_staking_data_vs_is_staking_witness :
  _is_staking_transaction stake_in_waves = (w_type stake_in_waves =? 16).
Proof.
  apply (extract_staking_data_vs_is_staking stake_in_waves
           (StakingEventData.mk "tx7_stake_0" "tx7" 106 1700000000006 "3PStaker"
              "stake" (Dec.of_int 0) None)).
  vm_compute. reflexivity.
Defined.

Lemma data_entry_events_stop tx_id height timestamp l1 bad l2 s :
  contains "_staked" (get (e_key bad) EmptyString) = true ->
  e_value bad = Some (VStr s) ->
  data_entry_events tx_id height timestamp (l1 ++ bad :: l2)
  = data_entry_events tx_id height timestamp l1.
Proof.
  intros K V. induction l1 as [|entry rest IH]; cbn [app data_entry_events].
  - rewrite K, V. reflexivity.
  - rewrite IH. reflexivity.
Qed.

(** X22.  [_extract_staking_from_data_entries] never raises.  Without
    [id], [height] or [timestamp] it returns no event; and a string under
    a key containing ["_staked"] ends the scan: the events of the entries
    before it are returned, the entries after it are not looked at. *)
Theorem data_entries_errors_swallowed (transaction : Tx) :
  (tx_id transaction = None \/ height transaction = None
   \/ timestamp transaction = None ->
   _extract_staking_from_data_entries transaction = [])
  /\ (forall i h ts l1 bad l2 s,
        tx_id transaction = Some i ->
        height transaction = Some h ->
        timestamp transaction = Some ts ->
        sc_data transaction = l1 ++ bad :: l2 ->
        contains "_staked" (get (e_key bad) EmptyString) = true ->
        e_value bad = Some (VStr s) ->
        _extract_staking_from_data_entries transaction
        = data_entry_events i h ts l1).
Proof.
  unfold _extract_staking_from_data_entries. split.
  - intros [H|[H|H]]; rewrite H; cbn [subscript];
      repeat match goal with
             | |- context [subscript ?x] => destruct x; cbn [subscript]
             end; reflexivity.
  - intros i h ts l1 bad l2 s I H T D K V. rewrite I, H, T, D.
    cbn [subscript]. exact (data_entry_events_stop i h ts l1 bad l2 s K V).
Qed.

(** X22, at three entries of which the second holds a string: the event
    of the first alone comes out. *)
Lemma data_entries_errors_swallowed_witness :
  _extract_staking_from_data_entries entries_with_string
  = data_entry_events "tx8" 107 1700000000007
      [mkDataEntry (Some "3PAlice_staked"%string) (Some (VInt 100000000))].
Proof.
  refine (proj2 (data_entries_errors_swallowed entries_with_string)
            "tx8" 107 1700000000007
            [mkDataEntry (Some "3PAlice_staked"%string) (Some (VInt 100000000))]
            (mkDataEntry (Some "3PBob_staked"%string) (Some (VStr "12")))
            [mkDataEntry (Some "3PCarol_staked"%string) (Some (VInt 300000000))]
            "12" eq_refl eq_refl eq_refl eq_refl _ eq_refl).
  vm_compute. reflexivity.
Defined.

Lemma data_entry_events_provenance tx_id height timestamp entries e :
  In e (data_entry_events tx_id height timestamp entries) ->
  exists entry key,
    In entry entries
    /\ e_key entry = Some key
    /\ contains "_staked" key = true
    /\ StakingEventData.staker_address e = split_first "_" key
    /\ StakingEventData.transaction_id e = tx_id
    /\ StakingEventData.height e = height
    /\ StakingEventData.timestamp e = timestamp
    /\ StakingEventData.amount_usd e = None.
Proof.
  induction entries as [|entry rest IH]; cbn [data_entry_events]; [intros []|].
  assert (Rest : In e (data_entry_events tx_id height timestamp rest) ->
                 exists entry' key,
                   In entry' (entry :: rest)
                   /\ e_key entry' = Some key
                   /\ contains "_staked" key = true
                   /\ StakingEventData.staker_address e = split_first "_" key
                   /\ StakingEventData.transaction_id e = tx_id
                   /\ StakingEventData.height e = height
                   /\ StakingEventData.timestamp e = timestamp
                   /\ StakingEventData.amount_usd e = None).
  { intros H. destruct (IH H) as (entry' & key & Hin & Hrest).
    exists entry', key. split; [right; exact Hin|exact Hrest]. }
  destruct (contains "_staked" (get (e_key entry) EmptyString)) eqn:K;
    [|exact Rest].
  assert (Key : exists key, e_key entry = Some key
                            /\ contains "_staked" key = true).
  { destruct (e_key entry) as [key|]; [eauto|]. cbn in K. discriminate. }
  destruct Key as (key & Ek & Ck).
  assert (Here : forall value shown,
            e = stake_update tx_id height timestamp
                  (get (e_key entry) EmptyString) value shown ->
            exists entry' key,
              In entry' (entry :: rest)
              /\ e_key entry' = Some key
              /\ contains "_staked" key = true
              /\ StakingEventData.staker_address e = split_first "_" key
              /\ StakingEventData.transaction_id e = tx_id
              /\ StakingEventData.height e = height
              /\ StakingEventData.timestamp e = timestamp
              /\ StakingEventData.amount_usd e = None).
  { intros value shown ->. exists entry, key. rewrite Ek. cbn [get].
    split; [left; reflexivity|]. repeat split; assumption. }
  destruct (get (e_value entry) (VInt 0)) as [value|b|s].
  - destruct (0 <? value); [|exact Rest].
    intros [<-|H]; [eapply Here; reflexivity|exact (Rest H)].
  - destruct b; [|exact Rest].
    intros [<-|H]; [eapply Here; reflexivity|exact (Rest H)].
  - intros [].
Qed.

(** X23.  Every event [_extract_staking_from_data_entries] returns comes
    from a data entry whose key contains ["_staked"]: the staker is the
    part of the key before its first underscore, the id, height and
    timestamp are the transaction's, and there is no USD amount. *)
Theorem data_entries_provenance (transaction : Tx) (e : StakingEventData.t) :
  In e (_extract_staking_from_data_entries transaction) ->
  exists entry key,
    In entry (sc_data transaction)
    /\ e_key entry = Some key
    /\ contains "_staked" key = true
    /\ StakingEventData.staker_address e = split_first "_" key
    /\ Some (StakingEventData.transaction_id e) = tx_id transaction
    /\ Some (StakingEventData.height e) = height transaction
    /\ Some (StakingEventData.timestamp e) = timestamp transaction
    /\ StakingEventData.amount_usd e = None.
Proof.
  unfold _extract_staking_from_data_entries.
  destruct (tx_id transaction) as [i|]; cbn [subscript]; [|intros []].
  destruct (height transaction) as [h|]; cbn [subscript]; [|intros []].
  destruct (timestamp transaction) as [ts|]; cbn [subscript]; [|intros []].
  intros H.
  destruct (data_entry_events_provenance i h ts (sc_data transaction) e H)
    as (entry & key & Hin & Hk & Hc & Hs & Hi & Hh & Ht & Hu).
  exists entry, key. subst i h ts. repeat split; assumption.
Qed.

(** X23, at the entries with a string: the event of the first entry. *)
Lemma data_entries_provenance_witness :
  exists entry key,
    In entry (sc_data entries_with_string)
    /\ e_key entry = Some key
    /\ contains "_staked" key = true
    /\ "3PAlice"%string = split_first "_" key.
Proof.
  destruct (data_entries_provenance entries_with_string
              (stake_update "tx8" 107 1700000000007 "3PAlice_staked" 100000000
                 "100000000"))
    as (entry & key & Hin & Hk & Hc & Hs & _).
  - vm_compute. left. reflexivity.
  - exists entry, key. auto.
Defined.

Lemma set_amount_usd_same e :
  StakingEventData.set_amount_usd e (StakingEventData.amount_usd e) = e.
Proof. destruct e; reflexivity. Qed.

(** X24.  The USD pass over staking events keeps the number and the
    order of the events and changes nothing but [amount_usd]; with a
    price of zero it changes nothing at all; and run again on its own
    result with the same price it returns that result. *)
Theorem staking_calculate_usd_values_fields (events : list StakingEventData.t)
    (puzzle_price : Decimal) :
  Forall2 (fun event event' =>
             exists a, event' = StakingEventData.set_amount_usd event a)
    events (calculate_usd_values events puzzle_price)
  /\ (Dec.truthy puzzle_price = false ->
      calculate_usd_values events puzzle_price = events)
  /\ calculate_usd_values (calculate_usd_values events puzzle_price) puzzle_price
     = calculate_usd_values events puzzle_price.
Proof.
  unfold calculate_usd_values. split; [|split].
  - induction events as [|event rest IH]; cbn [List.map]; constructor;
      [|exact IH].
    destruct (_ && _); [eauto|].
    exists (StakingEventData.amount_usd event).
    symmetry. apply set_amount_usd_same.
  - intros ->. cbn [andb]. apply map_id.
  - rewrite List.map_map. apply map_ext. intros event.
    destruct (Dec.truthy puzzle_price && Dec.truthy (StakingEventData.amount event))
      eqn:T; [|rewrite T; reflexivity].
    cbn [StakingEventData.set_amount_usd StakingEventData.amount].
    rewrite T. reflexivity.
Qed.

(** X24, at a price of zero. *)
Lemma staking_calculate_usd_values_fields_witness :
  calculate_usd_values [staking_event "3PStaker" "stake" 100] (Dec.of_int 0)
  = [staking_event "3PStaker" "stake" 100].
Proof.
  apply (proj1 (proj2 (staking_calculate_usd_values_fields
                         [staking_event "3PStaker" "stake" 100] (Dec.of_int 0)))).
  vm_compute. reflexivity.
Defined.

Lemma sum_from_decimal values : forall d,
  exists d', fold_left (fun acc v =>
                          match acc with
                          | PyInt n => PyDec (Dec.add v (Dec.of_int n))
                          | PyDec d => PyDec (Dec.add d v)
                          end) values (PyDec d) = PyDec d'.
Proof.
  induction values as [|v rest IH]; intros d; cbn [fold_left]; [eauto|].
  apply IH.
Qed.

(** X25.  [total_staked] is the integer 0, not a [Decimal], exactly when
    no staker has a positive balance; otherwise it is a [Decimal]. *)
Theorem total_staked_number (events : list StakingEventData.t) (timestamp : Z) :
  match total_staked (aggregate_staking_stats events timestamp) with
  | PyInt n =>
      n = 0 /\ staker_balances (aggregate_staking_stats events timestamp) = []
  | PyDec _ =>
      staker_balances (aggregate_staking_stats events timestamp) <> []
  end.
Proof.
  unfold aggregate_staking_stats. cbn [total_staked staker_balances].
  destruct (List.filter _ _) as [|[k v] rest]; cbn [List.map snd].
  - split; reflexivity.
  - unfold sum. cbn [fold_left].
    destruct (sum_from_decimal (List.map snd rest)
                (Dec.add v (Dec.of_int 0))) as [d' ->].
    discriminate.
Qed.

(** X26.  A stake_update wipes the staker's history: the balance the
    aggregator reports for the staker is the same whether or not the
    events before the staker's stake_update are there. *)
Theorem stake_update_resets_history (before : list StakingEventData.t)
    (u : StakingEventData.t) (after : list StakingEventData.t)
    (timestamp : Z) :
  StakingEventData.event_type u = "stake_update"%string ->
  lookup_balance (StakingEventData.staker_address u)
    (staker_balances (aggregate_staking_stats (before ++ u :: after) timestamp))
  = lookup_balance (StakingEventData.staker_address u)
      (staker_balances (aggregate_staking_stats (u :: after) timestamp)).
Proof.
  intros T. unfold aggregate_staking_stats. cbn [staker_balances].
  set (s := StakingEventData.staker_address u).
  assert (N : forall events,
            List.NoDup (List.map fst (fold_left apply_event events [])))
    by (intros events; apply fold_apply_event_NoDup; constructor).
  rewrite !lookup_balance_filter by apply N.
  assert (L : forall bs,
            lookup_balance s (fold_left apply_event (u :: after) bs)
            = Some (running_balance s after (StakingEventData.amount u))).
  { intros bs. cbn [fold_left]. rewrite fold_apply_event_lookup.
    rewrite apply_event_lookup. fold s. rewrite String.eqb_refl.
    unfold balance_step. rewrite T. reflexivity. }
  rewrite fold_left_app, !L. reflexivity.
Qed.

(** X26, at a stake of 100 followed by a snapshot of 30. *)
Lemma stake_update_resets_history_witness :
  lookup_balance "3PStaker"
    (staker_balances
       (aggregate_staking_stats
          ([staking_event "3PStaker" "stake" 100]
             ++ staking_event "3PStaker" "stake_update" 30 :: []) 0))
  = lookup_balance "3PStaker"
      (staker_balances
         (aggregate_staking_stats
            [staking_event "3PStaker" "stake_update" 30] 0)).
Proof.
  exact (stake_update_resets_history [staking_event "3PStaker" "stake" 100]
           (staking_event "3PStaker" "stake_update" 30) [] 0 eq_refl).
Defined.

(** The staking functions that have an entry in the table of
    [_determine_event_type], with their event types. *)
Lemma staking_function_event_type f ty :
  FunctionMapping.is_staking_function f = true ->
  _determine_event_type f = Some ty ->
  ty = f /\ In f ["stake"; "unstake"; "claim"]%string.
Proof.
  unfold FunctionMapping.is_staking_function. rewrite str_in_In.
  intros H. cbn in H.
  repeat (destruct H as [<-|H];
          [vm_compute; intros E;
           first [discriminate E
                 | injection E as <-; split; [reflexivity|cbn; tauto]]|]).
  destruct H.
Qed.

(** X28.  Only calls of [stake], [unstake] and [claim] give an event of
    the invocation path, and the event type is the function name: the
    other four staking functions (claimReward, claimIndexRewards,
    unstakeIndex, stakeIndex) have no entry in the table of event types.
    The event carries the transaction's id, height, timestamp and sender
    and no USD amount. *)
Theorem staking_event_provenance (transaction : WavesTransaction)
    (event : StakingEventData.t) :
  _extract_staking_data transaction = Some event ->
  exists invoke_data,
    raw_data transaction = Some invoke_data
    /\ FunctionMapping.extract_function_from_invoke invoke_data
       = Some (StakingEventData.event_type event)
    /\ In (StakingEventData.event_type event) ["stake"; "unstake"; "claim"]%string
    /\ StakingEventData.transaction_id event = w_id transaction
    /\ StakingEventData.height event = w_height transaction
    /\ StakingEventData.timestamp event = w_timestamp transaction
    /\ StakingEventData.staker_address event = w_sender transaction
    /\ StakingEventData.amount_usd event = None.
Proof.
  unfold _extract_staking_data.
  destruct (raw_data transaction) as [invoke_data|]; [|discriminate].
  destruct (negb (str_truthy (dApp invoke_data))); [discriminate|].
  destruct (FunctionMapping.extract_function_from_invoke invoke_data)
    as [f|] eqn:F; cbn [str_truthy negb get orb]; [|discriminate].
  destruct (FunctionMapping.is_staking_function f) eqn:S;
    [|rewrite orb_true_r; discriminate].
  destruct (negb (negb (String.eqb f EmptyString)) || negb true);
    [discriminate|].
  destruct (_determine_event_type f) as [ty|] eqn:T; cbn [str_truthy negb get];
    [|discriminate].
  destruct (staking_function_event_type f ty S T) as [-> I].
  destruct (negb (negb (String.eqb f EmptyString))); [discriminate|].
  unfold _parse_staking_details, _calculate_usd_value.
  match goal with
  | |- context [or_none (bind ?m _)] => destruct m as [amount|e]
  end; cbn [bind or_none]; [|discriminate].
  intros E. injection E as <-. exists invoke_data.
  cbn - [In]. repeat split; try reflexivity; assumption.
Qed.

(** X28, at the stake paid in WAVES. *)
Lemma staking_event_provenance_witness :
  exists invoke_data,
    raw_data stake_in_waves = Some invoke_data
    /\ FunctionMapping.extract_function_from_invoke invoke_data
       = Some "stake"%string.
Proof.
  destruct (staking_event_provenance stake_in_waves
              (StakingEventData.mk "tx7_stake_0" "tx7" 106 1700000000006
                 "3PStaker" "stake" (Dec.of_int 0) None))
    as (invoke_data & R & F & _).
  - vm_compute. reflexivity.
  - exists invoke_data. split; [exact R|exact F].
Defined.

Lemma transfer_amount_first sender before tr after amount :
  Forall (fun t => ~ (t_address t = Some sender
                      /\ str_or (t_asset t) AssetMapping.WAVES_ID
                         = AssetMapping.PUZZLE_TOKEN_ID)) before ->
  t_address tr = Some sender ->
  str_or (t_asset tr) AssetMapping.WAVES_ID = AssetMapping.PUZZLE_TOKEN_ID ->
  transfer_amount (before ++ tr :: after) sender amount
  = AssetMapping.normalize_amount AssetMapping.PUZZLE_TOKEN_ID
      (get (t_amount tr) 0).
Proof.
  intros F A P. induction F as [|t before Ht _ IH]; cbn [app transfer_amount].
  - rewrite A, String.eqb_refl, P, String.eqb_refl. reflexivity.
  - destruct (t_address t) as [a|]; [|exact IH].
    destruct (String.eqb_spec a sender) as [->|_]; [|exact IH].
    destruct (String.eqb_spec (str_or (t_asset t) AssetMapping.WAVES_ID)
                AssetMapping.PUZZLE_TOKEN_ID) as [Q|_]; [|exact IH].
    exfalso. apply Ht. auto.
Qed.

(** X29.  The amount of an unstake or claim event is the normalized
    amount of the first transfer that goes to the sender in PUZZLE:
    transfers to others, transfers in other assets and every later
    transfer are ignored. *)
Theorem unstake_amount_first_puzzle_transfer (transaction : WavesTransaction)
    (invoke_data : Tx) (d_app f : string)
    (before : list Transfer) (tr : Transfer) (after : list Transfer) :
  raw_data transaction = Some invoke_data ->
  dApp invoke_data = Some d_app ->
  d_app <> EmptyString ->
  FunctionMapping.extract_function_from_invoke invoke_data = Some f ->
  In f ["unstake"; "claim"]%string ->
  sc_transfers invoke_data = before ++ tr :: after ->
  Forall (fun t => ~ (t_address t = Some (w_sender transaction)
                      /\ str_or (t_asset t) AssetMapping.WAVES_ID
                         = AssetMapping.PUZZLE_TOKEN_ID)) before ->
  t_address tr = Some (w_sender transaction) ->
  str_or (t_asset tr) AssetMapping.WAVES_ID = AssetMapping.PUZZLE_TOKEN_ID ->
  exists amount,
    AssetMapping.normalize_amount AssetMapping.PUZZLE_TOKEN_ID
      (get (t_amount tr) 0) = Ok amount
    /\ _extract_staking_data transaction =
       Some (StakingEventData.mk
               (w_id transaction ++ "_" ++ f ++ "_" ++ Dec.to_str amount)
               (w_id transaction) (w_height transaction)
               (w_timestamp transaction) (w_sender transaction) f amount None).
Proof.
  intros R D N F I Tr Fb A P.
  destruct (normalize_amount_normalized AssetMapping.PUZZLE_TOKEN_ID
              (get (t_amount tr) 0)) as (amount & E & _).
  exists amount. split; [exact E|].
  unfold _extract_staking_data. rewrite R, D, F.
  cbn [str_truthy get]. apply String.eqb_neq in N. rewrite N. cbn [negb].
  assert (K : FunctionMapping.is_staking_function f = true
              /\ _determine_event_type f = Some f
              /\ String.eqb f EmptyString = false
              /\ str_in f ["stake"%string] = false
              /\ str_in f ["unstake"; "claim"; "compound"]%string = true).
  { cbn in I. destruct I as [<-|[<-|[]]]; repeat split; vm_compute; reflexivity. }
  destruct K as (K1 & K2 & K3 & K4 & K5).
  rewrite K1, K2, K3. cbn [negb orb str_truthy get]. rewrite K3. cbn [negb].
  unfold _parse_staking_details. rewrite K4, K5, Tr.
  rewrite (transfer_amount_first (w_sender transaction) before tr after
             (Dec.of_int 0) Fb A P), E.
  cbn [bind or_none]. reflexivity.
Qed.

(** X29, at an unstake paying out 1 WAVES, then 5 PUZZLE, then 7
    PUZZLE: the amount is 5. *)
Lemma unstake_amount_first_puzzle_transfer_witness :
  exists amount,
    AssetMapping.normalize_amount AssetMapping.PUZZLE_TOKEN_ID
      (get (Some 500000000) 0) = Ok amount
    /\ _extract_staking_data unstake_three_transfers =
       Some (StakingEventData.mk
               ("tx4" ++ "_" ++ "unstake" ++ "_" ++ Dec.to_str amount)
               "tx4" 102 1700000000002 "3PStaker" "unstake" amount None).
Proof.
  refine (unstake_amount_first_puzzle_transfer unstake_three_transfers _
            AddressMapping.PUZZLE_STAKING_ADDRESS "unstake"
            [mkTransfer (Some "3PStaker"%string) None (Some 100000000)]
            (mkTransfer (Some "3PStaker"%string)
               (Some AssetMapping.PUZZLE_TOKEN_ID) (Some 500000000))
            [mkTransfer (Some "3PStaker"%string)
               (Some AssetMapping.PUZZLE_TOKEN_ID) (Some 700000000)]
            eq_refl eq_refl _ eq_refl _ eq_refl _ eq_refl eq_refl).
  - vm_compute. discriminate.
  - cbn. auto.
  - constructor; [|constructor]. vm_compute. intros [_ H]. discriminate H.
Defined.

End Staking.
